(** * TalentScout (src/app.py): the screening session as a state machine

    A shallow embedding of the Streamlit application of [src/app.py]:
    the intake validation, the question source with its static fallback,
    the session state and one pass of [TalentScoutApp.run] over it.

    Conventions.
    - A Python [str] is a [string]; a character is a code point below 256,
      so [lower] and [isspace] follow Python on Latin-1 text.
    - [st.session_state] is the record [session_state]; every handler takes
      the state and returns the new one together with the interface calls
      it made ([ui]), in program order.
    - What the user and the outside world contribute to a pass (widget
      values, the clock, the reply of the text-generation service) is the
      record [pass_input]. A session is a list of passes; [st.rerun()] asks
      for one more pass, in which no widget is pressed.
    - Library code enters as data: the outcome of the remote call is a
      [remote_result], [json.loads] is the field [json_loads] of the
      [environment].
    - Left out: page decoration ([st.title], [st.header], [st.balloons],
      [st.success]), the text of the prompt, and
      [ConversationManager.get_conversation_context], which nothing calls.

    The first part holds the definitions, the second the properties. *)

From Stdlib Require Import ZArith NArith Bool Ascii String List Lia.
From stdpp Require Import gmap strings list fin_maps.

Import ListNotations.
Local Open Scope string_scope.
Local Open Scope list_scope.

Set Default Proof Using "Type".

(** ** Python strings *)

Module PyStr.

(** [str.isspace] on one character: the ASCII table of CPython
    (0x09-0x0D, 0x1C-0x20) and, above it, NEL and NBSP. *)
Definition isspace (c : ascii) : bool :=
  let n := N_of_ascii c in
  ((9 <=? n) && (n <=? 13) || (28 <=? n) && (n <=? 32)
   || (n =? 133) || (n =? 160))%N.

Definition lower_char (c : ascii) : ascii :=
  let n := N_of_ascii c in
  if ((65 <=? n) && (n <=? 90)
      || (192 <=? n) && (n <=? 222) && negb (n =? 215))%N
  then ascii_of_N (n + 32) else c.

(** [s.lower()] *)
Fixpoint lower (s : string) : string :=
  match s with
  | EmptyString => EmptyString
  | String c s' => String (lower_char c) (lower s')
  end.

(** Truth value of a string: [bool(s)], false exactly for [""]. *)
Definition truthy (s : string) : bool :=
  match s with EmptyString => false | String _ _ => true end.

(** [p] is an initial segment of [s] ([s.startswith(p)]). *)
Fixpoint startswith (p s : string) : bool :=
  match p, s with
  | EmptyString, _ => true
  | String a p', String b s' => Ascii.eqb a b && startswith p' s'
  | String _ _, EmptyString => false
  end.

(** [needle in hay] *)
Fixpoint contains (needle hay : string) : bool :=
  startswith needle hay ||
  match hay with
  | EmptyString => false
  | String _ hay' => contains needle hay'
  end.

(** [s.lstrip()], [s.rstrip()], [s.strip()] *)
Fixpoint lstrip (s : string) : string :=
  match s with
  | EmptyString => EmptyString
  | String c s' => if isspace c then lstrip s' else s
  end.

Fixpoint rstrip (s : string) : string :=
  match s with
  | EmptyString => EmptyString
  | String c s' =>
      match rstrip s' with
      | EmptyString => if isspace c then EmptyString else String c EmptyString
      | r => String c r
      end
  end.

Definition strip (s : string) : string := rstrip (lstrip s).

(** [s.split(sep)] for a one-character separator: never an empty list. *)
Fixpoint split (sep : ascii) (s : string) : list string :=
  match s with
  | EmptyString => [EmptyString]
  | String c s' =>
      if Ascii.eqb c sep then EmptyString :: split sep s'
      else match split sep s' with
           | [] => [String c EmptyString]
           | seg :: segs => String c seg :: segs
           end
  end.

(** [sep.join(l)] *)
Fixpoint join (sep : string) (l : list string) : string :=
  match l with
  | [] => EmptyString
  | [x] => x
  | x :: rest => x ++ sep ++ join sep rest
  end.

(** [all(c ... for c in s)] for a character test. *)
Fixpoint forallb (p : ascii -> bool) (s : string) : bool :=
  match s with
  | EmptyString => true
  | String c s' => p c && forallb p s'
  end.

(** [s[:n]] for [n >= 0] *)
Fixpoint take (n : nat) (s : string) : string :=
  match n, s with
  | S n', String c s' => String c (take n' s')
  | _, _ => EmptyString
  end.

(** The characters of [s], each as a one-character string
    (what iterating over a [str] yields). *)
Fixpoint chars (s : string) : list string :=
  match s with
  | EmptyString => []
  | String c s' => String c EmptyString :: chars s'
  end.

(** [s.upper()]. The capital of the sharp s is two letters; the capitals of
    code points 181 and 255 lie above 255 and are outside this model,
    which keeps those two characters. *)
Definition upper_char (c : ascii) : string :=
  let n := N_of_ascii c in
  if ((97 <=? n) && (n <=? 122)
      || (224 <=? n) && (n <=? 254) && negb (n =? 247))%N
  then String (ascii_of_N (n - 32)) EmptyString
  else if (n =? 223)%N then String "S" (String "S" EmptyString)
  else String c EmptyString.

Fixpoint upper (s : string) : string :=
  match s with
  | EmptyString => EmptyString
  | String c s' => upper_char c ++ upper s'
  end.

End PyStr.

(** ** Regular expressions, as far as [re.match] is used *)

Module Re.

Inductive regex : Type :=
| Void                          (* matches nothing *)
| Eps                           (* the empty string *)
| Class (p : ascii -> bool)     (* one character of a class *)
| Cat (r1 r2 : regex)
| Alt (r1 r2 : regex)
| Star (r : regex).

(** [r+] and [r{n,}] *)
Definition Plus (r : regex) : regex := Cat r (Star r).

Fixpoint AtLeast (n : nat) (r : regex) : regex :=
  match n with
  | O => Star r
  | S n' => Cat r (AtLeast n' r)
  end.

Fixpoint nullable (r : regex) : bool :=
  match r with
  | Void => false
  | Eps => true
  | Class _ => false
  | Cat r1 r2 => nullable r1 && nullable r2
  | Alt r1 r2 => nullable r1 || nullable r2
  | Star _ => true
  end.

(** What is left of [r] once the character [c] has been read. *)
Fixpoint deriv (c : ascii) (r : regex) : regex :=
  match r with
  | Void => Void
  | Eps => Void
  | Class p => if p c then Eps else Void
  | Cat r1 r2 =>
      if nullable r1
      then Alt (Cat (deriv c r1) r2) (deriv c r2)
      else Cat (deriv c r1) r2
  | Alt r1 r2 => Alt (deriv c r1) (deriv c r2)
  | Star r1 => Cat (deriv c r1) (Star r1)
  end.

(** [re.fullmatch(r, s) is not None] *)
Fixpoint fullmatch (r : regex) (s : string) : bool :=
  match s with
  | EmptyString => nullable r
  | String c s' => fullmatch (deriv c r) s'
  end.

Definition newline : ascii := "010"%char.

(** [re.match('^' r '$', s) is not None], without flags: [^] pins the
    start, and [$] holds at the end of the text and also just before a
    newline that is the last character of the text. *)
Definition match_anchored (r : regex) (s : string) : bool :=
  fullmatch (Cat r (Alt Eps (Class (Ascii.eqb newline)))) s.

(** The language of a regular expression. *)
Inductive matches : regex -> string -> Prop :=
| m_eps : matches Eps EmptyString
| m_class p c : p c = true -> matches (Class p) (String c EmptyString)
| m_cat r1 r2 s1 s2 :
    matches r1 s1 -> matches r2 s2 -> matches (Cat r1 r2) (s1 ++ s2)
| m_alt_l r1 r2 s : matches r1 s -> matches (Alt r1 r2) s
| m_alt_r r1 r2 s : matches r2 s -> matches (Alt r1 r2) s
| m_star_nil r : matches (Star r) EmptyString
| m_star_cons r s1 s2 :
    matches r s1 -> matches (Star r) s2 -> matches (Star r) (s1 ++ s2).

End Re.

(** ** Configuration ([class Config]) *)

Module Config.

(** Text outside ASCII stands as its UTF-8 bytes. *)
Definition GREETING_MESSAGE : string := "
    👋 Welcome to TalentScout! 
    
    I'm your AI-powered hiring assistant here to help you through the technical screening process. 
    I'll collect some basic information about you and then assess your technical skills through 
    relevant questions based on your tech stack.
    
    Let's get started! 😊
    ".

Definition EXIT_KEYWORDS : list string :=
  ["exit"; "quit"; "bye"; "goodbye"; "stop"].

Definition THANK_YOU_MESSAGE : string := "
    Thank you for your time! Your responses have been recorded. 
    Our hiring team will review your information and get back to you soon. 
    
    Good luck! 🚀
    ".

End Config.

(** ** Data model *)

(** A value as [json.loads] builds it. A float is kept as its lexeme. *)
#[warnings="-register-all"]
Inductive pyval : Type :=
| PNone
| PBool (b : bool)
| PInt (z : Z)
| PFloat (lexeme : string)
| PStr (s : string)
| PList (l : list pyval)
| PDict (d : list (string * pyval)).

(** What [generate_questions_for_tech] hands back: the outcome of a
    slice [[:5]], so a list (of whatever the reply held) or a string. *)
Inductive question_seq : Type :=
| QList (l : list pyval)
| QStr (s : string).

(** The items [enumerate(questions)] runs over. *)
Definition q_items (q : question_seq) : list pyval :=
  match q with
  | QList l => l
  | QStr s => map PStr (PyStr.chars s)
  end.

(** [len(questions)] *)
Definition q_len (q : question_seq) : nat := length (q_items q).

(** The values of the seven widgets of the intake form; this is also the
    dictionary handed to [_save_candidate_data]. *)
Record intake_form : Type := {
  full_name : string;
  email : string;
  phone_number : string;
  years_experience : Z;
  desired_positions : list string;
  current_location : string;
  tech_stack : string
}.

(** [{'questions': ..., 'answers': ...}] *)
Record tech_response : Type := {
  questions : question_seq;
  answers : list string
}.

(** A [dict] with string keys in insertion order: assigning to a key that
    is present keeps its place, a new key goes last. *)
Fixpoint dict_set {V : Type} (k : string) (v : V) (d : list (string * V))
  : list (string * V) :=
  match d with
  | [] => [(k, v)]
  | (k', v') :: d' =>
      if String.eqb k' k then (k, v) :: d' else (k', v') :: dict_set k v d'
  end.

Fixpoint dict_get {V : Type} (k : string) (d : list (string * V)) : option V :=
  match d with
  | [] => None
  | (k', v') :: d' => if String.eqb k' k then Some v' else dict_get k d'
  end.

(** [st.session_state.candidate_data]: [{}] at first, the intake dictionary
    after a valid submission, with the key ['tech_responses'] added by the
    assessment. [None] is an absent key. *)
Record candidate_dict : Type := {
  basic : option intake_form;
  tech_responses : option (list (string * tech_response))
}.

Definition empty_candidate : candidate_dict :=
  {| basic := None; tech_responses := None |}.

Inductive stage : Type :=
| greeting
| data_collection
| technical_assessment
| completion.

Record history_entry : Type := {
  role : string;
  message : string;
  timestamp : nat
}.

Record session_state : Type := {
  conversation_history : list history_entry;
  candidate_data : candidate_dict;
  current_stage : stage;
  tech_questions : gmap string question_seq;
  current_tech_index : nat;
  tech_stack_list : list string
}.

(** [ConversationManager._initialize_session_state] on a fresh session. *)
Definition initial_state : session_state :=
  {| conversation_history := [];
     candidate_data := empty_candidate;
     current_stage := greeting;
     tech_questions := ∅;
     current_tech_index := 0;
     tech_stack_list := [] |}.

(** An exception caught by the [except Exception] of the question source. *)
Inductive py_exception : Type :=
| ServiceError (e : string)      (* raised by the remote call or by reading its reply *)
| DecodeError (e : string)       (* raised by [json.loads], other than JSONDecodeError *)
| NotSliceable (v : pyval).      (* [questions[:5]] on a value that has no slices *)

(** Calls into the interface, and [Generate], which marks a call of
    [generate_questions_for_tech]. Titles, headers and other decoration
    are left out. *)
Inductive ui : Type :=
| st_markdown (body : string)
| st_info (body : string)
| st_warning (body : string)
| st_warning_openai (e : py_exception)
| st_error (body : string)
| st_form (technology : string) (shown : question_seq)
| st_json (data : candidate_dict)
| st_rerun
| Generate (technology : string) (experience_level : Z).

(** What the text-generation request does:
    [openai.ChatCompletion.create(...)] followed by
    [response.choices[0].message.content]. *)
Inductive remote_result : Type :=
| RemoteRaises (e : string)
| RemoteContent (content : string).

Inductive json_result : Type :=
| JsonValue (v : pyval)
| JSONDecodeError
| JsonRaises (e : string).

(** What a pass of the script reads from the user and from outside. *)
Record pass_input : Type := {
  chat_input : option string;      (* st.chat_input: None when nothing was sent *)
  now : nat;                       (* datetime.now(), for the user's message *)
  now_system : nat;                (* datetime.now(), for the system entry *)
  lets_begin : bool;               (* st.button("Let's Begin!") *)
  form_values : intake_form;       (* the intake widgets *)
  form_submitted : bool;           (* "Submit Information" *)
  answer_boxes : list string;      (* the text areas, in order; a missing one is "" *)
  answers_submitted : bool;        (* "Submit Answers" *)
  start_new_session : bool;        (* st.button("Start New Session") *)
  completion_reply : remote_result (* the service, were it called in this pass *)
}.

(** ** Handlers: state in, state and interface calls out *)

Definition M (A : Type) : Type := session_state -> A * session_state * list ui.

#[global] Instance M_ret : MRet M := fun A a s => (a, s, []).

#[global] Instance M_bind : MBind M := fun A B f m s =>
  let '(a, s1, o1) := m s in
  let '(b, s2, o2) := f a s1 in
  (b, s2, o1 ++ o2).

Definition get_state : M session_state := fun s => (s, s, []).
Definition modify (f : session_state -> session_state) : M unit :=
  fun s => (tt, f s, []).
Definition tell (u : ui) : M unit := fun s => (tt, s, [u]).
Definition tell_all (us : list ui) : M unit := fun s => (tt, s, us).

Definition set_conversation_history (h : list history_entry) (s : session_state) :=
  {| conversation_history := h;
     candidate_data := candidate_data s;
     current_stage := current_stage s;
     tech_questions := tech_questions s;
     current_tech_index := current_tech_index s;
     tech_stack_list := tech_stack_list s |}.

Definition set_candidate_data (c : candidate_dict) (s : session_state) :=
  {| conversation_history := conversation_history s;
     candidate_data := c;
     current_stage := current_stage s;
     tech_questions := tech_questions s;
     current_tech_index := current_tech_index s;
     tech_stack_list := tech_stack_list s |}.

Definition set_current_stage (g : stage) (s : session_state) :=
  {| conversation_history := conversation_history s;
     candidate_data := candidate_data s;
     current_stage := g;
     tech_questions := tech_questions s;
     current_tech_index := current_tech_index s;
     tech_stack_list := tech_stack_list s |}.

Definition set_tech_questions (m : gmap string question_seq) (s : session_state) :=
  {| conversation_history := conversation_history s;
     candidate_data := candidate_data s;
     current_stage := current_stage s;
     tech_questions := m;
     current_tech_index := current_tech_index s;
     tech_stack_list := tech_stack_list s |}.

Definition set_current_tech_index (n : nat) (s : session_state) :=
  {| conversation_history := conversation_history s;
     candidate_data := candidate_data s;
     current_stage := current_stage s;
     tech_questions := tech_questions s;
     current_tech_index := n;
     tech_stack_list := tech_stack_list s |}.

Definition set_tech_stack_list (l : list string) (s : session_state) :=
  {| conversation_history := conversation_history s;
     candidate_data := candidate_data s;
     current_stage := current_stage s;
     tech_questions := tech_questions s;
     current_tech_index := current_tech_index s;
     tech_stack_list := l |}.

(** *** ConversationManager *)

Definition add_to_history (role0 message0 : string) (t : nat) : M unit :=
  modify (fun s =>
    set_conversation_history
      (conversation_history s
       ++ [ {| role := role0; message := message0; timestamp := t |} ]) s).

(** [l[-n:]] for [n > 0]: the last [n] elements, or all of a shorter list. *)
Definition py_last {A : Type} (n : nat) (l : list A) : list A :=
  skipn (length l - n) l.

(** One line of the context. *)
Definition context_line (entry : history_entry) : string :=
  (PyStr.upper (role entry) ++ ": " ++ message entry ++ String Re.newline "")%string.

(** [get_conversation_context]: the loop adds a line per entry. *)
Definition get_conversation_context (s : session_state) : string :=
  fold_left (fun context entry => (context ++ context_line entry)%string)
            (py_last 10 (conversation_history s)) "".

(** *** CandidateDataCollector *)

Definition local_char (c : ascii) : bool :=
  let n := N_of_ascii c in
  ((97 <=? n) && (n <=? 122) || (65 <=? n) && (n <=? 90)
   || (48 <=? n) && (n <=? 57)
   || Ascii.eqb c "." || Ascii.eqb c "_" || Ascii.eqb c "%"
   || Ascii.eqb c "+" || Ascii.eqb c "-")%N.

Definition domain_char (c : ascii) : bool :=
  let n := N_of_ascii c in
  ((97 <=? n) && (n <=? 122) || (65 <=? n) && (n <=? 90)
   || (48 <=? n) && (n <=? 57)
   || Ascii.eqb c "." || Ascii.eqb c "-")%N.

Definition alpha_char (c : ascii) : bool :=
  let n := N_of_ascii c in
  ((97 <=? n) && (n <=? 122) || (65 <=? n) && (n <=? 90))%N.

(** [[a-zA-Z0-9._%+-]+@[a-zA-Z0-9.-]+\.[a-zA-Z]{2,}] between [^] and [$]. *)
Definition email_pattern : Re.regex :=
  Re.Cat (Re.Plus (Re.Class local_char))
    (Re.Cat (Re.Class (Ascii.eqb "@"))
       (Re.Cat (Re.Plus (Re.Class domain_char))
          (Re.Cat (Re.Class (Ascii.eqb "."))
             (Re.AtLeast 2 (Re.Class alpha_char))))).

Definition _validate_email (email0 : string) : bool :=
  Re.match_anchored email_pattern email0.

Definition _validate_form (f : intake_form) : M bool :=
  if negb (forallb PyStr.truthy
             [full_name f; email f; phone_number f; current_location f;
              tech_stack f])
  then mret false
  else match desired_positions f with
       | [] => mret false
       | _ :: _ =>
           if negb (_validate_email (email f))
           then tell (st_error "Please enter a valid email address.");;
                mret false
           else mret true
       end.

(** [[tech.strip() for tech in raw.split(',') if tech.strip()]] *)
Definition parse_tech_stack (raw : string) : list string :=
  flat_map (fun tech => if PyStr.truthy (PyStr.strip tech)
                        then [PyStr.strip tech] else [])
           (PyStr.split "," raw).

Definition _save_candidate_data (data : intake_form) : M unit :=
  modify (set_candidate_data {| basic := Some data; tech_responses := None |});;
  modify (set_tech_stack_list (parse_tech_stack (tech_stack data))).

Definition collect_basic_info (i : pass_input) : M bool :=
  if form_submitted i then
    ok ← _validate_form (form_values i);
    if ok : bool then
      _save_candidate_data (form_values i);;
      mret true
    else
      tell (st_error "Please fill in all required fields correctly.");;
      mret false
  else mret false.

(** *** TechQuestionGenerator *)

(** [st.secrets.get("OPENAI_API_KEY", "")], which raises when there is no
    secrets store. *)
Inductive secrets_store : Type :=
| NoSecrets
| Secrets (lookup : option string).

(** [TechQuestionGenerator.__init__]: the credential the object keeps. *)
Definition resolve_api_key (api_key : option string) (secrets : secrets_store)
    (environ : option string) : string :=
  let k1 := match api_key with Some k => k | None => "" end in
  let k2 := if negb (PyStr.truthy k1)
            then match secrets with
                 | Secrets (Some v) => v
                 | Secrets None => ""
                 | NoSecrets => ""
                 end
            else k1 in
  if negb (PyStr.truthy k2)
  then match environ with Some v => v | None => "" end
  else k2.

(** The credential and the JSON decoder of the standard library. *)
Record environment : Type := {
  api_key : string;
  json_loads : string -> json_result
}.

(** The table of [_get_fallback_questions], in the order it is written. *)
Definition fallback_questions : list (string * list string) :=
  [ ("python",
     [ "What are the key differences between lists and tuples in Python?";
       "How does Python handle memory management?";
       "Explain the concept of decorators in Python.";
       "What are some common use cases for generators?" ]);
    ("javascript",
     [ "Explain the event loop in JavaScript.";
       "What are the differences between let, const, and var?";
       "How does prototypal inheritance work in JavaScript?";
       "What are promises and how do they work?" ]);
    ("react",
     [ "What is the virtual DOM and how does it work?";
       "Explain the component lifecycle methods.";
       "What are hooks and how do they differ from class components?";
       "How would you optimize React application performance?" ]);
    ("node.js",
     [ "How does Node.js handle asynchronous operations?";
       "Explain the event-driven architecture of Node.js.";
       "What are streams and how are they used?";
       "How would you handle memory leaks in Node.js?" ]) ].

(** The loop [for key, questions in table.items(): if key in tech_lower:
    return questions]. *)
Fixpoint first_match (tech_lower : string) (table : list (string * list string))
  : option (list string) :=
  match table with
  | [] => None
  | (key, qs) :: rest =>
      if PyStr.contains key tech_lower then Some qs
      else first_match tech_lower rest
  end.

Definition generic_questions (technology : string) : list string :=
  [ "What experience do you have with " ++ technology ++ "?";
    "Describe a challenging project you built using " ++ technology ++ ".";
    "What are the best practices for working with " ++ technology ++ "?";
    "How would you troubleshoot performance issues in " ++ technology ++ "?" ]%string.

Definition _get_fallback_questions (technology : string) : list string :=
  let tech_lower := PyStr.lower technology in
  match first_match tech_lower fallback_questions with
  | Some qs => qs
  | None => generic_questions technology
  end.

(** [questions[:5]]: defined on lists and strings, an exception otherwise. *)
Definition slice5 (v : pyval) : option question_seq :=
  match v with
  | PList l => Some (QList (firstn 5 l))
  | PStr s => Some (QStr (PyStr.take 5 s))
  | _ => None
  end.

(** [[q.strip() for q in text.split('\n') if q.strip()]] *)
Definition nonblank_lines (text : string) : list string :=
  flat_map (fun q => if PyStr.truthy (PyStr.strip q)
                     then [PyStr.strip q] else [])
           (PyStr.split Re.newline text).

(** The fallback taken in the [except Exception] branch, after the warning. *)
Definition fallback_after (e : py_exception) (technology : string)
  : question_seq * list ui :=
  (QList (map PStr (_get_fallback_questions technology)),
   [st_warning_openai e]).

Definition generate_questions_for_tech (env : environment)
    (reply : remote_result) (technology : string) (experience_level : Z)
  : question_seq * list ui :=
  if negb (PyStr.truthy (api_key env))
  then (QList (map PStr (_get_fallback_questions technology)), [])
  else
    match reply with
    | RemoteRaises e => fallback_after (ServiceError e) technology
    | RemoteContent content =>
        let questions_text := PyStr.strip content in
        match json_loads env questions_text with
        | JsonRaises e => fallback_after (DecodeError e) technology
        | JsonValue v =>
            match slice5 v with
            | Some q => (q, [])
            | None => fallback_after (NotSliceable v) technology
            end
        | JSONDecodeError =>
            (QList (firstn 5 (map PStr (nonblank_lines questions_text))), [])
        end
    end.

(** *** TalentScoutApp *)

Definition please_use_forms : string :=
  "I'm here to help with your hiring process. Please use the forms above to provide information.".

Definition _check_exit_command (i : pass_input) : M bool :=
  match chat_input i with
  | Some user_input =>
      if PyStr.truthy user_input then
        add_to_history "user" user_input (now i);;
        if existsb (fun keyword => PyStr.contains keyword (PyStr.lower user_input))
                   Config.EXIT_KEYWORDS
        then tell (st_info Config.THANK_YOU_MESSAGE);; mret true
        else tell (st_warning please_use_forms);; mret false
      else mret false
  | None => mret false
  end.

Definition _show_greeting (i : pass_input) : M unit :=
  tell (st_markdown Config.GREETING_MESSAGE);;
  if lets_begin i then
    modify (set_current_stage data_collection);;
    tell st_rerun
  else mret tt.

Definition _collect_candidate_data (i : pass_input) : M unit :=
  ok ← collect_basic_info i;
  if ok : bool then
    modify (set_current_stage technical_assessment);;
    add_to_history "system" "Candidate completed basic information form"
                   (now_system i);;
    tell st_rerun
  else mret tt.

(** [candidate_data.get('years_experience', 0)] *)
Definition experience_of (c : candidate_dict) : Z :=
  match basic c with
  | Some f => years_experience f
  | None => 0%Z
  end.

(** [candidate_data.get('tech_responses', {})] *)
Definition responses_of (c : candidate_dict) : list (string * tech_response) :=
  match tech_responses c with
  | Some d => d
  | None => []
  end.

Definition set_tech_responses (d : list (string * tech_response))
    (c : candidate_dict) : candidate_dict :=
  {| basic := basic c; tech_responses := Some d |}.

(** The text areas of the form: one per item of [questions]. *)
Definition read_responses (i : pass_input) (q : question_seq) : list string :=
  map (fun k => nth k (answer_boxes i) "") (seq 0 (q_len q)).

Definition _conduct_technical_assessment (env : environment) (i : pass_input)
  : M unit :=
  s ← get_state;
  let tech_stack0 := tech_stack_list s in
  match tech_stack0 with
  | [] => tell (st_error "No technologies specified for assessment.")
  | _ :: _ =>
      let current_index := current_tech_index s in
      if (length tech_stack0 <=? current_index)%nat then
        modify (set_current_stage completion);;
        tell st_rerun
      else
        let current_tech := nth current_index tech_stack0 "" in
        (* generate questions if not already generated *)
        match tech_questions s !! current_tech with
        | Some _ => mret tt
        | None =>
            let experience := experience_of (candidate_data s) in
            let '(generated, warnings) :=
              generate_questions_for_tech env (completion_reply i)
                                          current_tech experience in
            tell (Generate current_tech experience);;
            tell_all warnings;;
            modify (fun s1 =>
              set_tech_questions (<[current_tech := generated]> (tech_questions s1)) s1)
        end;;
        tell (st_info ("Please answer the following questions about " ++ current_tech));;
        s2 ← get_state;
        (* tech_questions[current_tech]: the key is present by now *)
        let questions0 := match tech_questions s2 !! current_tech with
                          | Some q => q
                          | None => QList []
                          end in
        let responses := read_responses i questions0 in
        tell (st_form current_tech questions0);;
        if answers_submitted i then
          if forallb PyStr.truthy responses then
            modify (fun s3 =>
              set_candidate_data
                (set_tech_responses
                   (dict_set current_tech
                      {| questions := questions0; answers := responses |}
                      (responses_of (candidate_data s3)))
                   (candidate_data s3)) s3);;
            modify (fun s3 => set_current_tech_index (current_tech_index s3 + 1)%nat s3);;
            tell st_rerun
          else tell (st_error "Please answer all questions before submitting.")
        else mret tt
  end.

Definition _show_completion (i : pass_input) : M unit :=
  tell (st_markdown Config.THANK_YOU_MESSAGE);;
  s ← get_state;
  tell (st_json (candidate_data s));;
  if start_new_session i then
    (* every key is deleted; the next pass initialises the session anew *)
    modify (fun _ => initial_state);;
    tell st_rerun
  else mret tt.

(** [TalentScoutApp.run]: one pass of the script. *)
Definition run (env : environment) (i : pass_input) : M unit :=
  leave ← _check_exit_command i;
  if leave : bool then mret tt
  else
    s ← get_state;
    match current_stage s with
    | greeting => _show_greeting i
    | data_collection => _collect_candidate_data i
    | technical_assessment => _conduct_technical_assessment env i
    | completion => _show_completion i
    end.

(** The state and the calls after one pass. *)
Definition pass (env : environment) (i : pass_input) (s : session_state)
  : session_state * list ui :=
  let '(_, s', out) := run env i s in (s', out).

(** A session: passes one after the other, started by user actions or by
    [st.rerun()]. *)
Fixpoint passes (env : environment) (inputs : list pass_input)
    (s : session_state) : session_state * list ui :=
  match inputs with
  | [] => (s, [])
  | i :: rest =>
      let '(s1, o1) := pass env i s in
      let '(s2, o2) := passes env rest s1 in
      (s2, o1 ++ o2)
  end.

(** ** A decoder for the examples

    [json.loads] is library code and enters through [json_loads]. The
    closed examples below need one decoder to run with: this one reads a
    JSON array of string literals that use no escape, as [json.loads]
    does, and reports every other text as [JSONDecodeError]. It is used
    only on texts it reads and on texts that are not JSON. *)

Module SampleJson.

Definition is_ws (c : ascii) : bool :=
  Ascii.eqb c " " || Ascii.eqb c "009" || Ascii.eqb c "010" || Ascii.eqb c "013".

Fixpoint skip_ws (s : string) : string :=
  match s with
  | String c s' => if is_ws c then skip_ws s' else s
  | EmptyString => EmptyString
  end.

(** After an opening quote: the literal and what follows its closing quote. *)
Fixpoint literal (s : string) : option (string * string) :=
  match s with
  | EmptyString => None
  | String c s' =>
      if Ascii.eqb c "034" then Some (EmptyString, s')
      else if Ascii.eqb c "\" || (N_of_ascii c <? 32)%N then None
      else match literal s' with
           | Some (body, rest) => Some (String c body, rest)
           | None => None
           end
  end.

(** The items after the first, up to the closing bracket. *)
Fixpoint more_items (fuel : nat) (s : string) : option (list string * string) :=
  match fuel with
  | O => None
  | S fuel' =>
      match skip_ws s with
      | String "]" rest => Some ([], rest)
      | String "," rest =>
          match skip_ws rest with
          | String "034" body =>
              match literal body with
              | Some (item, rest') =>
                  match more_items fuel' rest' with
                  | Some (items, rest'') => Some (item :: items, rest'')
                  | None => None
                  end
              | None => None
              end
          | _ => None
          end
      | _ => None
      end
  end.

Definition array (s : string) : option (list string * string) :=
  match skip_ws s with
  | String "[" rest =>
      match skip_ws rest with
      | String "]" rest' => Some ([], rest')
      | String "034" body =>
          match literal body with
          | Some (item, rest') =>
              match more_items (String.length rest') rest' with
              | Some (items, rest'') => Some (item :: items, rest'')
              | None => None
              end
          | None => None
          end
      | _ => None
      end
  | _ => None
  end.

Definition loads (s : string) : json_result :=
  match array s with
  | Some (items, rest) =>
      match skip_ws rest with
      | EmptyString => JsonValue (PList (map PStr items))
      | String _ _ => JSONDecodeError
      end
  | None => JSONDecodeError
  end.

End SampleJson.

(** A deployment with a credential, and one without. *)
Definition with_key : environment :=
  {| api_key := "sk-test"; json_loads := SampleJson.loads |}.

Definition without_key : environment :=
  {| api_key := resolve_api_key None NoSecrets None;
     json_loads := SampleJson.loads |}.

(** A pass in which the user does nothing (as after [st.rerun()]). *)
Definition idle (t : nat) : pass_input :=
  {| chat_input := None; now := t; now_system := t; lets_begin := false;
     form_values := {| full_name := ""; email := ""; phone_number := "";
                       years_experience := 0; desired_positions := [];
                       current_location := ""; tech_stack := "" |};
     form_submitted := false; answer_boxes := []; answers_submitted := false;
     start_new_session := false; completion_reply := RemoteRaises "" |}.

(** ** Vocabulary of the properties *)

(** [needle in hay]: the needle stands somewhere inside the text. *)
Definition is_substring (needle hay : string) : Prop :=
  exists before after, hay = (before ++ needle ++ after)%string.

(** The text holds no separator. *)
Definition sep_free (sep : ascii) (s : string) : Prop :=
  PyStr.forallb (fun c => negb (Ascii.eqb c sep)) s = true.

Definition all_space (s : string) : Prop :=
  PyStr.forallb PyStr.isspace s = true.

(** Neither the first nor the last character is white space. *)
Definition trimmed (t : string) : Prop :=
  (forall c r, t = String c r -> PyStr.isspace c = false) /\
  (forall r c, t = (r ++ String c "")%string -> PyStr.isspace c = false).

(** [t] is [s] without the white space at its two ends. *)
Definition is_trim_of (s t : string) : Prop :=
  exists a b, s = (a ++ t ++ b)%string /\ all_space a /\ all_space b /\ trimmed t.

(** The shape of an accepted address: [local@domain.tld], where the local
    part is one or more of [A-Za-z0-9._%+-], the domain one or more of
    [A-Za-z0-9.-], and the last label two or more letters; one newline may
    follow, as [$] allows. *)
Definition email_shape (e : string) : Prop :=
  exists loc dom tld,
    (e = (loc ++ "@" ++ dom ++ "." ++ tld)%string \/
     e = (loc ++ "@" ++ dom ++ "." ++ tld ++ String Re.newline "")%string) /\
    loc <> "" /\ PyStr.forallb local_char loc = true /\
    dom <> "" /\ PyStr.forallb domain_char dom = true /\
    2 <= String.length tld /\ PyStr.forallb alpha_char tld = true.

(** Empty, or white space only. *)
Definition blank (s : string) : Prop := all_space s.

(** The message the pass acts on: [if user_input:] lets only a non-empty
    one through. *)
Definition said (i : pass_input) : option string :=
  match chat_input i with
  | Some m => if PyStr.truthy m then Some m else None
  | None => None
  end.

(** The message asks to leave. *)
Definition exit_requested (i : pass_input) : bool :=
  match said i with
  | Some m =>
      existsb (fun keyword => PyStr.contains keyword (PyStr.lower m))
              Config.EXIT_KEYWORDS
  | None => false
  end.

(** The session once the message, if any, is in the history. *)
Definition recorded (i : pass_input) (s : session_state) : session_state :=
  match said i with
  | Some m =>
      set_conversation_history
        (conversation_history s
         ++ [ {| role := "user"; message := m; timestamp := now i |} ]) s
  | None => s
  end.

(** What the chat box answers. *)
Definition chat_output (i : pass_input) : list ui :=
  match said i with
  | Some m =>
      if exit_requested i then [st_info Config.THANK_YOU_MESSAGE]
      else [st_warning please_use_forms]
  | None => []
  end.

(** The handler of a stage. *)
Definition handler (env : environment) (i : pass_input) (g : stage) : M unit :=
  match g with
  | greeting => _show_greeting i
  | data_collection => _collect_candidate_data i
  | technical_assessment => _conduct_technical_assessment env i
  | completion => _show_completion i
  end.

(** The technology under the cursor. *)
Definition current_tech (s : session_state) : string :=
  nth (current_tech_index s) (tech_stack_list s) "".

(** The questions the assessment form shows in this pass: the stored ones,
    or else the ones generated now. *)
Definition shown_questions (env : environment) (i : pass_input)
    (s : session_state) : question_seq :=
  match tech_questions s !! current_tech s with
  | Some q => q
  | None =>
      fst (generate_questions_for_tech env (completion_reply i)
             (current_tech s) (experience_of (candidate_data s)))
  end.

(** The assessment form of the current technology is submitted in this pass. *)
Definition form_submission (i : pass_input) (s : session_state) : Prop :=
  current_stage s = technical_assessment /\
  exit_requested i = false /\
  current_tech_index s < length (tech_stack_list s) /\
  answers_submitted i = true.

(** ... and every answer is filled in. *)
Definition successful_submission (env : environment) (i : pass_input)
    (s : session_state) : bool :=
  match current_stage s with
  | technical_assessment =>
      negb (exit_requested i)
      && (current_tech_index s <? length (tech_stack_list s))%nat
      && answers_submitted i
      && forallb PyStr.truthy (read_responses i (shown_questions env i s))
  | _ => false
  end.

(** How many passes of a session were successful submissions. *)
Fixpoint successes (env : environment) (inputs : list pass_input)
    (s : session_state) : nat :=
  match inputs with
  | [] => 0
  | i :: rest =>
      (if successful_submission env i s then 1 else 0)
      + successes env rest (fst (pass env i s))
  end.

(** The passes stay within one session: "Start New Session" is not pressed. *)
Definition one_session (inputs : list pass_input) : Prop :=
  Forall (fun i => start_new_session i = false) inputs.

(** How often questions were generated for a technology. *)
Fixpoint generations (technology : string) (out : list ui) : nat :=
  match out with
  | [] => 0
  | Generate t _ :: rest =>
      (if String.eqb t technology then 1 else 0) + generations technology rest
  | _ :: rest => generations technology rest
  end.

(** A step of the remote path ends in the [except Exception] branch. *)
Definition remote_step_fails (env : environment) (reply : remote_result) : Prop :=
  match reply with
  | RemoteRaises _ => True
  | RemoteContent content =>
      match json_loads env (PyStr.strip content) with
      | JsonRaises _ => True
      | JsonValue v => slice5 v = None
      | JSONDecodeError => False
      end
  end.

(** A key of the table is the first one found in the lowered name. *)
Definition first_matching_key (key : string) (qs : list string)
    (technology : string) : Prop :=
  exists before after,
    fallback_questions = before ++ (key, qs) :: after /\
    is_substring key (PyStr.lower technology) /\
    Forall (fun entry => ~ is_substring (fst entry) (PyStr.lower technology)) before.

Definition no_matching_key (technology : string) : Prop :=
  Forall (fun entry => ~ is_substring (fst entry) (PyStr.lower technology))
         fallback_questions.

(** The verdict of [_validate_form]; the session plays no part in it. *)
Definition form_ok (f : intake_form) : bool :=
  fst (fst (_validate_form f initial_state)).

(** The session once the questions shown are stored. *)
Definition with_questions (env : environment) (i : pass_input)
    (s : session_state) : session_state :=
  match tech_questions s !! current_tech s with
  | Some _ => s
  | None =>
      set_tech_questions
        (<[current_tech s := shown_questions env i s]> (tech_questions s)) s
  end.

(** What generating them prints, if they are generated in this pass. *)
Definition generation_output (env : environment) (i : pass_input)
    (s : session_state) : list ui :=
  match tech_questions s !! current_tech s with
  | Some _ => []
  | None =>
      Generate (current_tech s) (experience_of (candidate_data s))
      :: snd (generate_questions_for_tech env (completion_reply i)
                (current_tech s) (experience_of (candidate_data s)))
  end.

(** The head of the assessment form. *)
Definition form_output (env : environment) (i : pass_input)
    (s : session_state) : list ui :=
  generation_output env i s
  ++ [ st_info ("Please answer the following questions about " ++ current_tech s);
       st_form (current_tech s) (shown_questions env i s) ].

(** The entry written for the current technology. *)
Definition response_entry (env : environment) (i : pass_input)
    (s : session_state) : tech_response :=
  {| questions := shown_questions env i s;
     answers := read_responses i (shown_questions env i s) |}.

(** The session once the answers are stored and the cursor has moved. *)
Definition record_answers (env : environment) (i : pass_input)
    (s : session_state) : session_state :=
  let s1 := with_questions env i s in
  set_current_tech_index (current_tech_index s + 1)
    (set_candidate_data
       (set_tech_responses
          (dict_set (current_tech s) (response_entry env i s)
                    (responses_of (candidate_data s)))
          (candidate_data s)) s1).

(** What [_validate_form] prints. *)
Definition validation_errors (f : intake_form) : list ui :=
  snd (_validate_form f initial_state).

(** The session once [_save_candidate_data] has run. *)
Definition saved (f : intake_form) (s : session_state) : session_state :=
  set_tech_stack_list (parse_tech_stack (tech_stack f))
    (set_candidate_data {| basic := Some f; tech_responses := None |} s).

(** The session once a valid form has opened the assessment. *)
Definition assessment_opened (i : pass_input) (s : session_state)
  : session_state :=
  let s1 := set_current_stage technical_assessment (saved (form_values i) s) in
  set_conversation_history
    (conversation_history s1
     ++ [ {| role := "system";
             message := "Candidate completed basic information form";
             timestamp := now_system i |} ]) s1.

(** A form whose text fields hold one space each. *)
Definition whitespace_form : intake_form :=
  {| full_name := " "; email := "a@b.co"; phone_number := " ";
     years_experience := 0; desired_positions := ["QA Engineer"];
     current_location := " "; tech_stack := " " |}.

(** The comma-separated input split, each segment trimmed, the empty ones
    removed, in order. *)
Definition is_tech_stack_of (raw : string) (result : list string) : Prop :=
  exists segments trimmed_segments,
    segments <> [] /\
    PyStr.join "," segments = raw /\
    Forall (sep_free ",") segments /\
    Forall2 is_trim_of segments trimmed_segments /\
    result = List.filter (fun t => negb (String.eqb t "")) trimmed_segments.

(** The history entry of a user message. *)
Definition user_entry (m : string) (t : nat) : history_entry :=
  {| role := "user"; message := m; timestamp := t |}.

(** The message, in lower case, holds "exit", "quit", "bye", "goodbye" or
    "stop". *)
Definition has_exit_keyword (m : string) : Prop :=
  is_substring "exit" (PyStr.lower m) \/
  is_substring "quit" (PyStr.lower m) \/
  is_substring "bye" (PyStr.lower m) \/
  is_substring "goodbye" (PyStr.lower m) \/
  is_substring "stop" (PyStr.lower m).

(** *** Sample sessions *)

Definition sample_form : intake_form :=
  {| full_name := "Ada Lovelace"; email := "a@b.co"; phone_number := "555 0100";
     years_experience := 2; desired_positions := ["Software Engineer"];
     current_location := "London"; tech_stack := "Python, JavaScript,  , React" |}.

(** The user sends a chat message. *)
Definition say (m : string) (t : nat) : pass_input :=
  {| chat_input := Some m; now := t; now_system := t; lets_begin := false;
     form_values := form_values (idle t); form_submitted := false;
     answer_boxes := []; answers_submitted := false;
     start_new_session := false; completion_reply := RemoteRaises "" |}.

(** The user presses "Let's Begin!". *)
Definition begin (t : nat) : pass_input :=
  {| chat_input := None; now := t; now_system := t; lets_begin := true;
     form_values := form_values (idle t); form_submitted := false;
     answer_boxes := []; answers_submitted := false;
     start_new_session := false; completion_reply := RemoteRaises "" |}.

(** The user submits the intake form. *)
Definition submit_form (f : intake_form) (t : nat) : pass_input :=
  {| chat_input := None; now := t; now_system := t; lets_begin := false;
     form_values := f; form_submitted := true;
     answer_boxes := []; answers_submitted := false;
     start_new_session := false; completion_reply := RemoteRaises "" |}.

(** The user submits the answers of the assessment form; the service
    would answer [reply]. *)
Definition submit_answers (boxes : list string) (reply : remote_result)
    (t : nat) : pass_input :=
  {| chat_input := None; now := t; now_system := t; lets_begin := false;
     form_values := form_values (idle t); form_submitted := false;
     answer_boxes := boxes; answers_submitted := true;
     start_new_session := false; completion_reply := reply |}.

(** A session that waits for the intake form. *)
Definition at_data_collection : session_state :=
  set_current_stage data_collection initial_state.

(** A session in the assessment of the given stack, nothing answered yet. *)
Definition at_assessment (stack : list string) : session_state :=
  set_tech_stack_list stack
    (set_candidate_data {| basic := Some sample_form; tech_responses := None |}
       (set_current_stage technical_assessment initial_state)).

(** The assessment of [stack] is under way or just over. *)
Definition assessing (stack : list string) (s : session_state) : Prop :=
  tech_stack_list s = stack /\
  current_tech_index s <= length stack /\
  (current_stage s = technical_assessment \/
   (current_stage s = completion /\ current_tech_index s = length stack)).

Definition four_answers : list string := ["one"; "two"; "three"; "four"].

(** The assessment of three technologies, with one rejected submission
    on the way. *)
Definition three_tech_session : list pass_input :=
  [ idle 1;
    submit_answers four_answers (RemoteRaises "") 2;
    idle 3;
    submit_answers ["one"; ""; "three"; "four"] (RemoteRaises "") 4;
    submit_answers four_answers (RemoteRaises "") 5;
    idle 6;
    submit_answers four_answers (RemoteRaises "") 7;
    idle 8 ].

(** A pass without user action in which the service would answer [reply]. *)
Definition wait (reply : remote_result) (t : nat) : pass_input :=
  {| chat_input := None; now := t; now_system := t; lets_begin := false;
     form_values := form_values (idle t); form_submitted := false;
     answer_boxes := []; answers_submitted := false;
     start_new_session := false; completion_reply := reply |}.

(** The assessment of Python after the service replied with an empty array. *)
Definition empty_form_shown : session_state :=
  fst (pass with_key (wait (RemoteContent "[]") 1) (at_assessment ["Python"])).

(** Calls that neither generate questions nor show a form. *)
Definition quiet (out : list ui) : Prop :=
  Forall (fun u => match u with
                   | Generate _ _ | st_form _ _ => False
                   | _ => True
                   end) out.

(** Questions for the technology are stored now and were not before. *)
Definition newly_stored (technology : string)
    (before after : gmap string question_seq) : bool :=
  match before !! technology, after !! technology with
  | None, Some _ => true
  | _, _ => false
  end.

(** The four fixed JavaScript questions. *)
Definition javascript_questions : list string :=
  [ "Explain the event loop in JavaScript.";
    "What are the differences between let, const, and var?";
    "How does prototypal inheritance work in JavaScript?";
    "What are promises and how do they work?" ].

(** A candidate who declares Python only. *)
Definition python_form : intake_form :=
  {| full_name := "Ada Lovelace"; email := "a@b.co"; phone_number := "555 0100";
     years_experience := 2; desired_positions := ["Software Engineer"];
     current_location := "London"; tech_stack := "Python" |}.

(** The whole flow for that candidate, no credential configured. *)
Definition python_session : list pass_input :=
  [ begin 1; idle 2; submit_form python_form 3; idle 4;
    submit_answers four_answers (RemoteRaises "") 5; idle 6; idle 7 ].



(** ** Further vocabulary *)

(** The place of a stage in the flow. *)
Definition stage_rank (g : stage) : nat :=
  match g with
  | greeting => 0
  | data_collection => 1
  | technical_assessment => 2
  | completion => 3
  end.

(** A pass in which the user does nothing: no message, no button, no form. *)
Definition no_action (i : pass_input) : Prop :=
  chat_input i = None /\ lets_begin i = false /\ form_submitted i = false /\
  answers_submitted i = false /\ start_new_session i = false.

(** The pass asked for another run of the script. *)
Definition reruns (out : list ui) : Prop := In st_rerun out.

(** Nothing is stored yet. *)
Definition pristine (s : session_state) : Prop :=
  candidate_data s = empty_candidate /\ tech_questions s = ∅ /\
  current_tech_index s = 0 /\ tech_stack_list s = [].

(** One answer per question, none of them empty. *)
Definition complete_entry (r : tech_response) : Prop :=
  length (answers r) = q_len (questions r) /\
  Forall (fun a => a <> "") (answers r).

(** The profile on record passed validation and the stack was derived
    from it. *)
Definition validated_profile (s : session_state) : Prop :=
  exists f, basic (candidate_data s) = Some f /\ form_ok f = true /\
            tech_stack_list s = parse_tech_stack (tech_stack f).

(** Stored questions belong to a declared technology and are five at most. *)
Definition stored_ok (s : session_state) : Prop :=
  forall t q, tech_questions s !! t = Some q ->
              In t (tech_stack_list s) /\ q_len q <= 5.

(** An entry on record is complete, is for a technology before the cursor,
    and holds the questions stored for it. *)
Definition recorded_ok (s : session_state) : Prop :=
  forall t r, dict_get t (responses_of (candidate_data s)) = Some r ->
              In t (firstn (current_tech_index s) (tech_stack_list s)) /\
              tech_questions s !! t = Some (questions r) /\
              complete_entry r.

(** Every technology before the cursor has an entry. *)
Definition answered_before_cursor (s : session_state) : Prop :=
  forall t, In t (firstn (current_tech_index s) (tech_stack_list s)) ->
            exists r, dict_get t (responses_of (candidate_data s)) = Some r.

Definition assessment_ok (s : session_state) : Prop :=
  validated_profile s /\
  current_tech_index s <= length (tech_stack_list s) /\
  stored_ok s /\ recorded_ok s /\ answered_before_cursor s.

(** What holds of a session at every moment. *)
Definition well_formed (s : session_state) : Prop :=
  match current_stage s with
  | greeting | data_collection => pristine s
  | technical_assessment => assessment_ok s
  | completion =>
      assessment_ok s /\
      current_tech_index s = length (tech_stack_list s) /\
      tech_stack_list s <> []
  end.





(** The entries the program writes. *)
Definition entry_ok (e : history_entry) : Prop :=
  (role e = "user" /\ message e <> "") \/
  (role e = "system" /\ message e = "Candidate completed basic information form").

(** What the history gains in a pass that does not reset the session. *)
Definition added_entries (i : pass_input) (s : session_state)
  : list history_entry :=
  match said i with
  | Some m => [user_entry m (now i)]
  | None => []
  end
  ++ (if negb (exit_requested i)
         && match current_stage s with data_collection => true | _ => false end
         && form_submitted i && form_ok (form_values i)
      then [ {| role := "system";
                message := "Candidate completed basic information form";
                timestamp := now_system i |} ]
      else []).

(** [sep.join] of all the lines, as text. *)
Fixpoint concat_lines (l : list string) : string :=
  match l with
  | [] => ""
  | x :: rest => (x ++ concat_lines rest)%string
  end.

(** The line of an entry whose role is "user" or "system". *)
Definition plain_line (e : history_entry) : string :=
  ((if String.eqb (role e) "user" then "USER" else "SYSTEM")
   ++ ": " ++ message e ++ String Re.newline "")%string.

(** How often a character occurs in a text. *)
Fixpoint count_char (c : ascii) (s : string) : nat :=
  match s with
  | EmptyString => 0
  | String d s' => (if Ascii.eqb d c then 1 else 0) + count_char c s'
  end.

(** No character of the text is white space. *)
Definition no_space (s : string) : Prop :=
  PyStr.forallb (fun c => negb (PyStr.isspace c)) s = true.

(** The first five of the non-blank lines of a text, in order, each
    without the white space at its ends: the text is cut at its newlines,
    every piece is trimmed, the empty ones are dropped and five at most
    are kept. *)
Definition first_lines_of (text : string) (result : list string) : Prop :=
  exists lines trimmed_lines,
    lines <> [] /\
    PyStr.join (String Re.newline "") lines = text /\
    Forall (sep_free Re.newline) lines /\
    Forall2 is_trim_of lines trimmed_lines /\
    result = firstn 5 (List.filter (fun t => negb (String.eqb t ""))
                                   trimmed_lines).

(** The pieces of a text with [p] put before the first of them. *)
Definition prefix_first (p : string) (pieces : list string) : list string :=
  match pieces with
  | [] => []
  | piece :: rest => (p ++ piece)%string :: rest
  end.

(** A reply of three lines, the second of them blank. *)
Definition two_questions_reply : string :=
  ("  What is Go?  " ++ String Re.newline (String Re.newline " Why Go? "))%string.

(** An item as the tech stack holds it. *)
Definition clean_item (sep : ascii) (t : string) : Prop :=
  t <> "" /\ trimmed t /\ sep_free sep t.

(** The four fixed Python questions. *)
Definition python_questions : list string :=
  [ "What are the key differences between lists and tuples in Python?";
    "How does Python handle memory management?";
    "Explain the concept of decorators in Python.";
    "What are some common use cases for generators?" ].

(** How often the question source was called. *)
Fixpoint generate_calls (out : list ui) : nat :=
  match out with
  | [] => 0
  | Generate _ _ :: rest => 1 + generate_calls rest
  | _ :: rest => generate_calls rest
  end.

(** The pass shows the form of a technology that has no questions yet. *)
Definition needs_questions (i : pass_input) (s : session_state) : Prop :=
  exit_requested i = false /\
  current_stage s = technical_assessment /\
  current_tech_index s < length (tech_stack_list s) /\
  tech_questions s !! current_tech s = None.


(** * Properties *)

(** ** Strings *)

(* stdpp keeps [String.append] folded; here it computes on a constructor. *)
#[local] Arguments String.append !_ _ / : simpl nomatch.

Section StringFacts.

Implicit Types (s t p : string) (c : ascii).

Lemma append_empty_r s : (s ++ "")%string = s.
Proof. induction s as [|c s IH]; simpl; [reflexivity | now rewrite IH]. Qed.

Lemma append_assoc s t p : ((s ++ t) ++ p)%string = (s ++ (t ++ p))%string.
Proof. induction s as [|c s IH]; simpl; [reflexivity | now rewrite IH]. Qed.

Lemma append_length s t :
  String.length (s ++ t) = (String.length s + String.length t)%nat.
Proof. induction s as [|c s IH]; simpl; [reflexivity | now rewrite IH]. Qed.

Lemma append_eq_empty s t : (s ++ t)%string = "" -> s = "" /\ t = "".
Proof. destruct s; simpl; [auto | discriminate]. Qed.

Lemma truthy_true s : PyStr.truthy s = true <-> s <> "".
Proof. destruct s; simpl; split; congruence. Qed.

Lemma truthy_false s : PyStr.truthy s = false <-> s = "".
Proof. destruct s; simpl; split; congruence. Qed.

Lemma forallb_append f s t :
  PyStr.forallb f (s ++ t) = PyStr.forallb f s && PyStr.forallb f t.
Proof.
  induction s as [|c s IH]; simpl; [reflexivity |].
  now rewrite IH, andb_assoc.
Qed.

Lemma lower_append s t :
  PyStr.lower (s ++ t) = (PyStr.lower s ++ PyStr.lower t)%string.
Proof. induction s as [|c s IH]; simpl; [reflexivity | now rewrite IH]. Qed.

Lemma lower_length s : String.length (PyStr.lower s) = String.length s.
Proof. induction s as [|c s IH]; simpl; [reflexivity | now rewrite IH]. Qed.

(** [startswith] is "has this prefix". *)
Lemma startswith_spec p s :
  PyStr.startswith p s = true <-> exists r, s = (p ++ r)%string.
Proof.
  revert s; induction p as [|a p IH]; intros s; simpl.
  - split; [intros _; now exists s | reflexivity].
  - destruct s as [|b s].
    + split; [discriminate | intros [r Hr]; discriminate].
    + rewrite andb_true_iff, Ascii.eqb_eq, IH. split.
      * intros [-> [r ->]]. now exists r.
      * intros [r Hr]. injection Hr as -> ->. split; [reflexivity | now exists r].
Qed.

Lemma contains_spec needle hay :
  PyStr.contains needle hay = true <-> is_substring needle hay.
Proof.
  unfold is_substring. induction hay as [|c hay IH].
  - simpl. rewrite orb_false_r, startswith_spec. split.
    + intros [r Hr]. now exists "", r.
    + intros [[|b before] [after H]]; simpl in H.
      * now exists after.
      * discriminate.
  - cbn [PyStr.contains]. rewrite orb_true_iff, startswith_spec, IH. split.
    + intros [[r Hr] | [before [after H]]].
      * now exists "", r.
      * exists (String c before), after. simpl. now rewrite H.
    + intros [[|b before] [after H]]; simpl in H.
      * left. now exists after.
      * right. injection H as -> ->. now exists before, after.
Qed.

Lemma is_substring_middle (a t b : string) : is_substring t (a ++ t ++ b).
Proof. now exists a, b. Qed.

(** *** [split] and [join] *)

Lemma split_nonempty sep s : PyStr.split sep s <> [].
Proof.
  destruct s as [|c s]; simpl; [discriminate |].
  destruct (Ascii.eqb c sep); [discriminate |].
  destruct (PyStr.split sep s); discriminate.
Qed.

Lemma join_cons sep x (l : list string) :
  l <> [] ->
  PyStr.join sep (x :: l) = (x ++ sep ++ PyStr.join sep l)%string.
Proof. destruct l; [congruence | reflexivity]. Qed.

(** Putting the separator back between the pieces gives the text. *)
Lemma join_split sep s :
  PyStr.join (String sep "") (PyStr.split sep s) = s.
Proof.
  induction s as [|c s IH]; [reflexivity |].
  simpl PyStr.split. destruct (Ascii.eqb_spec c sep) as [->|Hne].
  - rewrite join_cons by apply split_nonempty. simpl. now rewrite IH.
  - pose proof (split_nonempty sep s) as Hs.
    destruct (PyStr.split sep s) as [|seg segs]; [congruence |].
    destruct segs as [|seg' segs].
    + simpl in *. now rewrite IH.
    + change (PyStr.join (String sep "") (String c seg :: seg' :: segs))
        with (String c (seg ++ String sep "" ++ PyStr.join (String sep "") (seg' :: segs)))%string.
      f_equal. exact IH.
Qed.

(** No piece holds the separator. *)
Lemma split_sep_free sep s : Forall (sep_free sep) (PyStr.split sep s).
Proof.
  induction s as [|c s IH]; simpl.
  - constructor; [reflexivity | constructor].
  - destruct (Ascii.eqb c sep) eqn:E.
    + constructor; [reflexivity | exact IH].
    + destruct (PyStr.split sep s) as [|seg segs]; inversion IH; subst.
      * constructor; [| constructor]. unfold sep_free. simpl. now rewrite E.
      * constructor; [| assumption]. unfold sep_free in *. simpl. now rewrite E.
Qed.

(** [split] is the only way to cut a text into separator-free pieces. *)
Lemma split_unique sep (l : list string) :
  l <> [] -> Forall (sep_free sep) l ->
  PyStr.split sep (PyStr.join (String sep "") l) = l.
Proof.
  induction l as [|x l IH]; [congruence |]. intros _ Hall.
  inversion Hall as [|? ? Hx Hl]; subst.
  destruct l as [|y l].
  - simpl. clear IH Hall Hl. induction x as [|c x IHx]; [reflexivity |].
    unfold sep_free in Hx. simpl in Hx. apply andb_true_iff in Hx as [Hc Hx].
    simpl. apply negb_true_iff in Hc. rewrite Hc, (IHx Hx). reflexivity.
  - rewrite join_cons by discriminate.
    specialize (IH ltac:(discriminate) Hl).
    clear Hall Hl. induction x as [|c x IHx].
    + change (PyStr.split sep (String sep (PyStr.join (String sep "") (y :: l)))
              = "" :: y :: l).
      cbn [PyStr.split]. rewrite Ascii.eqb_refl. now rewrite IH.
    + unfold sep_free in Hx. simpl in Hx. apply andb_true_iff in Hx as [Hc Hx].
      apply negb_true_iff in Hc.
      change (PyStr.split sep
                (String c (x ++ String sep "" ++ PyStr.join (String sep "") (y :: l)))
              = String c x :: y :: l).
      cbn [PyStr.split]. rewrite Hc, (IHx Hx). reflexivity.
Qed.

End StringFacts.

(** *** [strip] *)

Section StripFacts.

Implicit Types (s t a b : string) (c : ascii).

Lemma lstrip_spec s :
  exists a, s = (a ++ PyStr.lstrip s)%string /\ all_space a /\
            forall c r, PyStr.lstrip s = String c r -> PyStr.isspace c = false.
Proof.
  induction s as [|c s (a & Hs & Ha & Hfirst)].
  - exists "". repeat split. intros c r H. discriminate.
  - simpl. destruct (PyStr.isspace c) eqn:E.
    + exists (String c a). repeat split.
      * simpl. now rewrite <- Hs.
      * unfold all_space in *. simpl. now rewrite E, Ha.
      * exact Hfirst.
    + exists "". repeat split. intros c' r H. now injection H as <- _.
Qed.

Lemma rstrip_spec s :
  exists b, s = (PyStr.rstrip s ++ b)%string /\ all_space b /\
            forall r c, PyStr.rstrip s = (r ++ String c "")%string ->
                        PyStr.isspace c = false.
Proof.
  induction s as [|c s (b & Hs & Hb & Hlast)].
  - exists "". repeat split. intros [|x r] c H; discriminate.
  - simpl. destruct (PyStr.rstrip s) as [|d u] eqn:R.
    + destruct (PyStr.isspace c) eqn:E.
      * exists (String c b). repeat split.
        -- simpl in *. now rewrite <- Hs.
        -- unfold all_space in *. simpl. now rewrite E, Hb.
        -- intros [|x r] c' H; discriminate.
      * exists b. repeat split.
        -- simpl in *. now rewrite <- Hs.
        -- exact Hb.
        -- intros [|x r] c' H; simpl in H.
           ++ now injection H as <-.
           ++ injection H as _ H. destruct r; discriminate.
    + exists b. repeat split.
      * simpl in *. now rewrite <- Hs.
      * exact Hb.
      * intros [|x r] c' H; simpl in H.
        -- discriminate.
        -- injection H as _ H. exact (Hlast r c' H).
Qed.

Lemma rstrip_keeps_first s c r :
  PyStr.rstrip s = String c r -> exists r', s = String c r'.
Proof.
  destruct s as [|d s]; simpl; [discriminate |].
  destruct (PyStr.rstrip s).
  - destruct (PyStr.isspace d); [discriminate |].
    intros H. injection H as -> _. now exists s.
  - intros H. injection H as -> _. now exists s.
Qed.

(** [strip] cuts white space, and only white space, from both ends. *)
Lemma strip_is_trim s : is_trim_of s (PyStr.strip s).
Proof.
  unfold PyStr.strip.
  destruct (lstrip_spec s) as (a & Hs & Ha & Hfirst).
  destruct (rstrip_spec (PyStr.lstrip s)) as (b & Hu & Hb & Hlast).
  exists a, b. repeat split; try assumption.
  - now rewrite <- Hu.
  - intros c r H. destruct (rstrip_keeps_first _ _ _ H) as [r' Hr'].
    exact (Hfirst c r' Hr').
Qed.

Lemma lstrip_unique a t :
  all_space a -> (forall c r, t = String c r -> PyStr.isspace c = false) ->
  PyStr.lstrip (a ++ t) = t.
Proof.
  intros Ha Hfirst. induction a as [|c a IH].
  - simpl. destruct t as [|c r]; [reflexivity |].
    simpl. now rewrite (Hfirst c r eq_refl).
  - unfold all_space in Ha. simpl in Ha. apply andb_true_iff in Ha as [Hc Ha].
    simpl. rewrite Hc. now apply IH.
Qed.

Lemma rstrip_all_space b : all_space b -> PyStr.rstrip b = "".
Proof.
  induction b as [|c b IH]; [reflexivity |]. unfold all_space. simpl.
  intros H. apply andb_true_iff in H as [Hc Hb]. now rewrite (IH Hb), Hc.
Qed.

Lemma rstrip_unique t b :
  all_space b ->
  (forall r c, t = (r ++ String c "")%string -> PyStr.isspace c = false) ->
  PyStr.rstrip (t ++ b) = t.
Proof.
  intros Hb. induction t as [|c t IH]; intros Hlast.
  - simpl. now apply rstrip_all_space.
  - simpl. rewrite IH.
    + destruct t as [|d t]; [| reflexivity].
      now rewrite (Hlast "" c eq_refl).
    + intros r c' ->. exact (Hlast (String c r) c' eq_refl).
Qed.

Lemma lstrip_all_space a : all_space a -> PyStr.lstrip a = "".
Proof.
  induction a as [|c a IH]; [reflexivity |]. unfold all_space. simpl.
  intros H. apply andb_true_iff in H as [Hc Ha]. rewrite Hc. now apply IH.
Qed.

(** ... and it is the only text that does so. *)
Lemma trim_unique s t : is_trim_of s t -> t = PyStr.strip s.
Proof.
  intros (a & b & -> & Ha & Hb & Hfirst & Hlast). unfold PyStr.strip.
  destruct t as [|d t].
  - simpl. rewrite lstrip_all_space; [reflexivity |].
    unfold all_space in *. now rewrite forallb_append, Ha, Hb.
  - rewrite lstrip_unique; [now rewrite rstrip_unique | assumption |].
    intros c r H. simpl in H. injection H as <- _. exact (Hfirst d t eq_refl).
Qed.

End StripFacts.

(** ** The regular-expression matcher computes the language *)

Section RegexFacts.

Import Re.

Implicit Types (r : regex) (s : string) (c : ascii).

Lemma matches_cat_inv r1 r2 s :
  matches (Cat r1 r2) s <->
  exists s1 s2, s = (s1 ++ s2)%string /\ matches r1 s1 /\ matches r2 s2.
Proof.
  split.
  - intros H. inversion H; subst. eauto.
  - intros (s1 & s2 & -> & H1 & H2). now constructor.
Qed.

Lemma matches_alt_inv r1 r2 s :
  matches (Alt r1 r2) s <-> matches r1 s \/ matches r2 s.
Proof.
  split.
  - intros H. inversion H; subst; auto.
  - intros [H | H]; [now apply m_alt_l | now apply m_alt_r].
Qed.

Lemma matches_class_inv p s :
  matches (Class p) s <-> exists c, s = String c "" /\ p c = true.
Proof.
  split.
  - intros H. inversion H; subst. eauto.
  - intros (c & -> & H). now constructor.
Qed.

Lemma matches_eps_inv s : matches Eps s <-> s = "".
Proof.
  split.
  - intros H. now inversion H.
  - intros ->. constructor.
Qed.

Lemma nullable_spec r : nullable r = true <-> matches r "".
Proof.
  induction r as [| | p | r1 IH1 r2 IH2 | r1 IH1 r2 IH2 | r IH]; simpl.
  - split; [discriminate | intros H; inversion H].
  - split; [constructor | reflexivity].
  - split; [discriminate | intros H; inversion H].
  - rewrite andb_true_iff, IH1, IH2, matches_cat_inv. split.
    + intros [H1 H2]. now exists "", "".
    + intros (s1 & s2 & E & H1 & H2). symmetry in E.
      apply append_eq_empty in E as [-> ->]. now split.
  - now rewrite orb_true_iff, IH1, IH2, matches_alt_inv.
  - split; [constructor | reflexivity].
Qed.

(** A non-empty match of [r*] starts with a non-empty match of [r]. *)
Lemma star_cons_inv r c s :
  matches (Star r) (String c s) ->
  exists s1 s2, s = (s1 ++ s2)%string /\ matches r (String c s1) /\
                matches (Star r) s2.
Proof.
  intros H. remember (Star r) as r' eqn:Er. remember (String c s) as w eqn:Ew.
  induction H as [| | | | | |r0 s1 s2 H1 _ H2 IH2]; try discriminate.
  injection Er as ->. destruct s1 as [|d s1].
  - simpl in Ew. now apply IH2.
  - simpl in Ew. injection Ew as -> <-. now exists s1, s2.
Qed.

Lemma deriv_spec c r s : matches (deriv c r) s <-> matches r (String c s).
Proof.
  revert s.
  induction r as [| | p | r1 IH1 r2 IH2 | r1 IH1 r2 IH2 | r IH]; intros s; simpl.
  - split; intros H; inversion H.
  - split; intros H; inversion H.
  - rewrite matches_class_inv. destruct (p c) eqn:E.
    + rewrite matches_eps_inv. split.
      * intros ->. now exists c.
      * intros (d & H & _). now injection H.
    + split; [intros H; inversion H |].
      intros (d & H & Hd). injection H as -> _. congruence.
  - assert (Hcat : matches (Cat (deriv c r1) r2) s <->
                   exists s1 s2, s = (s1 ++ s2)%string /\
                                 matches r1 (String c s1) /\ matches r2 s2).
    { rewrite matches_cat_inv. split; intros (s1 & s2 & E & H1 & H2);
        exists s1, s2; repeat split; try assumption; now apply IH1. }
    rewrite (matches_cat_inv r1 r2). destruct (nullable r1) eqn:N.
    + rewrite matches_alt_inv, Hcat, IH2. split.
      * intros [(s1 & s2 & -> & H1 & H2) | H2].
        -- now exists (String c s1), s2.
        -- exists "", (String c s). repeat split; [| assumption].
           now apply nullable_spec.
      * intros ([|d s1] & s2 & E & H1 & H2); simpl in E.
        -- right. now rewrite E.
        -- left. injection E as <- ->. now exists s1, s2.
    + rewrite Hcat. split.
      * intros (s1 & s2 & -> & H1 & H2). now exists (String c s1), s2.
      * intros ([|d s1] & s2 & E & H1 & H2); simpl in E.
        -- apply nullable_spec in H1. congruence.
        -- injection E as <- ->. now exists s1, s2.
  - now rewrite !matches_alt_inv, IH1, IH2.
  - rewrite matches_cat_inv. split.
    + intros (s1 & s2 & -> & H1 & H2). apply IH in H1.
      change (String c (s1 ++ s2)) with (String c s1 ++ s2)%string.
      now constructor.
    + intros H. apply star_cons_inv in H as (s1 & s2 & -> & H1 & H2).
      exists s1, s2. repeat split; [now apply IH | assumption].
Qed.

Lemma fullmatch_spec r s : fullmatch r s = true <-> matches r s.
Proof.
  revert r. induction s as [|c s IH]; intros r; simpl.
  - apply nullable_spec.
  - now rewrite IH, deriv_spec.
Qed.

(** [[class]*], [[class]+] and [[class]{2,}] *)
Lemma matches_star_class p s :
  matches (Star (Class p)) s <-> PyStr.forallb p s = true.
Proof.
  split.
  - intros H. remember (Star (Class p)) as r eqn:Er.
    induction H as [| | | | | |r0 s1 s2 H1 _ H2 IH2]; try discriminate.
    + reflexivity.
    + injection Er as ->. apply matches_class_inv in H1 as (c & -> & Hc).
      simpl. rewrite Hc. now apply IH2.
  - induction s as [|c s IH]; simpl; [constructor |].
    intros H. apply andb_true_iff in H as [Hc Hs].
    change (String c s) with (String c "" ++ s)%string.
    constructor; [now constructor | now apply IH].
Qed.

Lemma matches_plus_class p s :
  matches (Plus (Class p)) s <-> s <> "" /\ PyStr.forallb p s = true.
Proof.
  unfold Plus. rewrite matches_cat_inv. split.
  - intros (s1 & s2 & -> & H1 & H2).
    apply matches_class_inv in H1 as (c & -> & Hc).
    apply matches_star_class in H2. simpl. rewrite Hc, H2. now split.
  - intros [Hne H]. destruct s as [|c s]; [congruence |]. simpl in H.
    apply andb_true_iff in H as [Hc Hs]. exists (String c ""), s.
    repeat split; [now constructor | now apply matches_star_class].
Qed.

Lemma matches_two_or_more p s :
  matches (AtLeast 2 (Class p)) s <->
  2 <= String.length s /\ PyStr.forallb p s = true.
Proof.
  simpl. rewrite matches_cat_inv. split.
  - intros (s1 & s' & -> & H1 & H').
    apply matches_cat_inv in H' as (s2 & s3 & -> & H2 & H3).
    apply matches_class_inv in H1 as (c & -> & Hc).
    apply matches_class_inv in H2 as (d & -> & Hd).
    apply matches_star_class in H3. simpl. rewrite Hc, Hd, H3. split; [lia | reflexivity].
  - intros [Hlen H]. destruct s as [|c [|d s]]; simpl in Hlen; try lia.
    simpl in H. apply andb_true_iff in H as [Hc H].
    apply andb_true_iff in H as [Hd Hs].
    exists (String c ""), (String d s). repeat split; [now constructor |].
    apply matches_cat_inv. exists (String d ""), s.
    repeat split; [now constructor | now apply matches_star_class].
Qed.

End RegexFacts.

(** ** Intake validation *)

Section ValidationFacts.

Lemma email_pattern_spec s :
  Re.matches email_pattern s <->
  exists loc dom tld,
    s = (loc ++ "@" ++ dom ++ "." ++ tld)%string /\
    loc <> "" /\ PyStr.forallb local_char loc = true /\
    dom <> "" /\ PyStr.forallb domain_char dom = true /\
    2 <= String.length tld /\ PyStr.forallb alpha_char tld = true.
Proof.
  unfold email_pattern. split.
  - intros H.
    apply matches_cat_inv in H as (loc & s1 & -> & Hloc & H).
    apply matches_cat_inv in H as (at_ & s2 & -> & Hat & H).
    apply matches_cat_inv in H as (dom & s3 & -> & Hdom & H).
    apply matches_cat_inv in H as (dot & tld & -> & Hdot & Htld).
    apply matches_plus_class in Hloc as [? ?].
    apply matches_plus_class in Hdom as [? ?].
    apply matches_two_or_more in Htld as [? ?].
    apply matches_class_inv in Hat as (c & -> & Hc).
    apply matches_class_inv in Hdot as (d & -> & Hd).
    apply Ascii.eqb_eq in Hc, Hd. subst c d.
    exists loc, dom, tld. repeat split; assumption.
  - intros (loc & dom & tld & -> & ? & ? & ? & ? & ? & ?).
    constructor; [now apply matches_plus_class |].
    constructor; [now constructor |].
    constructor; [now apply matches_plus_class |].
    constructor; [now constructor |].
    now apply matches_two_or_more.
Qed.

(** [_validate_email] accepts exactly the addresses of the stated shape. *)
Lemma validate_email_spec e : _validate_email e = true <-> email_shape e.
Proof.
  unfold _validate_email, Re.match_anchored, email_shape.
  rewrite fullmatch_spec, matches_cat_inv. split.
  - intros (s1 & s2 & -> & H1 & H2).
    apply email_pattern_spec in H1 as (loc & dom & tld & -> & H).
    exists loc, dom, tld. split; [| exact H].
    apply matches_alt_inv in H2 as [H2 | H2].
    + apply matches_eps_inv in H2 as ->. left.
      now rewrite append_empty_r.
    + apply matches_class_inv in H2 as (c & -> & Hc).
      apply Ascii.eqb_eq in Hc as <-. right.
      now rewrite !append_assoc.
  - intros (loc & dom & tld & [-> | ->] & H).
    + exists (loc ++ "@" ++ dom ++ "." ++ tld)%string, "".
      repeat split.
      * now rewrite append_empty_r.
      * apply email_pattern_spec. now exists loc, dom, tld.
      * apply Re.m_alt_l. constructor.
    + exists (loc ++ "@" ++ dom ++ "." ++ tld)%string, (String Re.newline "").
      repeat split.
      * now rewrite !append_assoc.
      * apply email_pattern_spec. now exists loc, dom, tld.
      * apply Re.m_alt_r. constructor. apply Ascii.eqb_refl.
Qed.

End ValidationFacts.

(** ** One pass of the script *)

Section PassFacts.

Variable env : environment.

Implicit Types (i : pass_input) (s : session_state).

Ltac run_monad :=
  unfold mbind, M_bind, mret, M_ret, add_to_history, modify, tell, tell_all,
    get_state in *; simpl.

Lemma check_exit_eq i s :
  _check_exit_command i s = (exit_requested i, recorded i s, chat_output i).
Proof.
  unfold _check_exit_command, chat_output, exit_requested, recorded, said.
  destruct (chat_input i) as [m|]; [| reflexivity].
  destruct (PyStr.truthy m); [| reflexivity].
  match goal with |- context [existsb ?f ?l] => destruct (existsb f l) end;
    reflexivity.
Qed.

(** A pass that leaves on an exit keyword does nothing but record the
    message and show the closing text. *)
Lemma pass_exit i s :
  exit_requested i = true ->
  pass env i s = (recorded i s, [st_info Config.THANK_YOU_MESSAGE]).
Proof.
  intros H. unfold pass, run. unfold mbind, M_bind. rewrite check_exit_eq, H.
  unfold chat_output. rewrite H. unfold exit_requested in H.
  destruct (said i); [reflexivity | discriminate].
Qed.

(** Any other pass runs the handler of the current stage. *)
Lemma pass_dispatch i s :
  exit_requested i = false ->
  pass env i s =
  let '(_, s', out) := handler env i (current_stage s) (recorded i s) in
  (s', chat_output i ++ out).
Proof.
  intros H. unfold pass, run. unfold mbind, M_bind. rewrite check_exit_eq, H.
  unfold get_state.
  assert (E : current_stage (recorded i s) = current_stage s).
  { unfold recorded. now destruct (said i). }
  rewrite E. unfold handler.
  destruct (current_stage s);
    match goal with |- context [?h (recorded i s)] =>
      destruct (h (recorded i s)) as [[[] s'] out] end; reflexivity.
Qed.

(** *** Greeting, intake and completion *)

Lemma show_greeting_eq i s :
  _show_greeting i s
  = (tt,
     if lets_begin i then set_current_stage data_collection s else s,
     st_markdown Config.GREETING_MESSAGE
     :: (if lets_begin i then [st_rerun] else [])).
Proof. unfold _show_greeting. destruct (lets_begin i); reflexivity. Qed.

Lemma validate_form_eq f s :
  _validate_form f s = (form_ok f, s, validation_errors f).
Proof.
  unfold form_ok, validation_errors, _validate_form.
  destruct (negb (forallb PyStr.truthy _)); [reflexivity |].
  destruct (desired_positions f); [reflexivity |].
  destruct (negb (_validate_email (email f))); reflexivity.
Qed.

Lemma form_ok_spec f :
  form_ok f = true <->
  full_name f <> "" /\ email f <> "" /\ phone_number f <> "" /\
  current_location f <> "" /\ tech_stack f <> "" /\
  desired_positions f <> [] /\ _validate_email (email f) = true.
Proof.
  unfold form_ok, _validate_form. cbn [forallb].
  rewrite <- !truthy_true.
  destruct (PyStr.truthy (full_name f)), (PyStr.truthy (email f)),
    (PyStr.truthy (phone_number f)), (PyStr.truthy (current_location f)),
    (PyStr.truthy (tech_stack f)); cbn [andb negb];
    try (split; [discriminate | intros H; decompose [and] H; congruence]).
  destruct (desired_positions f);
    [split; [discriminate | intros H; decompose [and] H; congruence] |].
  destruct (_validate_email (email f)); cbn;
    (split; [intros H; try discriminate; repeat split; congruence
            | intros H; decompose [and] H; congruence]).
Qed.

Lemma collect_basic_info_eq i s :
  collect_basic_info i s
  = if form_submitted i then
      if form_ok (form_values i)
      then (true, saved (form_values i) s, validation_errors (form_values i))
      else (false, s,
            validation_errors (form_values i)
            ++ [st_error "Please fill in all required fields correctly."])
    else (false, s, []).
Proof.
  unfold collect_basic_info. destruct (form_submitted i); [| reflexivity].
  unfold mbind, M_bind. rewrite validate_form_eq.
  destruct (form_ok (form_values i)); cbn; [| reflexivity].
  unfold _save_candidate_data, saved, mbind, M_bind, modify. cbn.
  now rewrite app_nil_r.
Qed.

Lemma collect_candidate_data_eq i s :
  _collect_candidate_data i s
  = if form_submitted i then
      if form_ok (form_values i)
      then (tt, assessment_opened i s,
            validation_errors (form_values i) ++ [st_rerun])
      else (tt, s,
            validation_errors (form_values i)
            ++ [st_error "Please fill in all required fields correctly."])
    else (tt, s, []).
Proof.
  unfold _collect_candidate_data, mbind, M_bind.
  rewrite collect_basic_info_eq.
  destruct (form_submitted i); [| reflexivity].
  destruct (form_ok (form_values i)); cbn; [reflexivity |].
  now rewrite app_nil_r.
Qed.

Lemma show_completion_eq i s :
  _show_completion i s
  = (tt,
     if start_new_session i then initial_state else s,
     [st_markdown Config.THANK_YOU_MESSAGE; st_json (candidate_data s)]
     ++ (if start_new_session i then [st_rerun] else [])).
Proof. unfold _show_completion. destruct (start_new_session i); reflexivity. Qed.

(** *** The assessment handler, case by case *)

Lemma conduct_empty i s :
  tech_stack_list s = [] ->
  _conduct_technical_assessment env i s
  = (tt, s, [st_error "No technologies specified for assessment."]).
Proof.
  intros H. unfold _conduct_technical_assessment. run_monad. now rewrite H.
Qed.

Lemma conduct_exhausted i s :
  tech_stack_list s <> [] ->
  length (tech_stack_list s) <= current_tech_index s ->
  _conduct_technical_assessment env i s
  = (tt, set_current_stage completion s, [st_rerun]).
Proof.
  intros Hne Hle. unfold _conduct_technical_assessment.
  unfold mbind, M_bind, get_state.
  destruct (tech_stack_list s) as [|t ts] eqn:E; [congruence |].
  apply Nat.leb_le in Hle. rewrite Hle. reflexivity.
Qed.

Lemma conduct_form i s :
  current_tech_index s < length (tech_stack_list s) ->
  _conduct_technical_assessment env i s
  = (tt,
     if answers_submitted i
        && forallb PyStr.truthy (read_responses i (shown_questions env i s))
     then record_answers env i s else with_questions env i s,
     form_output env i s
     ++ (if answers_submitted i then
           if forallb PyStr.truthy (read_responses i (shown_questions env i s))
           then [st_rerun]
           else [st_error "Please answer all questions before submitting."]
         else [])).
Proof.
  intros Hlt. unfold _conduct_technical_assessment.
  unfold record_answers, with_questions, form_output, generation_output,
    response_entry, shown_questions, current_tech.
  unfold mbind, M_bind, get_state.
  destruct (tech_stack_list s) as [|t ts] eqn:E; [simpl in Hlt; lia |].
  apply Nat.leb_gt in Hlt. rewrite Hlt. rewrite <- E.
  set (tech := nth (current_tech_index s) (tech_stack_list s) "").
  destruct (tech_questions s !! tech) as [q|] eqn:L.
  - unfold mret, M_ret, tell, modify. cbn [app fst snd]. rewrite L.
    destruct (answers_submitted i);
      [destruct (forallb PyStr.truthy (read_responses i q)) |]; reflexivity.
  - destruct (generate_questions_for_tech env (completion_reply i) tech
                (experience_of (candidate_data s))) as [g w] eqn:G.
    unfold mbind, M_bind, mret, M_ret, tell, tell_all, modify.
    cbn [fst snd tech_questions set_tech_questions].
    rewrite lookup_insert_eq.
    destruct (answers_submitted i);
      [destruct (forallb PyStr.truthy (read_responses i g)) |];
      cbn [andb];
      rewrite ?app_nil_r; cbn [app]; rewrite <- ?app_assoc; reflexivity.
Qed.

(** *** A pass, stage by stage *)

Lemma recorded_stage i s : current_stage (recorded i s) = current_stage s.
Proof. unfold recorded. now destruct (said i). Qed.

Lemma recorded_index i s :
  current_tech_index (recorded i s) = current_tech_index s.
Proof. unfold recorded. now destruct (said i). Qed.

Lemma recorded_stack i s : tech_stack_list (recorded i s) = tech_stack_list s.
Proof. unfold recorded. now destruct (said i). Qed.

Lemma recorded_questions i s : tech_questions (recorded i s) = tech_questions s.
Proof. unfold recorded. now destruct (said i). Qed.

Lemma recorded_candidate i s : candidate_data (recorded i s) = candidate_data s.
Proof. unfold recorded. now destruct (said i). Qed.

Lemma pass_greeting i s :
  exit_requested i = false -> current_stage s = greeting ->
  pass env i s
  = (if lets_begin i then set_current_stage data_collection (recorded i s)
     else recorded i s,
     chat_output i ++ st_markdown Config.GREETING_MESSAGE
                      :: (if lets_begin i then [st_rerun] else [])).
Proof.
  intros Hx Hg. rewrite pass_dispatch, Hg by assumption.
  cbn [handler]. now rewrite show_greeting_eq.
Qed.

Lemma pass_data_collection i s :
  exit_requested i = false -> current_stage s = data_collection ->
  pass env i s
  = if form_submitted i then
      if form_ok (form_values i)
      then (assessment_opened i (recorded i s),
            chat_output i ++ validation_errors (form_values i) ++ [st_rerun])
      else (recorded i s,
            chat_output i ++ validation_errors (form_values i)
            ++ [st_error "Please fill in all required fields correctly."])
    else (recorded i s, chat_output i ++ []).
Proof.
  intros Hx Hg. rewrite pass_dispatch, Hg by assumption.
  cbn [handler]. rewrite collect_candidate_data_eq.
  destruct (form_submitted i); [| reflexivity].
  destruct (form_ok (form_values i)); reflexivity.
Qed.

Lemma pass_completion i s :
  exit_requested i = false -> current_stage s = completion ->
  pass env i s
  = (if start_new_session i then initial_state else recorded i s,
     chat_output i
     ++ [st_markdown Config.THANK_YOU_MESSAGE;
         st_json (candidate_data (recorded i s))]
     ++ (if start_new_session i then [st_rerun] else [])).
Proof.
  intros Hx Hg. rewrite pass_dispatch, Hg by assumption.
  cbn [handler]. now rewrite show_completion_eq.
Qed.

Lemma pass_assessment_empty i s :
  exit_requested i = false -> current_stage s = technical_assessment ->
  tech_stack_list s = [] ->
  pass env i s
  = (recorded i s,
     chat_output i ++ [st_error "No technologies specified for assessment."]).
Proof.
  intros Hx Hg He. rewrite pass_dispatch, Hg by assumption.
  cbn [handler]. rewrite conduct_empty; [reflexivity |].
  now rewrite recorded_stack.
Qed.

Lemma pass_assessment_exhausted i s :
  exit_requested i = false -> current_stage s = technical_assessment ->
  tech_stack_list s <> [] ->
  length (tech_stack_list s) <= current_tech_index s ->
  pass env i s
  = (set_current_stage completion (recorded i s), chat_output i ++ [st_rerun]).
Proof.
  intros Hx Hg Hne Hle. rewrite pass_dispatch, Hg by assumption.
  cbn [handler]. rewrite conduct_exhausted; [reflexivity | |].
  - now rewrite recorded_stack.
  - now rewrite recorded_stack, recorded_index.
Qed.

Lemma pass_assessment_form i s :
  exit_requested i = false -> current_stage s = technical_assessment ->
  current_tech_index s < length (tech_stack_list s) ->
  pass env i s
  = (if answers_submitted i
        && forallb PyStr.truthy
             (read_responses i (shown_questions env i (recorded i s)))
     then record_answers env i (recorded i s)
     else with_questions env i (recorded i s),
     chat_output i ++ form_output env i (recorded i s)
     ++ (if answers_submitted i then
           if forallb PyStr.truthy
                (read_responses i (shown_questions env i (recorded i s)))
           then [st_rerun]
           else [st_error "Please answer all questions before submitting."]
         else [])).
Proof.
  intros Hx Hg Hlt. rewrite pass_dispatch, Hg by assumption.
  cbn [handler]. rewrite conduct_form; [reflexivity |].
  now rewrite recorded_stack, recorded_index.
Qed.

(** The chat box does not change what the form shows. *)
Lemma shown_questions_recorded i s :
  shown_questions env i (recorded i s) = shown_questions env i s.
Proof.
  unfold shown_questions, current_tech.
  now rewrite recorded_questions, recorded_index, recorded_stack,
    recorded_candidate.
Qed.

End PassFacts.

(** ** C3: intake validation *)

(** C3, as stated, fails: read with "blank" as "empty or white space only",
    the claim makes validation reject a form whose name is a single space;
    [_validate_form] accepts it. *)
Lemma C3_blank_field_is_accepted :
  ~ (fst (fst (_validate_form whitespace_form initial_state)) = false <->
     (blank (full_name whitespace_form) \/ blank (email whitespace_form) \/
      blank (phone_number whitespace_form) \/
      blank (current_location whitespace_form) \/
      blank (tech_stack whitespace_form) \/
      desired_positions whitespace_form = [] \/
      ~ email_shape (email whitespace_form))).
Proof.
  intros [_ H]. assert (E : blank (full_name whitespace_form)) by reflexivity.
  specialize (H (or_introl E)). vm_compute in H. discriminate.
Qed.

(** C3 (amended): [_validate_form] returns false exactly when one of
    full_name, email, phone_number, current_location and the raw tech_stack
    is the empty string, or desired_positions is empty, or the e-mail does
    not have the shape of the pattern ("a@b.co" passes; "not-an-email",
    "a@b" and "" fail). [collect_basic_info] leaves the session as it was
    on a false result and writes the profile only on a true one. *)
Theorem C3_validation (f : intake_form) (i : pass_input) (s : session_state) :
  (fst (fst (_validate_form f s)) = false <->
   (full_name f = "" \/ email f = "" \/ phone_number f = "" \/
    current_location f = "" \/ tech_stack f = "" \/
    desired_positions f = [] \/ ~ email_shape (email f)))
  /\ (_validate_email "a@b.co" = true /\
      _validate_email "not-an-email" = false /\
      _validate_email "a@b" = false /\
      _validate_email "" = false)
  /\ snd (fst (_validate_form f s)) = s
  /\ snd (fst (collect_basic_info i s))
     = (if fst (fst (collect_basic_info i s))
        then set_tech_stack_list (parse_tech_stack (tech_stack (form_values i)))
               (set_candidate_data
                  {| basic := Some (form_values i); tech_responses := None |} s)
        else s)
  /\ fst (fst (collect_basic_info i s))
     = form_submitted i && fst (fst (_validate_form (form_values i) s)).
Proof.
  repeat split; try reflexivity.
  - rewrite validate_form_eq. cbn [fst]. intros H.
    destruct (string_dec (full_name f) "") as [|N1]; [tauto |].
    destruct (string_dec (email f) "") as [|N2]; [tauto |].
    destruct (string_dec (phone_number f) "") as [|N3]; [tauto |].
    destruct (string_dec (current_location f) "") as [|N4]; [tauto |].
    destruct (string_dec (tech_stack f) "") as [|N5]; [tauto |].
    destruct (desired_positions f) as [|d ds] eqn:D; [tauto |].
    do 6 right. intros Hshape. apply validate_email_spec in Hshape.
    assert (form_ok f = true); [| congruence].
    apply form_ok_spec. rewrite D. repeat split; try assumption. discriminate.
  - rewrite validate_form_eq. cbn [fst]. intros H.
    destruct (form_ok f) eqn:E; [| reflexivity].
    apply form_ok_spec in E as (E1 & E2 & E3 & E4 & E5 & E6 & E7).
    apply validate_email_spec in E7. tauto.
  - now rewrite validate_form_eq.
  - rewrite collect_basic_info_eq.
    destruct (form_submitted i); [| reflexivity].
    destruct (form_ok (form_values i)); reflexivity.
  - rewrite collect_basic_info_eq, validate_form_eq. cbn [fst].
    destruct (form_submitted i); [| reflexivity].
    destruct (form_ok (form_values i)); reflexivity.
Qed.

(** ** C7: the derived tech stack *)

Lemma keep_nonempty_strip (l : list string) :
  flat_map (fun tech => if PyStr.truthy (PyStr.strip tech)
                        then [PyStr.strip tech] else []) l
  = List.filter (fun t => negb (String.eqb t "")) (map PyStr.strip l).
Proof.
  induction l as [|x l IH]; [reflexivity |].
  cbn [flat_map map List.filter]. rewrite IH.
  destruct (PyStr.strip x); reflexivity.
Qed.

Lemma trims_are_strips (l l' : list string) :
  Forall2 is_trim_of l l' -> l' = map PyStr.strip l.
Proof.
  induction 1 as [|x y l l' Hxy _ IH]; [reflexivity |].
  cbn [map]. now rewrite (trim_unique _ _ Hxy), IH.
Qed.

Lemma strips_are_trims (l : list string) :
  Forall2 is_trim_of l (map PyStr.strip l).
Proof.
  induction l as [|x l IH]; constructor; [apply strip_is_trim | exact IH].
Qed.

(** The comprehension of [_save_candidate_data] computes the one list the
    description allows. *)
Lemma parse_tech_stack_spec (raw : string) (result : list string) :
  is_tech_stack_of raw result <-> result = parse_tech_stack raw.
Proof.
  unfold is_tech_stack_of, parse_tech_stack. rewrite keep_nonempty_strip. split.
  - intros (segs & trims & Hne & Hjoin & Hfree & Htrim & ->).
    rewrite <- Hjoin, (split_unique _ _ Hne Hfree).
    now rewrite (trims_are_strips _ _ Htrim).
  - intros ->. exists (PyStr.split "," raw), (map PyStr.strip (PyStr.split "," raw)).
    repeat split.
    + apply split_nonempty.
    + apply join_split.
    + apply split_sep_free.
    + apply strips_are_trims.
Qed.

(** C7: after a valid intake submission (the form is submitted in the
    data_collection stage and validation returns true) the stored
    tech_stack sequence is the raw input split on commas, each segment
    trimmed, the empty ones removed, in order, and no other list fits that
    description; "Python, JavaScript,  , React" gives Python, JavaScript,
    React. *)
Theorem C7_tech_stack_derivation (env : environment) (i : pass_input)
    (s : session_state) :
  current_stage s = data_collection ->
  exit_requested i = false ->
  form_submitted i = true ->
  fst (fst (_validate_form (form_values i) s)) = true ->
  is_tech_stack_of (tech_stack (form_values i))
                   (tech_stack_list (fst (pass env i s)))
  /\ (forall other, is_tech_stack_of (tech_stack (form_values i)) other ->
                    other = tech_stack_list (fst (pass env i s)))
  /\ tech_stack_list (snd (fst (collect_basic_info i s)))
     = tech_stack_list (fst (pass env i s))
  /\ parse_tech_stack "Python, JavaScript,  , React"
     = ["Python"; "JavaScript"; "React"].
Proof.
  intros Hstage Hexit Hsub Hok. rewrite validate_form_eq in Hok. cbn [fst] in Hok.
  rewrite (pass_data_collection env i s Hexit Hstage), Hsub, Hok.
  rewrite collect_basic_info_eq, Hsub, Hok.
  cbn [fst snd assessment_opened saved tech_stack_list set_tech_stack_list
       set_conversation_history set_current_stage set_candidate_data].
  repeat split.
  - now apply parse_tech_stack_spec.
  - intros other H. now apply parse_tech_stack_spec.
Qed.

Lemma C7_tech_stack_derivation_witness :
  current_stage at_data_collection = data_collection /\
  form_submitted (submit_form sample_form 7) = true /\
  tech_stack_list (fst (pass without_key (submit_form sample_form 7)
                             at_data_collection))
  = ["Python"; "JavaScript"; "React"].
Proof.
  split; [reflexivity |]. split; [reflexivity |].
  destruct (C7_tech_stack_derivation without_key (submit_form sample_form 7)
              at_data_collection eq_refl eq_refl eq_refl eq_refl)
    as (H & _ & _ & _).
  apply parse_tech_stack_spec in H. rewrite H. reflexivity.
Defined.

(** ** C8: the exit keywords *)

Lemma exit_requested_spec (i : pass_input) :
  exit_requested i = true <->
  exists m, said i = Some m /\ has_exit_keyword m.
Proof.
  unfold exit_requested, has_exit_keyword. destruct (said i) as [m|].
  - unfold Config.EXIT_KEYWORDS. cbn [existsb].
    rewrite !orb_true_iff, !contains_spec. split.
    + intros H. exists m. split; [reflexivity |].
      decompose [or] H; try discriminate; tauto.
    + intros (m' & E & H). injection E as <-. tauto.
  - split; [discriminate | intros (m & E & _); discriminate].
Qed.

Lemma said_nonempty (i : pass_input) (m : string) :
  chat_input i = Some m -> m <> "" -> said i = Some m.
Proof.
  intros E Hne. unfold said. rewrite E.
  destruct m; [congruence | reflexivity].
Qed.

(** Unless "Start New Session" clears the session, the handler of a stage
    keeps the history entries it finds. *)
Lemma handler_keeps_history (env : environment) (i : pass_input)
    (s : session_state) :
  (current_stage s = completion -> start_new_session i = false) ->
  exists later,
    conversation_history (snd (fst (handler env i (current_stage s) s)))
    = conversation_history s ++ later.
Proof.
  intros Hnew. destruct (current_stage s) eqn:Hg; cbn [handler].
  - rewrite show_greeting_eq. cbn [fst snd]. exists [].
    rewrite app_nil_r. now destruct (lets_begin i).
  - rewrite collect_candidate_data_eq.
    destruct (form_submitted i); [destruct (form_ok (form_values i)) |];
      cbn [fst snd]; try (exists []; now rewrite app_nil_r).
    eexists. unfold assessment_opened. cbn. reflexivity.
  - destruct (tech_stack_list s) as [|t ts] eqn:Hstack.
    { rewrite conduct_empty by assumption. exists []. now rewrite app_nil_r. }
    assert (Hne : tech_stack_list s <> []) by (rewrite Hstack; discriminate).
    exists []. rewrite app_nil_r.
    destruct (Nat.ltb_spec (current_tech_index s) (length (tech_stack_list s)))
      as [Hlt | Hge].
    + rewrite conduct_form by assumption. cbn [fst snd].
      unfold record_answers, with_questions.
      destruct (_ && _); destruct (tech_questions s !! current_tech s);
        reflexivity.
    + now rewrite conduct_exhausted.
  - rewrite show_completion_eq. cbn [fst snd]. rewrite (Hnew eq_refl).
    exists []. now rewrite app_nil_r.
Qed.

(** C8: a user message is put into the history whatever it says:
    [_check_exit_command] leaves a session whose history is the old one
    followed by the message, and whose other fields are untouched. When the
    lowered message holds "exit", "quit", "bye", "goodbye" or "stop"
    ("I need to EXIT now" does), the pass skips the stage handler: it shows
    the closing message and nothing else, the history after the pass is the
    old one followed by the message, and current_stage is what it was.
    Otherwise the handler of the current stage runs on the session that
    holds the message, and the message is still in the history after the
    pass, unless that pass clears the session from the completion screen. *)
Theorem C8_exit_keyword (env : environment) (i : pass_input)
    (s : session_state) (m : string) :
  chat_input i = Some m ->
  m <> "" ->
  let entry := {| role := "user"; message := m; timestamp := now i |} in
  let with_message := snd (fst (_check_exit_command i s)) in
  conversation_history with_message = conversation_history s ++ [entry]
  /\ with_message
     = set_conversation_history (conversation_history s ++ [entry]) s
  /\ current_stage with_message = current_stage s
  /\ candidate_data with_message = candidate_data s
  /\ tech_questions with_message = tech_questions s
  /\ current_tech_index with_message = current_tech_index s
  /\ tech_stack_list with_message = tech_stack_list s
  /\ (has_exit_keyword m ->
      fst (fst (_check_exit_command i s)) = true /\
      pass env i s = (with_message, [st_info Config.THANK_YOU_MESSAGE]) /\
      conversation_history (fst (pass env i s))
      = conversation_history s ++ [entry] /\
      current_stage (fst (pass env i s)) = current_stage s)
  /\ (~ has_exit_keyword m ->
      fst (fst (_check_exit_command i s)) = false /\
      pass env i s
      = (snd (fst (handler env i (current_stage s) with_message)),
         st_warning please_use_forms
         :: snd (handler env i (current_stage s) with_message)) /\
      ((current_stage s = completion -> start_new_session i = false) ->
       exists later,
         conversation_history (fst (pass env i s))
         = conversation_history s ++ entry :: later))
  /\ has_exit_keyword "I need to EXIT now"
  /\ ~ has_exit_keyword "Hello there".
Proof.
  intros Hchat Hne entry with_message.
  pose proof (said_nonempty i m Hchat Hne) as Hsaid.
  assert (Hrec : with_message = recorded i s).
  { subst with_message. now rewrite check_exit_eq. }
  assert (Hset : recorded i s
                 = set_conversation_history
                     (conversation_history s ++ [entry]) s).
  { unfold recorded. now rewrite Hsaid. }
  assert (Hhist : conversation_history with_message
                  = conversation_history s ++ [entry]).
  { now rewrite Hrec, Hset. }
  assert (Hstage : current_stage with_message = current_stage s).
  { rewrite Hrec. apply recorded_stage. }
  split; [exact Hhist |].
  split; [now rewrite Hrec |].
  split; [exact Hstage |].
  split; [rewrite Hrec; apply recorded_candidate |].
  split; [rewrite Hrec; apply recorded_questions |].
  split; [rewrite Hrec; apply recorded_index |].
  split; [rewrite Hrec; apply recorded_stack |].
  split; [| split; [| split]].
  - intros Hkw.
    assert (E : exit_requested i = true).
    { apply (proj2 (exit_requested_spec i)). now exists m. }
    rewrite check_exit_eq, (pass_exit env i s E), <- Hrec. cbn [fst snd].
    now repeat split.
  - intros Hkw.
    assert (E : exit_requested i = false).
    { destruct (exit_requested i) eqn:E; [| reflexivity].
      apply exit_requested_spec in E as (m' & E' & Hk). congruence. }
    assert (Hpass : pass env i s
                    = (snd (fst (handler env i (current_stage s) with_message)),
                       st_warning please_use_forms
                       :: snd (handler env i (current_stage s) with_message))).
    { rewrite (pass_dispatch env i s E), <- Hrec.
      unfold chat_output. rewrite Hsaid, E.
      destruct (handler env i (current_stage s) with_message) as [[[] s'] out].
      reflexivity. }
    split; [now rewrite check_exit_eq |]. split; [exact Hpass |].
    intros Hnew. rewrite Hpass. cbn [fst].
    rewrite <- Hstage in Hnew |- *.
    destruct (handler_keeps_history env i with_message Hnew) as (later & H).
    exists later. rewrite H, Hhist, <- app_assoc. reflexivity.
  - left. apply contains_spec. reflexivity.
  - unfold has_exit_keyword. rewrite <- !contains_spec.
    intros H. decompose [or] H; discriminate.
Qed.

Lemma C8_exit_keyword_witness :
  conversation_history
    (fst (pass without_key (say "I need to EXIT now" 3)
               (at_assessment ["Python"])))
  = [ {| role := "user"; message := "I need to EXIT now"; timestamp := 3 |} ]
  /\ current_stage
       (fst (pass without_key (say "I need to EXIT now" 3)
                  (at_assessment ["Python"])))
     = technical_assessment
  /\ snd (pass without_key (say "I need to EXIT now" 3)
               (at_assessment ["Python"]))
     = [st_info Config.THANK_YOU_MESSAGE].
Proof.
  destruct (C8_exit_keyword without_key (say "I need to EXIT now" 3)
              (at_assessment ["Python"]) "I need to EXIT now" eq_refl
              ltac:(discriminate))
    as (_ & _ & _ & _ & _ & _ & _ & Hexit & _ & Hkw & _).
  destruct (Hexit Hkw) as (_ & Hpass & Hhist & Hstage).
  split; [exact Hhist |]. split; [exact Hstage |].
  now rewrite Hpass.
Defined.

(** ** C9: an empty tech stack *)

Section EmptyStack.

Variable env : environment.

(** With no technology to assess, a pass changes the history at most. *)
Lemma empty_stack_pass (i : pass_input) (s : session_state) :
  current_stage s = technical_assessment ->
  tech_stack_list s = [] ->
  fst (pass env i s) = recorded i s /\
  (exit_requested i = false ->
   snd (pass env i s)
   = chat_output i ++ [st_error "No technologies specified for assessment."]).
Proof.
  intros Hg He. destruct (exit_requested i) eqn:Hx.
  - rewrite pass_exit by assumption. split; [reflexivity | discriminate].
  - rewrite pass_assessment_empty by assumption. now split.
Qed.

Lemma empty_stack_session (inputs : list pass_input) (s : session_state) :
  current_stage s = technical_assessment ->
  tech_stack_list s = [] ->
  current_stage (fst (passes env inputs s)) = technical_assessment /\
  tech_stack_list (fst (passes env inputs s)) = [] /\
  current_tech_index (fst (passes env inputs s)) = current_tech_index s.
Proof.
  revert s. induction inputs as [|i rest IH]; intros s Hg He.
  - now repeat split.
  - cbn [passes].
    destruct (empty_stack_pass i s Hg He) as [Hs _].
    destruct (pass env i s) as [s1 o1]. cbn [fst] in Hs. subst s1.
    specialize (IH (recorded i s)).
    destruct (passes env rest (recorded i s)) as [s2 o2]. cbn [fst] in *.
    rewrite recorded_stage, recorded_stack, recorded_index in IH.
    now apply IH.
Qed.

End EmptyStack.

(** C9: when the derived tech_stack is empty, a pass through the
    technical_assessment stage shows the error "No technologies specified
    for assessment." and leaves current_stage, the cursor and everything
    but the chat history as they were; however the session goes on, the
    stage stays technical_assessment and never becomes completion. *)
Theorem C9_empty_stack_is_stuck (env : environment) (i : pass_input)
    (inputs : list pass_input) (s : session_state) :
  current_stage s = technical_assessment ->
  tech_stack_list s = [] ->
  (exit_requested i = false ->
   In (st_error "No technologies specified for assessment.")
      (snd (pass env i s)))
  /\ fst (pass env i s) = recorded i s
  /\ current_stage (fst (pass env i s)) = technical_assessment
  /\ current_tech_index (fst (pass env i s)) = current_tech_index s
  /\ candidate_data (fst (pass env i s)) = candidate_data s
  /\ current_stage (fst (passes env inputs s)) = technical_assessment
  /\ current_stage (fst (passes env inputs s)) <> completion
  /\ current_tech_index (fst (passes env inputs s)) = current_tech_index s.
Proof.
  intros Hg He.
  destruct (empty_stack_pass env i s Hg He) as [Hs Hout].
  destruct (empty_stack_session env inputs s Hg He) as (Hg' & _ & Hi').
  rewrite Hs, recorded_stage, recorded_index, recorded_candidate, Hg'.
  repeat split; try assumption; try discriminate.
  intros Hx. rewrite (Hout Hx). apply in_or_app. right. now left.
Qed.

Lemma C9_empty_stack_is_stuck_witness :
  current_stage (fst (passes without_key
                        [idle 1; submit_answers ["x"] (RemoteRaises "") 2; idle 3]
                        (at_assessment [])))
  = technical_assessment.
Proof.
  exact (proj1 (proj2 (proj2 (proj2 (proj2 (proj2
    (C9_empty_stack_is_stuck without_key (idle 0)
       [idle 1; submit_answers ["x"] (RemoteRaises "") 2; idle 3]
       (at_assessment []) eq_refl eq_refl))))))).
Defined.

(** ** C1, C2, C10: the assessment loop *)

Section AssessmentLoop.

Variable env : environment.

Implicit Types (i : pass_input) (s : session_state).

Lemma successful_submission_spec i s :
  successful_submission env i s = true <->
  form_submission i s /\
  forallb PyStr.truthy (read_responses i (shown_questions env i s)) = true.
Proof.
  unfold successful_submission, form_submission.
  destruct (current_stage s);
    try (split; [discriminate | intros [[H _] _]; discriminate]).
  rewrite !andb_true_iff, negb_true_iff, Nat.ltb_lt. tauto.
Qed.

(** A successful submission stores the answers and moves the cursor. *)
Lemma pass_success i s :
  successful_submission env i s = true ->
  fst (pass env i s) = record_answers env i (recorded i s).
Proof.
  intros H. apply successful_submission_spec in H as [(Hg & Hx & Hlt & Hsub) Hall].
  rewrite pass_assessment_form by assumption.
  now rewrite shown_questions_recorded, Hsub, Hall.
Qed.

(** A submission with an answer left empty stores the questions at most. *)
Lemma pass_rejected i s :
  form_submission i s ->
  forallb PyStr.truthy (read_responses i (shown_questions env i s)) = false ->
  pass env i s
  = (with_questions env i (recorded i s),
     chat_output i ++ form_output env i (recorded i s)
     ++ [st_error "Please answer all questions before submitting."]).
Proof.
  intros (Hg & Hx & Hlt & Hsub) Hall.
  rewrite pass_assessment_form by assumption.
  now rewrite shown_questions_recorded, Hsub, Hall.
Qed.

Lemma with_questions_frame i s :
  current_stage (with_questions env i s) = current_stage s /\
  current_tech_index (with_questions env i s) = current_tech_index s /\
  tech_stack_list (with_questions env i s) = tech_stack_list s /\
  candidate_data (with_questions env i s) = candidate_data s /\
  conversation_history (with_questions env i s) = conversation_history s.
Proof.
  unfold with_questions. destruct (tech_questions s !! current_tech s);
    now repeat split.
Qed.

Lemma record_answers_frame i s :
  current_stage (record_answers env i s) = current_stage s /\
  current_tech_index (record_answers env i s) = current_tech_index s + 1 /\
  tech_stack_list (record_answers env i s) = tech_stack_list s.
Proof.
  unfold record_answers. cbn.
  destruct (with_questions_frame i s) as (H1 & H2 & H3 & _). now repeat split.
Qed.

(** Within a session, the assessment moves on by successful submissions
    only, one technology at a time. *)
Lemma assessing_pass stack i s :
  start_new_session i = false ->
  assessing stack s ->
  assessing stack (fst (pass env i s)) /\
  current_tech_index (fst (pass env i s))
  = current_tech_index s + (if successful_submission env i s then 1 else 0).
Proof.
  intros Hnew (Hstack & Hle & Hstage).
  assert (Hrec : assessing stack (recorded i s) /\
                 current_tech_index (recorded i s) = current_tech_index s + 0).
  { unfold assessing.
    rewrite recorded_stack, recorded_index, recorded_stage. repeat split; auto. }
  destruct (exit_requested i) eqn:Hx.
  { rewrite pass_exit by assumption. cbn [fst].
    replace (successful_submission env i s) with false; [exact Hrec |].
    unfold successful_submission. rewrite Hx. now destruct (current_stage s). }
  destruct Hstage as [Hg | [Hg Hend]].
  - assert (Hcases : tech_stack_list s = [] \/ tech_stack_list s <> []).
    { destruct (tech_stack_list s); [now left | now right]. }
    destruct Hcases as [Hs | Hne].
    { rewrite pass_assessment_empty by assumption. cbn [fst].
      replace (successful_submission env i s) with false; [exact Hrec |].
      unfold successful_submission. rewrite Hg, Hs. cbn [length].
      change (current_tech_index s <? 0)%nat with false.
      now rewrite andb_false_r. }
    destruct (Nat.ltb_spec (current_tech_index s) (length (tech_stack_list s)))
      as [Hlt | Hge].
    + rewrite pass_assessment_form by assumption.
      rewrite shown_questions_recorded. cbn [fst].
      unfold successful_submission. rewrite Hg, Hx.
      apply Nat.ltb_lt in Hlt as Hlt'. rewrite Hlt'. cbn [negb andb].
      destruct (answers_submitted i); cbn [andb];
        [destruct (forallb PyStr.truthy _) |].
      * destruct (record_answers_frame i (recorded i s)) as (H1 & H2 & H3).
        unfold assessing.
        rewrite H1, H2, H3, recorded_stack, recorded_index, recorded_stage.
        rewrite Hstack in *. repeat split; auto. lia.
      * destruct (with_questions_frame i (recorded i s)) as (H1 & H2 & H3 & _).
        unfold assessing.
        rewrite H1, H2, H3, recorded_stack, recorded_index, recorded_stage.
        repeat split; auto.
      * destruct (with_questions_frame i (recorded i s)) as (H1 & H2 & H3 & _).
        unfold assessing.
        rewrite H1, H2, H3, recorded_stack, recorded_index, recorded_stage.
        repeat split; auto.
    + rewrite pass_assessment_exhausted by assumption. cbn [fst].
      replace (successful_submission env i s) with false.
      * unfold assessing. cbn. rewrite recorded_stack, recorded_index.
        rewrite Hstack in *. repeat split; auto. right. split; [reflexivity | lia].
      * unfold successful_submission. rewrite Hg.
        apply Nat.ltb_ge in Hge. now rewrite Hge, andb_false_r.
  - rewrite pass_completion, Hnew by assumption. cbn [fst].
    replace (successful_submission env i s) with false; [exact Hrec |].
    unfold successful_submission. now rewrite Hg.
Qed.

Lemma assessing_session stack (inputs : list pass_input) :
  one_session inputs ->
  forall s, assessing stack s ->
  assessing stack (fst (passes env inputs s)) /\
  current_tech_index (fst (passes env inputs s))
  = current_tech_index s + successes env inputs s.
Proof.
  induction 1 as [|i rest Hi Hrest IH]; intros s Hs.
  - cbn. split; [assumption | lia].
  - cbn [passes successes].
    destruct (assessing_pass stack i s Hi Hs) as [Hs1 Hidx].
    destruct (pass env i s) as [s1 o1]. cbn [fst] in *.
    destruct (IH s1 Hs1) as [Hs2 Hidx2].
    destruct (passes env rest s1) as [s2 o2]. cbn [fst] in *.
    split; [assumption | lia].
Qed.

(** While technologies remain, a pass does not end the assessment. *)
Lemma no_early_completion i s :
  current_stage s = technical_assessment ->
  current_tech_index s < length (tech_stack_list s) ->
  current_stage (fst (pass env i s)) = technical_assessment.
Proof.
  intros Hg Hlt. destruct (exit_requested i) eqn:Hx.
  - rewrite pass_exit by assumption. cbn [fst]. now rewrite recorded_stage.
  - rewrite pass_assessment_form by assumption. cbn [fst].
    destruct (_ && _).
    + destruct (record_answers_frame i (recorded i s)) as (H1 & _).
      now rewrite H1, recorded_stage.
    + destruct (with_questions_frame i (recorded i s)) as (H1 & _).
      now rewrite H1, recorded_stage.
Qed.

(** Outside a successful submission the cursor of an assessment stays. *)
Lemma cursor_stays i s :
  current_stage s = technical_assessment ->
  successful_submission env i s = false ->
  current_tech_index (fst (pass env i s)) = current_tech_index s.
Proof.
  intros Hg Hno.
  destruct (exit_requested i) eqn:Hx.
  { rewrite pass_exit by assumption. cbn [fst]. apply recorded_index. }
  assert (Hcases : tech_stack_list s = [] \/ tech_stack_list s <> []).
  { destruct (tech_stack_list s); [now left | now right]. }
  destruct Hcases as [He | Hne].
  { rewrite pass_assessment_empty by assumption. cbn [fst]. apply recorded_index. }
  destruct (Nat.ltb_spec (current_tech_index s) (length (tech_stack_list s)))
    as [Hlt | Hge].
  - rewrite pass_assessment_form by assumption. cbn [fst].
    rewrite shown_questions_recorded.
    unfold successful_submission in Hno. rewrite Hg, Hx in Hno.
    apply Nat.ltb_lt in Hlt. rewrite Hlt in Hno. cbn [negb andb] in Hno.
    rewrite Hno.
    destruct (with_questions_frame i (recorded i s)) as (_ & H2 & _).
    now rewrite H2, recorded_index.
  - rewrite pass_assessment_exhausted by assumption. cbn. apply recorded_index.
Qed.

End AssessmentLoop.

(** C1: a pass never takes technical_assessment to completion while the
    cursor is below the length of tech_stack. A successful per-technology
    submission moves the cursor by exactly one, and no other pass of the
    assessment moves it. So, for a session that starts the assessment of
    [n >= 1] technologies with the cursor at 0: whenever the stage is
    completion, exactly [n] of its passes were successful submissions. *)
Theorem C1_completion_after_all_technologies (env : environment)
    (inputs : list pass_input) (s : session_state) (n : nat) :
  current_stage s = technical_assessment ->
  current_tech_index s = 0 ->
  length (tech_stack_list s) = n ->
  1 <= n ->
  one_session inputs ->
  (forall i s1,
      current_stage s1 = technical_assessment ->
      current_tech_index s1 < length (tech_stack_list s1) ->
      current_stage (fst (pass env i s1)) <> completion)
  /\ (forall i s1,
        successful_submission env i s1 = true ->
        current_tech_index (fst (pass env i s1)) = current_tech_index s1 + 1)
  /\ (forall i s1,
        current_stage s1 = technical_assessment ->
        successful_submission env i s1 = false ->
        current_tech_index (fst (pass env i s1)) = current_tech_index s1)
  /\ (current_stage (fst (passes env inputs s)) = completion ->
      successes env inputs s = n)
  /\ (current_stage (fst (passes env inputs s)) = technical_assessment ->
      successes env inputs s = current_tech_index (fst (passes env inputs s))
      /\ successes env inputs s <= n).
Proof.
  intros Hg H0 Hn Hpos Hone.
  assert (Hs : assessing (tech_stack_list s) s).
  { unfold assessing. rewrite H0. repeat split; auto with arith. }
  destruct (assessing_session env _ inputs Hone s Hs)
    as [(Hstack & Hle & Hstage) Hidx].
  rewrite H0 in Hidx. cbn [Nat.add] in Hidx.
  repeat split.
  - intros i s1 Hg1 Hlt. now rewrite no_early_completion.
  - intros i s1 Hok. rewrite pass_success by assumption.
    destruct (record_answers_frame env i (recorded i s1)) as (_ & H2 & _).
    now rewrite H2, recorded_index.
  - intros i s1 Hg1 Hno. now apply cursor_stays.
  - intros Hc. destruct Hstage as [Ht | [_ Hend]]; [congruence | lia].
  - now rewrite Hidx.
  - rewrite <- Hidx. lia.
Qed.

Lemma C1_completion_after_all_technologies_witness :
  current_stage (fst (passes without_key three_tech_session
                        (at_assessment ["Python"; "Rust"; "React"])))
  = completion /\
  successes without_key three_tech_session
    (at_assessment ["Python"; "Rust"; "React"]) = 3.
Proof.
  assert (Hone : one_session three_tech_session).
  { unfold one_session, three_tech_session. repeat constructor. }
  destruct (C1_completion_after_all_technologies without_key three_tech_session
              (at_assessment ["Python"; "Rust"; "React"]) 3
              eq_refl eq_refl eq_refl ltac:(lia) Hone)
    as (_ & _ & _ & Hdone & _).
  assert (Hc : current_stage (fst (passes without_key three_tech_session
                                     (at_assessment ["Python"; "Rust"; "React"])))
               = completion) by (vm_compute; reflexivity).
  split; [exact Hc | exact (Hdone Hc)].
Defined.

(** ** C2: submitting the answers of a technology *)

Lemma dict_get_set {V : Type} (k : string) (v : V) (d : list (string * V)) :
  dict_get k (dict_set k v d) = Some v.
Proof.
  induction d as [|[k' v'] d IH]; cbn.
  - now rewrite String.eqb_refl.
  - destruct (String.eqb k' k) eqn:E; cbn.
    + now rewrite String.eqb_refl.
    + now rewrite E.
Qed.

Lemma read_responses_length (i : pass_input) (q : question_seq) :
  length (read_responses i q) = q_len q.
Proof. unfold read_responses. now rewrite length_map, length_seq. Qed.

Lemma forallb_truthy_spec (l : list string) :
  forallb PyStr.truthy l = true <-> (forall a, In a l -> a <> "").
Proof.
  rewrite forallb_forall. split; intros H a Ha; apply truthy_true; auto.
Qed.

(** What a submission with every answer filled in leaves behind. *)
Lemma submission_recorded (env : environment) (i : pass_input)
    (s : session_state) :
  form_submission i s ->
  forallb PyStr.truthy (read_responses i (shown_questions env i s)) = true ->
  dict_get (current_tech s)
    (responses_of (candidate_data (fst (pass env i s))))
  = Some (response_entry env i s)
  /\ current_tech_index (fst (pass env i s)) = current_tech_index s + 1
  /\ current_stage (fst (pass env i s)) = technical_assessment.
Proof.
  intros Hsub Hall. pose proof Hsub as (Hg & Hx & Hlt & Hans).
  assert (Hok : successful_submission env i s = true).
  { apply successful_submission_spec. now split. }
  rewrite (pass_success env i s Hok).
  destruct (record_answers_frame env i (recorded i s)) as (H1 & H2 & _).
  rewrite H1, H2, recorded_stage, recorded_index.
  repeat split; [| assumption].
  unfold record_answers, response_entry. cbn.
  rewrite shown_questions_recorded.
  replace (current_tech (recorded i s)) with (current_tech s).
  - apply dict_get_set.
  - unfold current_tech. now rewrite recorded_index, recorded_stack.
Qed.

(** C2: when the answer form of the current technology is submitted in
    the technical_assessment stage, there is one answer per question. If
    no answer is empty, the questions shown and the answers are stored
    under the technology's name and the cursor moves by one. If some
    answer is empty, cursor, stage and candidate data stay as they were and
    "Please answer all questions before submitting." is shown. *)
Theorem C2_answer_submission (env : environment) (i : pass_input)
    (s : session_state) :
  form_submission i s ->
  let q := shown_questions env i s in
  let given := read_responses i q in
  let s' := fst (pass env i s) in
  length given = q_len q
  /\ ((forall a, In a given -> a <> "") ->
      dict_get (current_tech s) (responses_of (candidate_data s'))
      = Some {| questions := q; answers := given |}
      /\ q_len (questions {| questions := q; answers := given |})
         = length (answers {| questions := q; answers := given |})
      /\ current_tech_index s' = current_tech_index s + 1
      /\ current_stage s' = technical_assessment)
  /\ ((exists a, In a given /\ a = "") ->
      current_tech_index s' = current_tech_index s
      /\ current_stage s' = current_stage s
      /\ candidate_data s' = candidate_data s
      /\ In (st_error "Please answer all questions before submitting.")
            (snd (pass env i s))).
Proof.
  intros Hsub q given s'. subst q given s'.
  pose proof Hsub as (Hg & Hx & Hlt & Hans).
  split; [apply read_responses_length |]. split.
  - intros Hall. apply forallb_truthy_spec in Hall.
    destruct (submission_recorded env i s Hsub Hall) as (Hdict & Hidx & Hst).
    repeat split; try assumption. symmetry. apply read_responses_length.
  - intros (a & Hin & ->).
    assert (Hno : forallb PyStr.truthy
                    (read_responses i (shown_questions env i s)) = false).
    { destruct (forallb PyStr.truthy _) eqn:E; [| reflexivity].
      now pose proof (proj1 (forallb_truthy_spec _) E "" Hin). }
    rewrite (pass_rejected env i s Hsub Hno). cbn [fst snd].
    destruct (with_questions_frame env i (recorded i s)) as (H1 & H2 & _ & H4 & _).
    rewrite H1, H2, H4, recorded_stage, recorded_index, recorded_candidate.
    repeat split. apply in_or_app. right. apply in_or_app. right. now left.
Qed.

Lemma C2_answer_submission_witness :
  form_submission (submit_answers four_answers (RemoteRaises "") 2)
                  (at_assessment ["Python"]) /\
  current_tech_index
    (fst (pass without_key (submit_answers four_answers (RemoteRaises "") 2)
               (at_assessment ["Python"]))) = 1.
Proof.
  assert (H : form_submission (submit_answers four_answers (RemoteRaises "") 2)
                              (at_assessment ["Python"])).
  { repeat split. simpl. lia. }
  split; [exact H |].
  destruct (C2_answer_submission without_key _ _ H) as (_ & Hgood & _).
  destruct Hgood as (_ & _ & Hidx & _); [| exact Hidx].
  intros a Ha. vm_compute in Ha.
  decompose [or] Ha; try contradiction; subst a; discriminate.
Defined.

(** ** C10: an empty question list *)

(** C10: when the question list stored for the current technology is
    empty, submitting the form succeeds with nothing answered: there is no
    answer box, the all-answers check holds of the empty list, an entry
    with no question and no answer is recorded for the technology and the
    cursor moves by one. Such a list is what the question source returns,
    with a credential, for a reply that decodes to the empty JSON array. *)
Theorem C10_empty_question_list (env : environment) (i : pass_input)
    (s : session_state) :
  form_submission i s ->
  tech_questions s !! current_tech s = Some (QList []) ->
  read_responses i (shown_questions env i s) = []
  /\ forallb PyStr.truthy (read_responses i (shown_questions env i s)) = true
  /\ dict_get (current_tech s)
       (responses_of (candidate_data (fst (pass env i s))))
     = Some {| questions := QList []; answers := [] |}
  /\ current_tech_index (fst (pass env i s)) = current_tech_index s + 1
  /\ (forall content technology experience_level,
        api_key env <> "" ->
        json_loads env (PyStr.strip content) = JsonValue (PList []) ->
        generate_questions_for_tech env (RemoteContent content)
          technology experience_level = (QList [], [])).
Proof.
  intros Hsub Hq.
  assert (Hshown : shown_questions env i s = QList []).
  { unfold shown_questions. now rewrite Hq. }
  assert (Hnone : read_responses i (shown_questions env i s) = []).
  { now rewrite Hshown. }
  destruct (submission_recorded env i s Hsub) as (Hdict & Hidx & _).
  { now rewrite Hnone. }
  unfold response_entry in Hdict. rewrite Hnone, Hshown in *.
  repeat split; try assumption.
  intros content technology experience_level Hkey Hloads.
  unfold generate_questions_for_tech.
  apply truthy_true in Hkey. rewrite Hkey, Hloads. reflexivity.
Qed.

Lemma C10_empty_question_list_witness :
  form_submission (submit_answers [] (RemoteContent "[]") 2) empty_form_shown /\
  tech_questions empty_form_shown !! current_tech empty_form_shown
  = Some (QList []) /\
  current_tech_index
    (fst (pass with_key (submit_answers [] (RemoteContent "[]") 2)
               empty_form_shown)) = 1 /\
  generate_questions_for_tech with_key (RemoteContent "[]") "Python" 2
  = (QList [], []).
Proof.
  assert (H : form_submission (submit_answers [] (RemoteContent "[]") 2)
                              empty_form_shown).
  { repeat split. vm_compute. lia. }
  assert (Hq : tech_questions empty_form_shown !! current_tech empty_form_shown
               = Some (QList [])) by (vm_compute; reflexivity).
  destruct (C10_empty_question_list with_key _ _ H Hq)
    as (_ & _ & _ & Hidx & Hgen).
  split; [exact H |]. split; [exact Hq |]. split.
  - rewrite Hidx. vm_compute. reflexivity.
  - apply Hgen; [discriminate | reflexivity].
Defined.

(** ** C5: questions are generated once per technology *)

Section Memoization.

Variable env : environment.

Implicit Types (i : pass_input) (s : session_state) (out : list ui).

Lemma generations_app technology out1 out2 :
  generations technology (out1 ++ out2)
  = generations technology out1 + generations technology out2.
Proof.
  induction out1 as [|u out1 IH]; [reflexivity |].
  destruct u; cbn [app generations]; try exact IH.
  rewrite IH. lia.
Qed.

Lemma quiet_generations technology out :
  quiet out -> generations technology out = 0.
Proof.
  induction 1 as [|u out Hu _ IH]; [reflexivity |].
  destruct u; cbn [generations]; try exact IH; contradiction.
Qed.

Lemma quiet_no_form technology q out :
  quiet out -> ~ In (st_form technology q) out.
Proof.
  intros Hq Hin. unfold quiet in Hq. rewrite List.Forall_forall in Hq.
  exact (Hq _ Hin).
Qed.

Lemma quiet_app out1 out2 : quiet out1 -> quiet out2 -> quiet (out1 ++ out2).
Proof. unfold quiet. intros. now apply Forall_app. Qed.

Lemma chat_output_quiet i : quiet (chat_output i).
Proof.
  unfold chat_output. destruct (said i); [| constructor].
  destruct (exit_requested i); repeat constructor.
Qed.

Lemma validation_errors_quiet f : quiet (validation_errors f).
Proof.
  unfold validation_errors, _validate_form.
  destruct (negb (forallb PyStr.truthy _)); [constructor |].
  destruct (desired_positions f); [constructor |].
  destruct (negb (_validate_email (email f))); repeat constructor.
Qed.

Lemma generate_warnings_quiet reply technology experience_level :
  quiet (snd (generate_questions_for_tech env reply technology experience_level)).
Proof.
  unfold generate_questions_for_tech, fallback_after.
  destruct (negb (PyStr.truthy (api_key env))); [constructor |].
  destruct reply as [e | content]; [repeat constructor |].
  destruct (json_loads env (PyStr.strip content)) as [v | | e];
    [destruct (slice5 v) | |]; repeat constructor.
Qed.

Lemma newly_stored_same technology (m : gmap string question_seq) :
  newly_stored technology m m = false.
Proof. unfold newly_stored. now destruct (m !! technology). Qed.

(** A pass of a session either leaves the stored questions alone and
    shows no form, or it is a pass over the assessment form. *)
Lemma pass_questions_cases i s :
  start_new_session i = false ->
  (tech_questions (fst (pass env i s)) = tech_questions s /\
   quiet (snd (pass env i s)))
  \/ (exists post,
        quiet post /\
        snd (pass env i s)
        = chat_output i ++ form_output env i (recorded i s) ++ post /\
        tech_questions (fst (pass env i s))
        = tech_questions (with_questions env i (recorded i s))).
Proof.
  intros Hnew. pose proof (chat_output_quiet i) as Hchat.
  destruct (exit_requested i) eqn:Hx.
  { left. rewrite pass_exit by assumption. cbn [fst snd].
    split; [apply recorded_questions | repeat constructor]. }
  destruct (current_stage s) eqn:Hg.
  - left. rewrite pass_greeting by assumption. cbn [fst snd].
    destruct (lets_begin i); cbn; (split; [apply recorded_questions |]);
      apply quiet_app; try assumption; repeat constructor.
  - left. rewrite pass_data_collection by assumption.
    destruct (form_submitted i); [destruct (form_ok (form_values i)) |];
      cbn [fst snd]; (split; [cbn; apply recorded_questions |]);
      repeat apply quiet_app; try assumption;
      try apply validation_errors_quiet; repeat constructor.
  - assert (Hcases : tech_stack_list s = [] \/ tech_stack_list s <> []).
    { destruct (tech_stack_list s); [now left | now right]. }
    destruct Hcases as [He | Hne].
    { left. rewrite pass_assessment_empty by assumption. cbn [fst snd].
      split; [apply recorded_questions |].
      apply quiet_app; [assumption | repeat constructor]. }
    destruct (Nat.ltb_spec (current_tech_index s) (length (tech_stack_list s)))
      as [Hlt | Hge].
    + right. rewrite pass_assessment_form by assumption. cbn [fst snd].
      eexists. split; [| split; [reflexivity |]].
      * destruct (answers_submitted i); [destruct (forallb _ _) |];
          repeat constructor.
      * now destruct (_ && _).
    + left. rewrite pass_assessment_exhausted by assumption. cbn [fst snd].
      split; [cbn; apply recorded_questions |].
      apply quiet_app; [assumption | repeat constructor].
  - left. rewrite pass_completion, Hnew by assumption. cbn [fst snd].
    split; [apply recorded_questions |].
    apply quiet_app; [assumption | repeat constructor].
Qed.

(** What one pass of a session does to the stored questions. *)
Lemma pass_memo i s :
  start_new_session i = false ->
  (forall t q, tech_questions s !! t = Some q ->
               tech_questions (fst (pass env i s)) !! t = Some q)
  /\ (forall t, generations t (snd (pass env i s))
                = if newly_stored t (tech_questions s)
                       (tech_questions (fst (pass env i s)))
                  then 1 else 0)
  /\ (forall t q, In (st_form t q) (snd (pass env i s)) ->
                  tech_questions (fst (pass env i s)) !! t = Some q).
Proof.
  intros Hnew.
  destruct (pass_questions_cases i s Hnew)
    as [[Hsame Hquiet] | (post & Hpost & Hout & Hstored)].
  - rewrite Hsame. repeat split.
    + auto.
    + intros t. now rewrite quiet_generations, newly_stored_same.
    + intros t q Hin. now apply quiet_no_form in Hin.
  - rewrite Hout, Hstored. clear Hout Hstored.
    pose proof (chat_output_quiet i) as Hchat.
    unfold form_output, generation_output, with_questions, shown_questions.
    rewrite <- (recorded_questions i s).
    set (s0 := recorded i s). set (tech := current_tech s0).
    destruct (tech_questions s0 !! tech) as [q0|] eqn:L.
    + repeat split.
      * auto.
      * intros t. rewrite !generations_app, newly_stored_same.
        cbn [generations].
        rewrite (quiet_generations t (chat_output i)) by assumption.
        rewrite (quiet_generations t post) by assumption.
        reflexivity.
      * intros t q Hin. apply in_app_or in Hin as [Hin | Hin];
          [now apply quiet_no_form in Hin |].
        apply in_app_or in Hin as [Hin | Hin];
          [| now apply quiet_no_form in Hin].
        cbn in Hin. destruct Hin as [Hin | [Hin | []]]; [discriminate |].
        injection Hin as <- <-. exact L.
    + set (g := generate_questions_for_tech env (completion_reply i) tech
                  (experience_of (candidate_data s0))).
      pose proof (generate_warnings_quiet (completion_reply i) tech
                    (experience_of (candidate_data s0))) as Hw.
      fold g in Hw. cbn [tech_questions set_tech_questions].
      repeat split.
      * intros t q Ht. rewrite lookup_insert_ne; [assumption | congruence].
      * intros t. rewrite !generations_app. cbn [generations app].
        rewrite (quiet_generations t (chat_output i)) by assumption.
        rewrite (quiet_generations t (snd g)) by assumption.
        rewrite (quiet_generations t post) by assumption.
        unfold newly_stored.
        destruct (String.eqb_spec tech t) as [<- | Hne].
        -- now rewrite L, lookup_insert_eq.
        -- rewrite lookup_insert_ne by assumption.
           now destruct (tech_questions s0 !! t).
      * intros t q Hin. apply in_app_or in Hin as [Hin | Hin];
          [now apply quiet_no_form in Hin |].
        apply in_app_or in Hin as [Hin | Hin];
          [| now apply quiet_no_form in Hin].
        apply in_app_or in Hin as [Hin | Hin].
        -- destruct Hin as [Hin | Hin]; [discriminate |].
           now apply quiet_no_form in Hin.
        -- cbn in Hin. destruct Hin as [Hin | [Hin | []]]; [discriminate |].
           injection Hin as <- <-. apply lookup_insert_eq.
Qed.

Lemma session_memo (inputs : list pass_input) :
  one_session inputs ->
  forall s,
  (forall t q, tech_questions s !! t = Some q ->
               tech_questions (fst (passes env inputs s)) !! t = Some q)
  /\ (forall t, generations t (snd (passes env inputs s))
                = if newly_stored t (tech_questions s)
                       (tech_questions (fst (passes env inputs s)))
                  then 1 else 0)
  /\ (forall t q, In (st_form t q) (snd (passes env inputs s)) ->
                  tech_questions (fst (passes env inputs s)) !! t = Some q).
Proof.
  induction 1 as [|i rest Hi Hrest IH]; intros s.
  - cbn [passes fst snd]. repeat split; auto.
    + intros t. cbn [generations]. now rewrite newly_stored_same.
    + intros t q [].
  - cbn [passes]. destruct (pass_memo i s Hi) as (M1 & G1 & F1).
    destruct (pass env i s) as [s1 o1]. cbn [fst snd] in *.
    destruct (IH s1) as (M2 & G2 & F2).
    destruct (passes env rest s1) as [s2 o2]. cbn [fst snd] in *.
    repeat split.
    + auto.
    + intros t. rewrite generations_app, G1, G2. unfold newly_stored.
      destruct (tech_questions s !! t) as [q|] eqn:L0.
      * now rewrite (M1 t q L0).
      * destruct (tech_questions s1 !! t) as [q1|] eqn:L1.
        -- now rewrite (M2 t q1 L1).
        -- now destruct (tech_questions s2 !! t).
    + intros t q Hin. apply in_app_or in Hin as [Hin | Hin]; auto.
Qed.

End Memoization.

(** C5: within one session a question set, once stored for a technology,
    stays as it is: it is not generated again and not overwritten. Every
    form shown for the technology shows the stored sequence, so two
    requests for the same technology see the same questions, and over the
    whole session there is one generation for a technology that got its
    questions in it, none for one that had them before or never was asked
    for. *)
Theorem C5_generated_once (env : environment) (inputs : list pass_input)
    (s : session_state) :
  one_session inputs ->
  let final := fst (passes env inputs s) in
  let out := snd (passes env inputs s) in
  (forall t q, tech_questions s !! t = Some q ->
               tech_questions final !! t = Some q /\ generations t out = 0)
  /\ (forall t, tech_questions s !! t = None ->
                generations t out <= 1 /\
                (generations t out = 1 <-> is_Some (tech_questions final !! t)))
  /\ (forall t q, In (st_form t q) out -> tech_questions final !! t = Some q)
  /\ (forall t q1 q2, In (st_form t q1) out -> In (st_form t q2) out -> q1 = q2).
Proof.
  intros Hone final out. subst final out.
  destruct (session_memo env inputs Hone s) as (Hkeep & Hgen & Hform).
  split; [| split; [| split]].
  - intros t q Ht. split; [now apply Hkeep |].
    rewrite Hgen. unfold newly_stored. now rewrite Ht.
  - intros t Ht. rewrite Hgen. unfold newly_stored. rewrite Ht.
    destruct (tech_questions (fst (passes env inputs s)) !! t) as [q|].
    + split; [lia |]. split; eauto.
    + split; [lia |]. split; [discriminate | intros [q Hq]; discriminate].
  - exact Hform.
  - intros t q1 q2 H1 H2. apply Hform in H1, H2. congruence.
Qed.

Lemma C5_generated_once_witness :
  one_session three_tech_session /\
  generations "Rust"
    (snd (passes without_key three_tech_session
                 (at_assessment ["Python"; "Rust"; "React"]))) = 1.
Proof.
  assert (Hone : one_session three_tech_session).
  { unfold one_session, three_tech_session. repeat constructor. }
  split; [exact Hone |].
  destruct (C5_generated_once without_key three_tech_session
              (at_assessment ["Python"; "Rust"; "React"]) Hone)
    as (_ & Hnew & _).
  apply (Hnew "Rust"); [reflexivity |].
  vm_compute. eauto.
Defined.

(** ** C4 and C6: the question source *)

Section QuestionSource.

Variable env : environment.

Lemma first_match_spec tech_lower table :
  match first_match tech_lower table with
  | Some qs =>
      exists key before after,
        table = before ++ (key, qs) :: after /\
        PyStr.contains key tech_lower = true /\
        Forall (fun entry => PyStr.contains (fst entry) tech_lower = false) before
  | None =>
      Forall (fun entry => PyStr.contains (fst entry) tech_lower = false) table
  end.
Proof.
  induction table as [|[key qs] rest IH]; cbn [first_match].
  - constructor.
  - destruct (PyStr.contains key tech_lower) eqn:E.
    + exists key, [], rest. repeat split; [assumption | constructor].
    + destruct (first_match tech_lower rest) as [qs'|].
      * destruct IH as (key' & before & after & -> & Hk & Hb).
        exists key', ((key, qs) :: before), after.
        repeat split; [assumption | now constructor].
      * now constructor.
Qed.

Lemma contains_false needle hay :
  PyStr.contains needle hay = false <-> ~ is_substring needle hay.
Proof.
  rewrite <- contains_spec. destruct (PyStr.contains needle hay); split;
    congruence.
Qed.

(** The fallback is taken without a credential and after a failed step. *)
Lemma generate_fallback reply technology experience_level :
  api_key env = "" \/ remote_step_fails env reply ->
  fst (generate_questions_for_tech env reply technology experience_level)
  = QList (map PStr (_get_fallback_questions technology)).
Proof.
  unfold generate_questions_for_tech, remote_step_fails, fallback_after.
  intros [Hkey | Hfail].
  - now rewrite Hkey.
  - destruct (negb (PyStr.truthy (api_key env))); [reflexivity |].
    destruct reply as [e | content]; [reflexivity |].
    destruct (json_loads env (PyStr.strip content)) as [v | | e];
      [now rewrite Hfail | contradiction | reflexivity].
Qed.

Lemma fallback_length technology :
  length (_get_fallback_questions technology) = 4.
Proof.
  unfold _get_fallback_questions.
  pose proof (first_match_spec (PyStr.lower technology) fallback_questions) as H.
  destruct (first_match (PyStr.lower technology) fallback_questions) as [qs|];
    [| reflexivity].
  destruct H as (key & before & after & E & _).
  assert (Hin : In (key, qs) fallback_questions).
  { rewrite E. apply in_or_app. right. now left. }
  cbn in Hin. decompose [or] Hin; try contradiction;
    match goal with H : (_, _) = (_, _) |- _ => injection H as _ <- end;
    reflexivity.
Qed.

Lemma first_match_first tech_lower before key qs after :
  Forall (fun entry => PyStr.contains (fst entry) tech_lower = false) before ->
  PyStr.contains key tech_lower = true ->
  first_match tech_lower (before ++ (key, qs) :: after) = Some qs.
Proof.
  intros Hb Hk. induction Hb as [|[k q] before Hk' _ IH]; cbn.
  - now rewrite Hk.
  - cbn in Hk'. now rewrite Hk'.
Qed.

Lemma first_match_none tech_lower table :
  Forall (fun entry => PyStr.contains (fst entry) tech_lower = false) table ->
  first_match tech_lower table = None.
Proof.
  induction 1 as [|[k q] table Hk _ IH]; cbn; [reflexivity |].
  cbn in Hk. now rewrite Hk.
Qed.

Lemma not_substring_forall technology (table : list (string * list string)) :
  Forall (fun entry => ~ is_substring (fst entry) (PyStr.lower technology)) table
  <-> Forall (fun entry =>
                PyStr.contains (fst entry) (PyStr.lower technology) = false) table.
Proof.
  split; intros H; induction H; constructor; try assumption;
    now apply contains_false.
Qed.

(** The first key found decides the questions. *)
Lemma fallback_first_key key qs technology :
  first_matching_key key qs technology ->
  _get_fallback_questions technology = qs.
Proof.
  intros (before & after & E & Hk & Hb). unfold _get_fallback_questions.
  rewrite E, (first_match_first _ before key qs after); [reflexivity | |].
  - now apply not_substring_forall.
  - now apply contains_spec.
Qed.

(** Without a key in the name, the questions are built around the name. *)
Lemma fallback_generic technology :
  no_matching_key technology ->
  _get_fallback_questions technology = generic_questions technology.
Proof.
  intros H. unfold _get_fallback_questions.
  rewrite first_match_none; [reflexivity |]. now apply not_substring_forall.
Qed.

Lemma generic_questions_name technology :
  Forall (is_substring technology) (generic_questions technology).
Proof.
  unfold generic_questions. repeat constructor; apply is_substring_middle.
Qed.

Lemma fallback_cases technology :
  (exists key qs, first_matching_key key qs technology) \/
  no_matching_key technology.
Proof.
  pose proof (first_match_spec (PyStr.lower technology) fallback_questions) as H.
  destruct (first_match (PyStr.lower technology) fallback_questions) as [qs|].
  - left. destruct H as (key & before & after & E & Hk & Hb).
    exists key, qs, before, after. repeat split.
    + exact E.
    + now apply contains_spec.
    + now apply not_substring_forall.
  - right. now apply not_substring_forall.
Qed.

End QuestionSource.

(** C4: without a credential, and when a step of the remote path raises,
    the question source returns the static fallback: four questions. If
    the lowered name holds a key of the table, they are the list of the
    first such key, as written (the four JavaScript questions for
    "JavaScript"); if it holds none, they are the four generic questions,
    each with the name inside ("Rust"). *)
Theorem C4_static_fallback (env : environment) (reply : remote_result)
    (technology : string) (experience_level : Z) :
  api_key env = "" \/ remote_step_fails env reply ->
  fst (generate_questions_for_tech env reply technology experience_level)
  = QList (map PStr (_get_fallback_questions technology))
  /\ length (_get_fallback_questions technology) = 4
  /\ (forall key qs, first_matching_key key qs technology ->
                     _get_fallback_questions technology = qs)
  /\ (no_matching_key technology ->
      _get_fallback_questions technology = generic_questions technology /\
      Forall (is_substring technology) (_get_fallback_questions technology))
  /\ ((exists key qs, first_matching_key key qs technology) \/
      no_matching_key technology)
  /\ api_key without_key = ""
  /\ generate_questions_for_tech without_key reply "JavaScript" 5
     = (QList (map PStr javascript_questions), [])
  /\ first_matching_key "javascript" javascript_questions "JavaScript"
  /\ no_matching_key "Rust"
  /\ fst (generate_questions_for_tech without_key reply "Rust" 5)
     = QList (map PStr (generic_questions "Rust")).
Proof.
  intros Hpath.
  split; [now apply generate_fallback |].
  split; [apply fallback_length |].
  split; [intros key qs; apply fallback_first_key |].
  split.
  { intros Hnone. rewrite (fallback_generic _ Hnone).
    split; [reflexivity | apply generic_questions_name]. }
  split; [apply fallback_cases |].
  split; [reflexivity |]. split; [reflexivity |]. split.
  { exists [("python", snd (nth 0 fallback_questions ("", [])))],
      (skipn 2 fallback_questions).
    split; [reflexivity |]. split.
    - apply contains_spec. reflexivity.
    - constructor; [| constructor]. apply contains_false. reflexivity. }
  split; [| reflexivity].
  apply not_substring_forall. repeat constructor.
Qed.

Lemma C4_static_fallback_witness :
  remote_step_fails with_key (RemoteRaises "timed out") /\
  fst (generate_questions_for_tech with_key (RemoteRaises "timed out") "Rust" 5)
  = QList (map PStr (generic_questions "Rust")).
Proof.
  split; [exact I |].
  destruct (C4_static_fallback with_key (RemoteRaises "timed out") "Rust" 5
              (or_intror I))
    as (Hfall & _ & _ & Hgen & _ & _ & _ & _ & Hrust & _).
  rewrite Hfall. now rewrite (proj1 (Hgen Hrust)).
Defined.

(** ** C6: how many questions *)

Lemma take_chars_length (n : nat) (s : string) :
  length (PyStr.chars (PyStr.take n s)) <= n.
Proof.
  revert s. induction n as [|n IH]; intros [|c s]; cbn; try lia.
  specialize (IH s). lia.
Qed.

Lemma slice5_length (v : pyval) (q : question_seq) :
  slice5 v = Some q -> q_len q <= 5.
Proof.
  destruct v; cbn [slice5]; try discriminate; intros H.
  - replace q with (QStr (PyStr.take 5 s)) by congruence.
    unfold q_len. cbn [q_items]. rewrite length_map. apply take_chars_length.
  - replace q with (QList (firstn 5 l)) by congruence.
    unfold q_len. cbn [q_items]. rewrite length_firstn. lia.
Qed.

(** C6, as stated, fails: with a credential and an empty reply the
    question source returns no question at all. *)
Lemma C6_empty_reply_gives_no_question :
  ~ (1 <= q_len (fst (generate_questions_for_tech with_key
                        (RemoteContent "") "Python" 3)) <= 5).
Proof. vm_compute. intros [H _]. inversion H. Qed.

(** C6 (amended): for every technology, experience level and reply, the
    question source returns at most five entries. On the fallback (no
    credential, or a step of the remote path raised) they are four
    strings. Otherwise they are the first five items of the decoded
    reply, or, when the reply is not JSON, its first five non-blank lines,
    trimmed; either may be empty. *)
Theorem C6_at_most_five (env : environment) (reply : remote_result)
    (technology : string) (experience_level : Z) :
  let result :=
    fst (generate_questions_for_tech env reply technology experience_level) in
  q_len result <= 5
  /\ (api_key env = "" \/ remote_step_fails env reply ->
      q_len result = 4 /\
      result = QList (map PStr (_get_fallback_questions technology)))
  /\ (forall content,
        api_key env <> "" -> reply = RemoteContent content ->
        (forall v q, json_loads env (PyStr.strip content) = JsonValue v ->
                     slice5 v = Some q -> result = q)
        /\ (json_loads env (PyStr.strip content) = JSONDecodeError ->
            result = QList (firstn 5 (map PStr
                              (nonblank_lines (PyStr.strip content))))))
  /\ q_len (fst (generate_questions_for_tech with_key (RemoteContent "[]")
                   technology experience_level)) = 0.
Proof.
  intros result. subst result.
  assert (Hfall : api_key env = "" \/ remote_step_fails env reply ->
                  fst (generate_questions_for_tech env reply technology
                         experience_level)
                  = QList (map PStr (_get_fallback_questions technology))).
  { apply generate_fallback. }
  assert (Hfour : q_len (QList (map PStr (_get_fallback_questions technology))) = 4).
  { unfold q_len. cbn. rewrite length_map. apply fallback_length. }
  split; [| split; [| split]].
  - unfold generate_questions_for_tech, fallback_after.
    destruct (negb (PyStr.truthy (api_key env))); cbn [fst]; [lia |].
    destruct reply as [e | content]; cbn [fst]; [lia |].
    destruct (json_loads env (PyStr.strip content)) as [v | | e]; cbn [fst].
    + destruct (slice5 v) as [q|] eqn:E; cbn [fst]; [| lia].
      now apply (slice5_length v).
    + unfold q_len. cbn. rewrite length_firstn. lia.
    + lia.
  - intros H. rewrite (Hfall H). now split.
  - intros content Hkey ->. apply truthy_true in Hkey.
    unfold generate_questions_for_tech. rewrite Hkey. cbn [negb].
    split.
    + intros v q -> ->. reflexivity.
    + intros ->. reflexivity.
  - reflexivity.
Qed.

(** ** Worked examples *)

Example lower_exit : PyStr.lower "I need to EXIT now" = "i need to exit now".
Proof. reflexivity. Qed.

Example split_commas :
  PyStr.split "," "Python, JavaScript,  , React"
  = ["Python"; " JavaScript"; "  "; " React"].
Proof. reflexivity. Qed.

Example strip_both_ends : PyStr.strip "  a b  " = "a b".
Proof. reflexivity. Qed.

Example email_with_subdomain : _validate_email "ada.l@mail.example.org" = true.
Proof. reflexivity. Qed.

Example email_one_letter_tld : _validate_email "a@b.c" = false.
Proof. reflexivity. Qed.

(** The scenario of the description: intake with "Python", two years, no
    credential; the four Python questions are shown; four answers move
    the cursor to 1, which is the length of the stack; the stage becomes
    completion and four answers are on record. *)
Example python_end_to_end :
  let final := fst (passes without_key python_session initial_state) in
  current_stage final = completion
  /\ current_tech_index final = 1
  /\ tech_stack_list final = ["Python"]
  /\ (answers <$> dict_get "Python" (responses_of (candidate_data final)))
     = Some four_answers
  /\ (questions <$> dict_get "Python" (responses_of (candidate_data final)))
     = Some (QList (map PStr (_get_fallback_questions "Python"))).
Proof. vm_compute. repeat split. Qed.

(** A form of blanks passes validation and leaves the session with an
    empty stack, in the assessment stage for good. *)
Example blank_stack_is_reachable :
  let s := fst (passes without_key
                  [begin 1; idle 2; submit_form whitespace_form 3; idle 4]
                  initial_state) in
  current_stage s = technical_assessment /\ tech_stack_list s = [].
Proof. vm_compute. now split. Qed.

(** Six lines of text that is not JSON: the first five are kept. *)
Example reply_as_lines :
  fst (generate_questions_for_tech with_key
         (RemoteContent "1. a
2. b

3. c
4. d
5. e
6. f") "Go" 1)
  = QList [PStr "1. a"; PStr "2. b"; PStr "3. c"; PStr "4. d"; PStr "5. e"].
Proof. reflexivity. Qed.

(** * Further properties of the code *)

(** ** The stage machine *)

Section StageMachine.

Variable env : environment.

Implicit Types (i : pass_input) (s : session_state).

Lemma chat_output_no_rerun i : ~ reruns (chat_output i).
Proof.
  unfold reruns, chat_output. destruct (said i); [| intros []].
  destruct (exit_requested i); intros [H | []]; discriminate.
Qed.

Lemma validation_errors_no_rerun f : ~ reruns (validation_errors f).
Proof.
  unfold reruns, validation_errors, _validate_form.
  destruct (negb (forallb PyStr.truthy _)); [intros [] |].
  destruct (desired_positions f); [intros [] |].
  destruct (negb (_validate_email (email f))); [| intros []].
  intros [H | []]. discriminate.
Qed.

Lemma generate_no_rerun reply technology experience_level :
  ~ reruns (snd (generate_questions_for_tech env reply technology
                   experience_level)).
Proof.
  unfold reruns, generate_questions_for_tech, fallback_after.
  destruct (negb (PyStr.truthy (api_key env))); [intros [] |].
  destruct reply as [e | content]; [intros [H | []]; discriminate |].
  destruct (json_loads env (PyStr.strip content)) as [v | | e];
    [destruct (slice5 v) | |]; cbn [snd In]; intuition discriminate.
Qed.

Lemma form_output_no_rerun i s : ~ reruns (form_output env i s).
Proof.
  unfold reruns, form_output, generation_output. intros H.
  apply in_app_or in H as [H | H].
  - destruct (tech_questions s !! current_tech s); [destruct H |].
    destruct H as [H | H]; [discriminate |].
    now apply generate_no_rerun in H.
  - destruct H as [H | [H | []]]; discriminate.
Qed.

Lemma reruns_app out1 out2 : reruns (out1 ++ out2) <-> reruns out1 \/ reruns out2.
Proof. unfold reruns. apply in_app_iff. Qed.

(** Everything a pass can do, case by case. *)
Lemma pass_outcome i s :
  (~ reruns (snd (pass env i s)) /\
   current_stage (fst (pass env i s)) = current_stage s /\
   current_tech_index (fst (pass env i s)) = current_tech_index s /\
   tech_stack_list (fst (pass env i s)) = tech_stack_list s /\
   candidate_data (fst (pass env i s)) = candidate_data s /\
   (tech_questions (fst (pass env i s)) = tech_questions s \/
    (current_stage s = technical_assessment /\
     current_tech_index s < length (tech_stack_list s) /\
     tech_questions (fst (pass env i s))
     = tech_questions (with_questions env i (recorded i s)))) /\
   conversation_history (fst (pass env i s))
   = conversation_history (recorded i s))
  \/ (exit_requested i = false /\ reruns (snd (pass env i s)) /\
      current_stage s = greeting /\ lets_begin i = true /\
      fst (pass env i s) = set_current_stage data_collection (recorded i s))
  \/ (exit_requested i = false /\ reruns (snd (pass env i s)) /\
      current_stage s = data_collection /\ form_submitted i = true /\
      form_ok (form_values i) = true /\
      fst (pass env i s) = assessment_opened i (recorded i s))
  \/ (exit_requested i = false /\ reruns (snd (pass env i s)) /\
      successful_submission env i s = true /\
      fst (pass env i s) = record_answers env i (recorded i s))
  \/ (exit_requested i = false /\ reruns (snd (pass env i s)) /\
      current_stage s = technical_assessment /\ tech_stack_list s <> [] /\
      length (tech_stack_list s) <= current_tech_index s /\
      fst (pass env i s) = set_current_stage completion (recorded i s))
  \/ (exit_requested i = false /\ reruns (snd (pass env i s)) /\
      current_stage s = completion /\ start_new_session i = true /\
      fst (pass env i s) = initial_state).
Proof.
  pose proof (chat_output_no_rerun i) as Hchat.
  assert (Hstay : forall out,
             ~ reruns out ->
             ~ reruns (chat_output i ++ out) /\
             current_stage (recorded i s) = current_stage s /\
             current_tech_index (recorded i s) = current_tech_index s /\
             tech_stack_list (recorded i s) = tech_stack_list s /\
             candidate_data (recorded i s) = candidate_data s /\
             (tech_questions (recorded i s) = tech_questions s \/
              (current_stage s = technical_assessment /\
               current_tech_index s < length (tech_stack_list s) /\
               tech_questions (recorded i s)
               = tech_questions (with_questions env i (recorded i s)))) /\
             conversation_history (recorded i s)
             = conversation_history (recorded i s)).
  { intros out Hout. rewrite reruns_app, recorded_stage, recorded_index,
      recorded_stack, recorded_candidate, recorded_questions. tauto. }
  assert (Hnil : ~ reruns []) by (intros []).
  destruct (exit_requested i) eqn:Hx.
  { left. rewrite pass_exit by assumption. cbn [fst snd].
    destruct (Hstay [] Hnil) as (_ & H). split; [| exact H].
    intros [H' | []]. discriminate. }
  destruct (current_stage s) eqn:Hg.
  - rewrite pass_greeting by assumption. destruct (lets_begin i).
    + right. left. cbn [fst snd]. repeat split; try reflexivity.
      apply reruns_app. right. right. now left.
    + left. cbn [fst snd]. apply Hstay. intros [H | []]. discriminate.
  - rewrite pass_data_collection by assumption.
    destruct (form_submitted i); [destruct (form_ok (form_values i)) |].
    + right. right. left. cbn [fst snd]. repeat split; try reflexivity.
      apply reruns_app. right. apply reruns_app. right. now left.
    + left. cbn [fst snd]. apply Hstay. rewrite reruns_app.
      intros [H | [H | []]]; [now apply validation_errors_no_rerun in H |].
      discriminate.
    + left. cbn [fst snd]. now apply Hstay.
  - assert (Hcases : tech_stack_list s = [] \/ tech_stack_list s <> []).
    { destruct (tech_stack_list s); [now left | now right]. }
    destruct Hcases as [He | Hne].
    { left. rewrite pass_assessment_empty by assumption. cbn [fst snd].
      apply Hstay. intros [H | []]. discriminate. }
    destruct (Nat.ltb_spec (current_tech_index s) (length (tech_stack_list s)))
      as [Hlt | Hge].
    + destruct (successful_submission env i s) eqn:Hok.
      * right. right. right. left.
        rewrite (pass_success env i s Hok) by assumption.
        repeat split; try reflexivity.
        apply successful_submission_spec in Hok as [(_ & _ & _ & Hsub) Hall].
        rewrite pass_assessment_form by assumption. cbn [snd].
        rewrite shown_questions_recorded, Hsub, Hall.
        apply reruns_app. right. apply reruns_app. right. now left.
      * left. rewrite pass_assessment_form by assumption.
        rewrite shown_questions_recorded.
        unfold successful_submission in Hok. rewrite Hg, Hx in Hok.
        apply Nat.ltb_lt in Hlt as Hlt'. rewrite Hlt' in Hok.
        cbn [negb andb] in Hok. rewrite Hok. cbn [fst snd].
        destruct (with_questions_frame env i (recorded i s))
          as (H1 & H2 & H3 & H4 & H5).
        rewrite H1, H2, H3, H4, H5.
        assert (Hout : ~ reruns
                  (form_output env i (recorded i s) ++
                   (if answers_submitted i
                    then
                      if forallb PyStr.truthy
                           (read_responses i (shown_questions env i s))
                      then [st_rerun]
                      else [st_error "Please answer all questions before submitting."]
                    else []))).
        { rewrite reruns_app. intros [H | H].
          - now apply form_output_no_rerun in H.
          - destruct (answers_submitted i); [| destruct H].
            cbn [andb] in Hok. rewrite Hok in H.
            destruct H as [H | []]. discriminate. }
        destruct (Hstay _ Hout) as (A & B & C & D & E & _).
        repeat (split; [assumption |]).
        split; [right; now repeat split | reflexivity].
    + right. right. right. right. left.
      rewrite pass_assessment_exhausted by assumption. cbn [fst snd].
      repeat split; try assumption.
      apply reruns_app. right. now left.
  - rewrite pass_completion by assumption. destruct (start_new_session i).
    + right. right. right. right. right. cbn [fst snd].
      repeat split. apply reruns_app. right. apply reruns_app. right. now left.
    + left. cbn [fst snd]. apply Hstay. cbn [app].
      intros [H | [H | []]]; discriminate.
Qed.

End StageMachine.

(** X1: what a pass can do to the stage. The stage stays, or moves one
    step forward on its trigger (the button in greeting, a valid form in
    data_collection, an exhausted and non-empty stack in
    technical_assessment), or "Start New Session" in completion puts the
    whole session back to its initial value. No other move exists, and none
    happens in a pass that leaves on an exit keyword. *)
Theorem X1_stage_transitions (env : environment) (i : pass_input)
    (s : session_state) :
  let s' := fst (pass env i s) in
  (current_stage s' = current_stage s
   \/ (current_stage s = greeting /\ current_stage s' = data_collection /\
       lets_begin i = true)
   \/ (current_stage s = data_collection /\
       current_stage s' = technical_assessment /\
       form_submitted i = true /\
       fst (fst (_validate_form (form_values i) s)) = true)
   \/ (current_stage s = technical_assessment /\ current_stage s' = completion /\
       tech_stack_list s <> [] /\
       length (tech_stack_list s) <= current_tech_index s)
   \/ (current_stage s = completion /\ start_new_session i = true /\
       s' = initial_state))
  /\ (current_stage s' <> current_stage s -> exit_requested i = false).
Proof.
  intros s'. subst s'.
  destruct (pass_outcome env i s)
    as [(_ & H & _) | [(Hx & _ & Hg & Hb & ->) | [(Hx & _ & Hg & Hf & Hok & ->)
        | [(Hx & _ & Hok & ->) | [(Hx & _ & Hg & Hne & Hle & ->)
        | (Hx & _ & Hg & Hnew & ->)]]]]].
  - split; [now left | congruence].
  - split; [| now intros _]. right. left. now repeat split.
  - split; [| now intros _]. right. right. left. rewrite validate_form_eq.
    now repeat split.
  - split; [| now intros _]. left.
    destruct (record_answers_frame env i (recorded i s)) as (H1 & _).
    now rewrite H1, recorded_stage.
  - split; [| now intros _]. right. right. right. left. now repeat split.
  - split; [| now intros _]. right. right. right. right. now repeat split.
Qed.

Lemma stage_rank_pass (env : environment) (i : pass_input) (s : session_state) :
  start_new_session i = false ->
  stage_rank (current_stage s) <= stage_rank (current_stage (fst (pass env i s)))
  /\ stage_rank (current_stage (fst (pass env i s)))
     <= stage_rank (current_stage s) + 1.
Proof.
  intros Hnew.
  destruct (pass_outcome env i s)
    as [(_ & H & _) | [(Hx & _ & Hg & Hb & ->) | [(Hx & _ & Hg & Hf & Hok & ->)
        | [(Hx & _ & Hok & ->) | [(Hx & _ & Hg & Hne & Hle & ->)
        | (Hx & _ & Hg & Hnew' & _)]]]]].
  - rewrite H. lia.
  - cbn. rewrite Hg. cbn. lia.
  - cbn. rewrite Hg. cbn. lia.
  - destruct (record_answers_frame env i (recorded i s)) as (H1 & _).
    rewrite H1, recorded_stage. lia.
  - cbn. rewrite Hg. cbn. lia.
  - congruence.
Qed.

(** X2: within one session the stage never goes back, and it moves at most
    one step per pass. *)
Theorem X2_no_back_transition (env : environment) (inputs : list pass_input)
    (s : session_state) :
  one_session inputs ->
  stage_rank (current_stage s)
  <= stage_rank (current_stage (fst (passes env inputs s)))
  /\ stage_rank (current_stage (fst (passes env inputs s)))
     <= stage_rank (current_stage s) + length inputs.
Proof.
  intros Hone. revert s. induction Hone as [|i rest Hi _ IH]; intros s.
  - cbn. lia.
  - cbn [passes length]. destruct (stage_rank_pass env i s Hi) as [H1 H2].
    destruct (pass env i s) as [s1 o1]. cbn [fst] in *.
    specialize (IH s1). destruct (passes env rest s1) as [s2 o2].
    cbn [fst] in *. lia.
Qed.

Lemma X2_no_back_transition_witness :
  one_session three_tech_session /\
  stage_rank technical_assessment
  <= stage_rank (current_stage
                   (fst (passes without_key three_tech_session
                                (at_assessment ["Python"; "Rust"; "React"])))).
Proof.
  assert (Hone : one_session three_tech_session).
  { unfold one_session, three_tech_session. repeat constructor. }
  split; [exact Hone |].
  exact (proj1 (X2_no_back_transition without_key three_tech_session
                  (at_assessment ["Python"; "Rust"; "React"]) Hone)).
Defined.

(** X3: a pass calls [st.rerun()] exactly when it has changed the stage or
    moved the cursor. *)
Theorem X3_rerun_iff_progress (env : environment) (i : pass_input)
    (s : session_state) :
  reruns (snd (pass env i s)) <->
  (current_stage (fst (pass env i s)) <> current_stage s \/
   current_tech_index (fst (pass env i s)) <> current_tech_index s).
Proof.
  destruct (pass_outcome env i s)
    as [(Hno & Hg & Hi & _) | [(Hx & Hr & Hg & Hb & E) | [(Hx & Hr & Hg & Hf & Hok & E)
        | [(Hx & Hr & Hok & E) | [(Hx & Hr & Hg & Hne & Hle & E)
        | (Hx & Hr & Hg & Hnew & E)]]]]].
  - rewrite Hg, Hi. tauto.
  - split; [intros _ | now intros _]. left. rewrite E, Hg. cbn. discriminate.
  - split; [intros _ | now intros _]. left. rewrite E, Hg. cbn. discriminate.
  - split; [intros _ | now intros _]. right. rewrite E.
    destruct (record_answers_frame env i (recorded i s)) as (_ & H2 & _).
    rewrite H2, recorded_index. lia.
  - split; [intros _ | now intros _]. left. rewrite E, Hg. cbn. discriminate.
  - split; [intros _ | now intros _]. left. rewrite E, Hg. cbn. discriminate.
Qed.

Lemma no_action_exit (i : pass_input) : no_action i -> exit_requested i = false.
Proof.
  intros (Hc & _). unfold exit_requested, said. now rewrite Hc.
Qed.

(** Without user action, only an exhausted assessment makes a pass rerun. *)
Lemma no_action_rerun (env : environment) (i : pass_input) (s : session_state) :
  no_action i ->
  reruns (snd (pass env i s)) ->
  current_stage s = technical_assessment /\ tech_stack_list s <> [] /\
  length (tech_stack_list s) <= current_tech_index s /\
  fst (pass env i s) = set_current_stage completion (recorded i s).
Proof.
  intros (Hc & Hb & Hf & Ha & Hn) Hr.
  destruct (pass_outcome env i s)
    as [(Hno & _) | [(_ & _ & _ & Hb' & _) | [(_ & _ & _ & Hf' & _)
        | [(_ & _ & Hok & _) | [(_ & _ & Hg & Hne & Hle & E)
        | (_ & _ & _ & Hn' & _)]]]]]; try congruence; try contradiction.
  - apply successful_submission_spec in Hok as [(_ & _ & _ & Ha') _]. congruence.
  - now repeat split.
Qed.

(** X4: reruns do not loop. Of two passes in a row in which the user does
    nothing, the second never asks for another run; the first does so only
    to move an exhausted assessment to completion. *)
Theorem X4_rerun_chain_ends (env : environment) (i1 i2 : pass_input)
    (s : session_state) :
  no_action i1 ->
  no_action i2 ->
  ~ reruns (snd (pass env i2 (fst (pass env i1 s))))
  /\ (reruns (snd (pass env i1 s)) <->
      current_stage s = technical_assessment /\ tech_stack_list s <> [] /\
      length (tech_stack_list s) <= current_tech_index s).
Proof.
  intros H1 H2. split.
  - intros Hr2.
    destruct (no_action_rerun env i2 _ H2 Hr2) as (Hg2 & Hne2 & Hle2 & _).
    destruct (pass_outcome env i1 s)
      as [(Hno & Hg & Hi & Hs & _) | Hmoved].
    + rewrite Hg, Hi, Hs in *. apply Hno.
      rewrite pass_assessment_exhausted;
        [| now apply no_action_exit | assumption..].
      apply reruns_app. right. now left.
    + assert (Hr1 : reruns (snd (pass env i1 s))) by (decompose [and or] Hmoved; assumption).
      destruct (no_action_rerun env i1 s H1 Hr1) as (_ & _ & _ & E).
      rewrite E in Hg2. discriminate.
  - split.
    + intros Hr. destruct (no_action_rerun env i1 s H1 Hr) as (? & ? & ? & _).
      now repeat split.
    + intros (Hg & Hne & Hle).
      rewrite pass_assessment_exhausted;
        [| now apply no_action_exit | assumption..].
      apply reruns_app. right. now left.
Qed.

Lemma X4_rerun_chain_ends_witness :
  no_action (idle 1) /\
  ~ reruns (snd (pass without_key (idle 2)
                      (fst (pass without_key (idle 1)
                                 (set_current_tech_index 1
                                    (at_assessment ["Python"])))))).
Proof.
  assert (H : forall t, no_action (idle t)) by (intros t; now repeat split).
  split; [apply H |].
  exact (proj1 (X4_rerun_chain_ends without_key (idle 1) (idle 2)
                  (set_current_tech_index 1 (at_assessment ["Python"]))
                  (H 1) (H 2))).
Defined.

(** ** What holds of every session *)

Section Invariant.

Variable env : environment.

Implicit Types (i : pass_input) (s : session_state).

Lemma dict_get_set_other {V : Type} (k t : string) (v : V)
    (d : list (string * V)) :
  k <> t -> dict_get t (dict_set k v d) = dict_get t d.
Proof.
  intros Hne. induction d as [|[k' v'] d IH]; cbn.
  - now rewrite (proj2 (String.eqb_neq k t) Hne).
  - destruct (String.eqb_spec k' k) as [-> | Hk]; cbn.
    + now rewrite (proj2 (String.eqb_neq k t) Hne).
    + now rewrite IH.
Qed.

Lemma firstn_succ_nth (l : list string) (k : nat) (d : string) :
  k < length l -> firstn (S k) l = firstn k l ++ [nth k l d].
Proof.
  revert k. induction l as [|x l IH]; intros k Hk; cbn in Hk; [lia |].
  destruct k as [|k]; [reflexivity |].
  cbn [firstn nth app]. rewrite (IH k) by lia. reflexivity.
Qed.

(** The question source never returns more than five entries. *)
Lemma generate_length reply technology experience_level :
  q_len (fst (generate_questions_for_tech env reply technology
                experience_level)) <= 5.
Proof.
  assert (Hfour : q_len (QList (map PStr (_get_fallback_questions technology)))
                  <= 5).
  { unfold q_len. cbn [q_items]. rewrite length_map, fallback_length. lia. }
  unfold generate_questions_for_tech, fallback_after.
  destruct (negb (PyStr.truthy (api_key env))); cbn [fst]; [assumption |].
  destruct reply as [e | content]; cbn [fst]; [assumption |].
  destruct (json_loads env (PyStr.strip content)) as [v | | e]; cbn [fst].
  - destruct (slice5 v) as [q|] eqn:E; cbn [fst]; [| assumption].
    now apply (slice5_length v).
  - unfold q_len. cbn [q_items]. rewrite length_firstn. lia.
  - assumption.
Qed.

Lemma with_questions_lookup i s :
  tech_questions (with_questions env i s) !! current_tech s
  = Some (shown_questions env i s).
Proof.
  unfold with_questions, shown_questions.
  destruct (tech_questions s !! current_tech s) eqn:L; [exact L |].
  cbn. apply lookup_insert_eq.
Qed.

Lemma with_questions_keeps i s t q :
  tech_questions s !! t = Some q ->
  tech_questions (with_questions env i s) !! t = Some q.
Proof.
  intros H. unfold with_questions.
  destruct (tech_questions s !! current_tech s) eqn:L; [exact H |].
  cbn. rewrite lookup_insert_ne; [exact H | congruence].
Qed.

Lemma with_questions_new i s t q :
  tech_questions (with_questions env i s) !! t = Some q ->
  tech_questions s !! t = Some q \/
  (t = current_tech s /\ q = shown_questions env i s).
Proof.
  intros H. destruct (String.eqb_spec (current_tech s) t) as [<- | Hne].
  - right. rewrite with_questions_lookup in H. split; congruence.
  - left. unfold with_questions in H.
    destruct (tech_questions s !! current_tech s); [exact H |].
    cbn in H. now rewrite lookup_insert_ne in H.
Qed.

Lemma shown_questions_length i s :
  stored_ok s -> q_len (shown_questions env i s) <= 5.
Proof.
  intros Hs. unfold shown_questions.
  destruct (tech_questions s !! current_tech s) as [q|] eqn:L.
  - exact (proj2 (Hs _ _ L)).
  - apply generate_length.
Qed.

Lemma current_tech_in_stack s :
  current_tech_index s < length (tech_stack_list s) ->
  In (current_tech s) (tech_stack_list s).
Proof. intros H. unfold current_tech. now apply nth_In. Qed.

Lemma stored_ok_with_questions i s :
  current_tech_index s < length (tech_stack_list s) ->
  stored_ok s -> stored_ok (with_questions env i s).
Proof.
  intros Hlt Hs t q H.
  destruct (with_questions_frame env i s) as (_ & _ & H3 & _). rewrite H3.
  apply with_questions_new in H as [H | [-> ->]].
  - exact (Hs _ _ H).
  - split; [now apply current_tech_in_stack | now apply shown_questions_length].
Qed.

Lemma recorded_ok_with_questions i s :
  recorded_ok s -> recorded_ok (with_questions env i s).
Proof.
  intros Hr t r H.
  destruct (with_questions_frame env i s) as (_ & H2 & H3 & H4 & _).
  rewrite H2, H3. rewrite H4 in H.
  destruct (Hr t r H) as (Hin & Hq & Hc).
  split; [assumption | split; [now apply with_questions_keeps | assumption]].
Qed.

Lemma pristine_initial : well_formed initial_state.
Proof. cbn. now repeat split. Qed.

Lemma well_formed_recorded i s : well_formed s -> well_formed (recorded i s).
Proof.
  unfold recorded. destruct (said i); [| auto].
  unfold well_formed. cbn [current_stage set_conversation_history].
  destruct (current_stage s); auto.
Qed.

(** A successful submission keeps the assessment in order. *)
Lemma assessment_ok_record_answers i s :
  current_tech_index s < length (tech_stack_list s) ->
  forallb PyStr.truthy (read_responses i (shown_questions env i s)) = true ->
  assessment_ok s -> assessment_ok (record_answers env i s).
Proof.
  intros Hlt Hall (Hv & Hle & Hs & Hr & Ha).
  pose proof (stored_ok_with_questions i s Hlt Hs) as Hs'.
  pose proof (recorded_ok_with_questions i s Hr) as Hr'.
  destruct (with_questions_frame env i s) as (_ & _ & H3 & H4 & _).
  assert (Hfirst : firstn (current_tech_index s + 1) (tech_stack_list s)
                   = firstn (current_tech_index s) (tech_stack_list s)
                     ++ [current_tech s]).
  { rewrite Nat.add_1_r. now apply firstn_succ_nth. }
  unfold assessment_ok, validated_profile, stored_ok, recorded_ok,
    answered_before_cursor, record_answers.
  cbn [candidate_data tech_stack_list current_tech_index tech_questions
       set_current_tech_index set_candidate_data set_tech_responses
       responses_of basic tech_responses].
  rewrite H3, Hfirst. split; [| split; [lia | split; [| split]]].
  - destruct Hv as (f & Hf & Hok & Hst). exists f. now repeat split.
  - intros t q H. rewrite <- H3. now apply Hs'.
  - intros t r H.
    destruct (String.eqb_spec (current_tech s) t) as [<- | Hne].
    + rewrite dict_get_set in H. injection H as <-.
      split; [apply in_or_app; right; now left |].
      split; [apply with_questions_lookup |].
      unfold response_entry, complete_entry. cbn [questions answers].
      split; [apply read_responses_length |].
      apply List.Forall_forall. now apply forallb_truthy_spec.
    + rewrite dict_get_set_other in H by assumption.
      destruct (Hr t r H) as (Hin & Hq & Hc).
      split; [apply in_or_app; now left |].
      split; [now apply with_questions_keeps | assumption].
  - intros t Hin. apply in_app_or in Hin as [Hin | [<- | []]].
    + destruct (String.eqb_spec (current_tech s) t) as [<- | Hne].
      * rewrite dict_get_set. eauto.
      * rewrite dict_get_set_other by assumption. now apply Ha.
    + rewrite dict_get_set. eauto.
Qed.

(** Every pass keeps the session well formed. *)
Lemma well_formed_pass i s : well_formed s -> well_formed (fst (pass env i s)).
Proof.
  intros Hw. pose proof (well_formed_recorded i s Hw) as Hw0.
  destruct (pass_outcome env i s)
    as [(_ & Hg & Hi & Hs & Hc & Hq & _) | [(_ & _ & Hg & _ & ->)
        | [(_ & _ & Hg & _ & Hok & ->)
        | [(_ & _ & Hok & ->) | [(_ & _ & Hg & Hne & Hle & ->)
        | (_ & _ & _ & _ & ->)]]]]].
  - destruct Hq as [Hq | (Hg' & Hlt & Hq)].
    + unfold well_formed, pristine, assessment_ok, validated_profile, stored_ok,
        recorded_ok, answered_before_cursor in *.
      now rewrite Hg, Hi, Hs, Hc, Hq.
    + unfold well_formed in *. rewrite Hg, Hg' in *.
      rewrite recorded_stage, Hg' in Hw0.
      destruct Hw0 as (Hv & Hle & Hst & Hr & Ha).
      assert (Hlt0 : current_tech_index (recorded i s)
                     < length (tech_stack_list (recorded i s))).
      { now rewrite recorded_index, recorded_stack. }
      pose proof (stored_ok_with_questions i _ Hlt0 Hst) as Hst'.
      pose proof (recorded_ok_with_questions i _ Hr) as Hr'.
      destruct (with_questions_frame env i (recorded i s))
        as (_ & W2 & W3 & W4 & _).
      unfold assessment_ok, validated_profile, stored_ok, recorded_ok,
        answered_before_cursor in *.
      rewrite W2, W3, W4 in *.
      rewrite recorded_index, recorded_stack, recorded_candidate in *.
      rewrite Hi, Hs, Hc, Hq.
      exact (conj Hv (conj Hle (conj Hst' (conj Hr' Ha)))).
  - unfold well_formed in *. rewrite recorded_stage, Hg in Hw0.
    cbn [current_stage set_current_stage]. exact Hw0.
  - unfold well_formed in *. rewrite recorded_stage, Hg in Hw0.
    destruct Hw0 as (Hc & Hq & Hi & Hs).
    unfold assessment_opened, saved.
    cbn [current_stage set_conversation_history set_current_stage].
    unfold assessment_ok, validated_profile, stored_ok, recorded_ok,
      answered_before_cursor.
    cbn [candidate_data tech_stack_list current_tech_index tech_questions
         set_conversation_history set_current_stage set_tech_stack_list
         set_candidate_data responses_of basic tech_responses].
    rewrite Hi, Hq. split; [| split; [lia | split; [| split]]].
    + exists (form_values i). now repeat split.
    + intros t q H. now rewrite lookup_empty in H.
    + intros t r H. discriminate.
    + intros t [].
  - apply successful_submission_spec in Hok as [(Hg & _ & Hlt & _) Hall].
    unfold well_formed in *.
    destruct (record_answers_frame env i (recorded i s)) as (R1 & _).
    rewrite R1, recorded_stage, Hg. rewrite recorded_stage, Hg in Hw0.
    apply assessment_ok_record_answers; try assumption.
    + now rewrite recorded_index, recorded_stack.
    + now rewrite shown_questions_recorded.
  - unfold well_formed in *. rewrite recorded_stage, Hg in Hw0.
    cbn [current_stage set_current_stage].
    split; [exact Hw0 |].
    cbn [current_tech_index tech_stack_list set_current_stage].
    rewrite recorded_index, recorded_stack.
    destruct Hw0 as (_ & Hle' & _).
    rewrite recorded_index, recorded_stack in Hle'. split; [lia | assumption].
  - apply pristine_initial.
Qed.

Lemma well_formed_passes (inputs : list pass_input) s :
  well_formed s -> well_formed (fst (passes env inputs s)).
Proof.
  revert s. induction inputs as [|i rest IH]; intros s Hw; [exact Hw |].
  cbn [passes]. pose proof (well_formed_pass i s Hw) as H1.
  destruct (pass env i s) as [s1 o1]. cbn [fst] in H1.
  specialize (IH s1 H1). now destruct (passes env rest s1).
Qed.

End Invariant.

(** X5: whatever the inputs and the service did, a session whose stage is
    completion has a non-empty tech stack, the cursor at its end, and for
    every declared technology an entry on record with one non-empty answer
    per question, the questions being the ones stored for it. *)
Theorem X5_completion_means_all_answered (env : environment)
    (inputs : list pass_input) :
  let s := fst (passes env inputs initial_state) in
  current_stage s = completion ->
  tech_stack_list s <> []
  /\ current_tech_index s = length (tech_stack_list s)
  /\ forall t, In t (tech_stack_list s) ->
       exists r, dict_get t (responses_of (candidate_data s)) = Some r /\
                 complete_entry r /\
                 tech_questions s !! t = Some (questions r).
Proof.
  intros s Hg. subst s.
  pose proof (well_formed_passes env inputs initial_state pristine_initial) as Hw.
  unfold well_formed in Hw. rewrite Hg in Hw.
  destruct Hw as ((_ & _ & _ & Hr & Ha) & Hend & Hne).
  split; [assumption |]. split; [assumption |].
  intros t Hin.
  unfold answered_before_cursor in Ha. rewrite Hend, firstn_all in Ha.
  destruct (Ha t Hin) as [r Hget]. exists r.
  destruct (Hr t r Hget) as (_ & Hq & Hc).
  exact (conj Hget (conj Hc Hq)).
Qed.

Lemma X5_completion_means_all_answered_witness :
  current_stage (fst (passes without_key python_session initial_state))
  = completion /\
  exists r, dict_get "Python"
              (responses_of
                 (candidate_data
                    (fst (passes without_key python_session initial_state))))
            = Some r /\ complete_entry r.
Proof.
  assert (Hg : current_stage (fst (passes without_key python_session
                                          initial_state)) = completion)
    by (vm_compute; reflexivity).
  split; [exact Hg |].
  destruct (X5_completion_means_all_answered without_key python_session Hg)
    as (_ & _ & Hall).
  destruct (Hall "Python") as (r & Hr & Hc & _).
  - vm_compute. now left.
  - now exists r.
Defined.

(** X6: a profile is on record only in the assessment and completion
    stages, and it is always one that passed validation: no required text
    is empty, a position is chosen, the e-mail has the accepted shape; the
    tech stack in use is the one derived from its raw text. *)
Theorem X6_profile_on_record_is_valid (env : environment)
    (inputs : list pass_input) (f : intake_form) :
  let s := fst (passes env inputs initial_state) in
  basic (candidate_data s) = Some f ->
  fst (fst (_validate_form f s)) = true
  /\ full_name f <> "" /\ phone_number f <> "" /\ current_location f <> ""
  /\ tech_stack f <> "" /\ desired_positions f <> []
  /\ email_shape (email f)
  /\ tech_stack_list s = parse_tech_stack (tech_stack f)
  /\ (current_stage s = technical_assessment \/ current_stage s = completion).
Proof.
  intros s Hf. subst s.
  pose proof (well_formed_passes env inputs initial_state pristine_initial) as Hw.
  unfold well_formed in Hw. rewrite validate_form_eq. cbn [fst].
  set (s := fst (passes env inputs initial_state)) in *.
  assert (Hv : validated_profile s /\
               (current_stage s = technical_assessment \/
                current_stage s = completion)).
  { destruct (current_stage s).
    - destruct Hw as (Hc & _). rewrite Hc in Hf. discriminate.
    - destruct Hw as (Hc & _). rewrite Hc in Hf. discriminate.
    - destruct Hw as (Hv & _). split; [assumption | now left].
    - destruct Hw as ((Hv & _) & _). split; [assumption | now right]. }
  destruct Hv as ((f' & Hf' & Hok & Hst) & Hstage).
  assert (f' = f) by congruence. subst f'.
  pose proof (proj1 (form_ok_spec f) Hok) as (H1 & H2 & H3 & H4 & H5 & H6 & H7).
  apply validate_email_spec in H7.
  exact (conj Hok (conj H1 (conj H3 (conj H4 (conj H5 (conj H6
           (conj H7 (conj Hst Hstage)))))))).
Qed.

Lemma X6_profile_on_record_is_valid_witness :
  basic (candidate_data (fst (passes without_key python_session initial_state)))
  = Some python_form /\
  email_shape (email python_form).
Proof.
  assert (H : basic (candidate_data
                       (fst (passes without_key python_session initial_state)))
              = Some python_form) by (vm_compute; reflexivity).
  split; [exact H |].
  destruct (X6_profile_on_record_is_valid without_key python_session
              python_form H) as (_ & _ & _ & _ & _ & _ & He & _).
  exact He.
Defined.

(** X7: at every moment of every session the cursor is within the tech
    stack; before the intake is accepted nothing is stored at all; and the
    stored question sets are those of declared technologies, five entries
    at most each. *)
Theorem X7_cursor_and_stores (env : environment) (inputs : list pass_input) :
  let s := fst (passes env inputs initial_state) in
  current_tech_index s <= length (tech_stack_list s)
  /\ (current_stage s = greeting \/ current_stage s = data_collection ->
      candidate_data s = empty_candidate /\ tech_questions s = ∅ /\
      tech_stack_list s = [] /\ current_tech_index s = 0)
  /\ (forall t q, tech_questions s !! t = Some q ->
                  In t (tech_stack_list s) /\ q_len q <= 5).
Proof.
  intros s. subst s.
  pose proof (well_formed_passes env inputs initial_state pristine_initial) as Hw.
  unfold well_formed in Hw.
  set (s := fst (passes env inputs initial_state)) in *.
  destruct (current_stage s) eqn:Hg.
  - destruct Hw as (Hc & Hq & Hi & Hs). rewrite Hi, Hs, Hq.
    split; [cbn; lia |]. split; [now intros _ |].
    intros t q H. now rewrite lookup_empty in H.
  - destruct Hw as (Hc & Hq & Hi & Hs). rewrite Hi, Hs, Hq.
    split; [cbn; lia |]. split; [now intros _ |].
    intros t q H. now rewrite lookup_empty in H.
  - destruct Hw as (_ & Hle & Hst & _).
    split; [assumption |]. split; [intros [H | H]; discriminate | exact Hst].
  - destruct Hw as ((_ & Hle & Hst & _) & _).
    split; [assumption |]. split; [intros [H | H]; discriminate | exact Hst].
Qed.

(** X8: an entry on record is always for a technology the cursor has
    passed; it holds exactly the questions stored for that technology, one
    answer per question, and no empty answer. *)
Theorem X8_entries_on_record (env : environment) (inputs : list pass_input)
    (t : string) (r : tech_response) :
  let s := fst (passes env inputs initial_state) in
  dict_get t (responses_of (candidate_data s)) = Some r ->
  In t (firstn (current_tech_index s) (tech_stack_list s))
  /\ tech_questions s !! t = Some (questions r)
  /\ length (answers r) = q_len (questions r)
  /\ Forall (fun a => a <> "") (answers r).
Proof.
  intros s Hr. subst s.
  pose proof (well_formed_passes env inputs initial_state pristine_initial) as Hw.
  unfold well_formed in Hw.
  set (s := fst (passes env inputs initial_state)) in *.
  assert (Hrec : recorded_ok s).
  { destruct (current_stage s).
    - destruct Hw as (Hc & _). rewrite Hc in Hr. discriminate.
    - destruct Hw as (Hc & _). rewrite Hc in Hr. discriminate.
    - now destruct Hw as (_ & _ & _ & H & _).
    - now destruct Hw as ((_ & _ & _ & H & _) & _). }
  destruct (Hrec t r Hr) as (H1 & H2 & [H3 H4]).
  exact (conj H1 (conj H2 (conj H3 H4))).
Qed.

Lemma X8_entries_on_record_witness :
  exists r,
    dict_get "Python"
      (responses_of
         (candidate_data (fst (passes without_key python_session initial_state))))
    = Some r /\
    length (answers r) = q_len (questions r).
Proof.
  eexists. split; [vm_compute; reflexivity |].
  refine (proj1 (proj2 (proj2
    (X8_entries_on_record without_key python_session "Python" _ _)))).
  vm_compute. reflexivity.
Defined.

(** ** The assessment can always be finished *)

Lemma nth_seq_self {A : Type} (d : A) (l : list A) :
  map (fun k => nth k l d) (seq 0 (length l)) = l.
Proof.
  induction l as [|a l IH]; [reflexivity |].
  cbn [length seq map nth]. rewrite <- seq_shift, map_map. cbn [nth].
  now rewrite IH.
Qed.

(** With one text area per question, the answers read are the values of
    the text areas. *)
Lemma read_filled (i : pass_input) (q : question_seq) :
  length (answer_boxes i) = q_len q ->
  read_responses i q = answer_boxes i.
Proof. intros H. unfold read_responses. rewrite <- H. apply nth_seq_self. Qed.

Lemma Forall_truthy (l : list string) :
  Forall (fun a => a <> "") l <-> forallb PyStr.truthy l = true.
Proof.
  rewrite forallb_truthy_spec, List.Forall_forall. reflexivity.
Qed.

Lemma well_formed_shown_length (env : environment) (i : pass_input)
    (s : session_state) :
  well_formed s -> current_stage s = technical_assessment ->
  q_len (shown_questions env i s) <= 5.
Proof.
  intros Hw Hg. unfold well_formed in Hw. rewrite Hg in Hw.
  destruct Hw as (_ & _ & Hst & _). now apply shown_questions_length.
Qed.



(** X9: in any session, the assessment form has five text areas at most,
    whatever the question source returned. When it is submitted with one
    value per text area, the answers read are these values, and the form
    is accepted exactly when none of them is empty: then the cursor moves
    by one, the stage stays, the questions shown and the values typed are
    on record under the technology's name, and the script asks for another
    run. *)
Theorem X9_filled_form_is_accepted (env : environment)
    (inputs : list pass_input) (i : pass_input) :
  let s := fst (passes env inputs initial_state) in
  let q := shown_questions env i s in
  let s' := fst (pass env i s) in
  form_submission i s ->
  length (answer_boxes i) = q_len q ->
  q_len q <= 5
  /\ read_responses i q = answer_boxes i
  /\ (Forall (fun a => a <> "") (answer_boxes i) <->
      current_tech_index s' = current_tech_index s + 1)
  /\ (Forall (fun a => a <> "") (answer_boxes i) ->
      current_stage s' = technical_assessment /\
      dict_get (current_tech s) (responses_of (candidate_data s'))
      = Some {| questions := q; answers := answer_boxes i |} /\
      reruns (snd (pass env i s))).
Proof.
  intros s q s' Hsub Hlen. subst q s'.
  pose proof (well_formed_passes env inputs initial_state pristine_initial) as Hw.
  fold s in Hw. pose proof Hsub as (Hg & Hx & Hlt & Hans).
  pose proof (read_filled i _ Hlen) as Hread.
  split; [now apply well_formed_shown_length |]. split; [exact Hread |].
  split; [split |].
  - intros Hall. apply Forall_truthy in Hall. rewrite <- Hread in Hall.
    now destruct (submission_recorded env i s Hsub Hall) as (_ & Hi & _).
  - intros Hidx. apply Forall_truthy. rewrite <- Hread.
    destruct (forallb PyStr.truthy
                (read_responses i (shown_questions env i s))) eqn:E;
      [reflexivity |].
    rewrite (pass_rejected env i s Hsub E) in Hidx. cbn [fst] in Hidx.
    destruct (with_questions_frame env i (recorded i s)) as (_ & H2 & _).
    rewrite H2, recorded_index in Hidx. lia.
  - intros Hall. apply Forall_truthy in Hall. rewrite <- Hread in Hall.
    destruct (submission_recorded env i s Hsub Hall) as (Hd & _ & Hst).
    split; [exact Hst |]. split.
    + rewrite Hd. unfold response_entry. now rewrite Hread.
    + rewrite (pass_assessment_form env i s Hx Hg Hlt). cbn [snd].
      rewrite shown_questions_recorded, Hans, Hall.
      apply reruns_app. right. apply reruns_app. right. now left.
Qed.

Lemma X9_filled_form_is_accepted_witness :
  current_tech_index
    (fst (pass without_key (submit_answers four_answers (RemoteRaises "") 5)
               (fst (passes without_key
                       [begin 1; idle 2; submit_form python_form 3; idle 4]
                       initial_state)))) = 1
  /\ dict_get "Python"
       (responses_of
          (candidate_data
             (fst (pass without_key
                     (submit_answers four_answers (RemoteRaises "") 5)
                     (fst (passes without_key
                             [begin 1; idle 2; submit_form python_form 3; idle 4]
                             initial_state))))))
     = Some {| questions := QList (map PStr python_questions);
               answers := four_answers |}.
Proof.
  destruct (X9_filled_form_is_accepted without_key
              [begin 1; idle 2; submit_form python_form 3; idle 4]
              (submit_answers four_answers (RemoteRaises "") 5))
    as (_ & _ & Hiff & Hdone).
  - split; [reflexivity |]. split; [reflexivity |].
    split; [vm_compute; lia | reflexivity].
  - reflexivity.
  - assert (Hall : Forall (fun a => a <> "") four_answers).
    { repeat constructor; discriminate. }
    split; [exact (proj1 Hiff Hall) |].
    exact (proj1 (proj2 (Hdone Hall))).
Defined.






(** ** The conversation history *)

Lemma recorded_history (i : pass_input) (s : session_state) :
  conversation_history (recorded i s)
  = conversation_history s
    ++ match said i with
       | Some m => [user_entry m (now i)]
       | None => []
       end.
Proof.
  unfold recorded. destruct (said i); [reflexivity | now rewrite app_nil_r].
Qed.

Lemma pass_history (env : environment) (i : pass_input) (s : session_state) :
  (current_stage s = completion /\ exit_requested i = false /\
   start_new_session i = true /\ fst (pass env i s) = initial_state)
  \/ conversation_history (fst (pass env i s))
     = conversation_history s ++ added_entries i s.
Proof.
  unfold added_entries. destruct (exit_requested i) eqn:Hx.
  { right. rewrite pass_exit by assumption. cbn [fst negb andb].
    rewrite ?app_nil_r; apply recorded_history. }
  destruct (current_stage s) eqn:Hg; cbn [negb andb].
  - right. rewrite pass_greeting by assumption. cbn [fst].
    destruct (lets_begin i); cbn; rewrite ?app_nil_r; apply recorded_history.
  - rewrite pass_data_collection by assumption. right.
    destruct (form_submitted i); [destruct (form_ok (form_values i)) |];
      cbn [fst andb].
    + unfold assessment_opened. cbn. rewrite recorded_history.
      now rewrite <- app_assoc.
    + rewrite ?app_nil_r; apply recorded_history.
    + rewrite ?app_nil_r; apply recorded_history.
  - right.
    assert (E : conversation_history (fst (pass env i s))
                = conversation_history (recorded i s)).
    { destruct (pass_outcome env i s)
        as [(_ & _ & _ & _ & _ & _ & H) | [(_ & _ & Hg' & _) | [(_ & _ & Hg' & _)
            | [(_ & _ & _ & ->) | [(_ & _ & _ & _ & _ & ->)
            | (_ & _ & Hg' & _)]]]]]; try congruence; try reflexivity.
      unfold record_answers. cbn.
      now destruct (with_questions_frame env i (recorded i s))
        as (_ & _ & _ & _ & H5). }
    rewrite E. rewrite ?app_nil_r; apply recorded_history.
  - rewrite pass_completion by assumption. destruct (start_new_session i).
    + left. now repeat split.
    + right. cbn [fst]. rewrite ?app_nil_r; apply recorded_history.
Qed.

Lemma added_entries_ok (i : pass_input) (s : session_state) :
  length (added_entries i s) <= 2 /\ Forall entry_ok (added_entries i s).
Proof.
  unfold added_entries. split.
  - rewrite length_app. destruct (said i); destruct (_ && _); cbn; lia.
  - apply Forall_app. split.
    + unfold said. destruct (chat_input i) as [m|]; [| constructor].
      destruct m as [|c m]; cbn; [constructor |].
      constructor; [| constructor]. left. split; [reflexivity | discriminate].
    + destruct (_ && _); [| constructor].
      constructor; [| constructor]. right. now split.
Qed.

(** X11: the history is append-only. A pass leaves the entries it found in
    place and adds at most two: the user's message if one was sent, and the
    system entry when a valid intake form opens the assessment. The only
    way to lose entries is "Start New Session" on the completion screen,
    which clears the whole session. *)
Theorem X11_history_append_only (env : environment) (i : pass_input)
    (s : session_state) :
  (current_stage s = completion /\ exit_requested i = false /\
   start_new_session i = true /\ fst (pass env i s) = initial_state)
  \/ (conversation_history (fst (pass env i s))
      = conversation_history s ++ added_entries i s
      /\ length (added_entries i s) <= 2
      /\ Forall entry_ok (added_entries i s)).
Proof.
  destruct (pass_history env i s) as [H | H]; [now left | right].
  destruct (added_entries_ok i s) as [H1 H2]. now repeat split.
Qed.

Lemma history_ok_passes (env : environment) (inputs : list pass_input)
    (s : session_state) :
  Forall entry_ok (conversation_history s) ->
  Forall entry_ok (conversation_history (fst (passes env inputs s))).
Proof.
  revert s. induction inputs as [|i rest IH]; intros s Hs; [exact Hs |].
  cbn [passes].
  assert (H1 : Forall entry_ok (conversation_history (fst (pass env i s)))).
  { destruct (pass_history env i s) as [(_ & _ & _ & ->) | ->].
    - constructor.
    - apply Forall_app. split; [assumption | apply added_entries_ok]. }
  destruct (pass env i s) as [s1 o1]. cbn [fst] in H1.
  specialize (IH s1 H1). now destruct (passes env rest s1).
Qed.

Lemma fold_context (l : list history_entry) (acc : string) :
  fold_left (fun context entry => (context ++ context_line entry)%string) l acc
  = (acc ++ concat_lines (map context_line l))%string.
Proof.
  revert acc. induction l as [|e l IH]; intros acc; cbn [fold_left map concat_lines].
  - now rewrite append_empty_r.
  - now rewrite IH, append_assoc.
Qed.

Lemma context_line_plain (e : history_entry) :
  entry_ok e -> context_line e = plain_line e.
Proof.
  unfold context_line, plain_line. now intros [[-> _] | [-> _]].
Qed.

Lemma in_py_last {A : Type} (n : nat) (l : list A) (x : A) :
  In x (py_last n l) -> In x l.
Proof.
  unfold py_last. generalize (length l - n). intros k. revert l.
  induction k as [|k IH]; intros [|y l]; cbn; auto.
Qed.

Lemma py_last_length {A : Type} (n : nat) (l : list A) :
  length (py_last n l) = Nat.min n (length l).
Proof. unfold py_last. rewrite length_skipn. lia. Qed.

(** X12: in every session each history entry is a non-empty user message
    or the system note of the intake, and [get_conversation_context]
    renders the ten most recent entries, oldest first, one line each:
    "USER: " or "SYSTEM: " followed by the message and a newline. *)
Theorem X12_conversation_context (env : environment)
    (inputs : list pass_input) :
  let s := fst (passes env inputs initial_state) in
  Forall entry_ok (conversation_history s)
  /\ get_conversation_context s
     = concat_lines (map plain_line (py_last 10 (conversation_history s)))
  /\ length (py_last 10 (conversation_history s))
     = Nat.min 10 (length (conversation_history s))
  /\ get_conversation_context initial_state = "".
Proof.
  intros s. subst s.
  assert (Hok : Forall entry_ok
                  (conversation_history (fst (passes env inputs initial_state)))).
  { apply history_ok_passes. constructor. }
  split; [exact Hok |]. split; [| split; [apply py_last_length | reflexivity]].
  unfold get_conversation_context. rewrite fold_context. cbn [append].
  f_equal. apply map_ext_in. intros e He. apply context_line_plain.
  apply in_py_last in He. rewrite List.Forall_forall in Hok. now apply Hok.
Qed.

(** X13: entries older than the last ten do not show in the context. *)
Theorem X13_context_window (s1 s2 : session_state)
    (older : list history_entry) :
  10 <= length (conversation_history s1) ->
  conversation_history s2 = older ++ conversation_history s1 ->
  get_conversation_context s2 = get_conversation_context s1.
Proof.
  intros Hlen E. unfold get_conversation_context, py_last. rewrite E.
  rewrite length_app, skipn_app.
  replace (length older + length (conversation_history s1) - 10 - length older)
    with (length (conversation_history s1) - 10) by lia.
  rewrite skipn_all2 by lia. reflexivity.
Qed.

Lemma X13_context_window_witness :
  get_conversation_context
    (set_conversation_history
       (user_entry "old" 0 :: repeat (user_entry "hi" 1) 10) initial_state)
  = get_conversation_context
      (set_conversation_history (repeat (user_entry "hi" 1) 10) initial_state).
Proof.
  apply (X13_context_window
           (set_conversation_history (repeat (user_entry "hi" 1) 10) initial_state)
           (set_conversation_history
              (user_entry "old" 0 :: repeat (user_entry "hi" 1) 10) initial_state)
           [user_entry "old" 0]).
  - cbn. lia.
  - reflexivity.
Defined.

(** ** More on the e-mail check *)

Lemma forallb_impl (p q : ascii -> bool) (s : string) :
  (forall c, p c = true -> q c = true) ->
  PyStr.forallb p s = true -> PyStr.forallb q s = true.
Proof.
  intros Hpq. induction s as [|c s IH]; cbn; [reflexivity |].
  intros H. apply andb_true_iff in H as [Hc Hs].
  now rewrite (Hpq c Hc), (IH Hs).
Qed.

Lemma count_char_append (c : ascii) (s t : string) :
  count_char c (s ++ t) = count_char c s + count_char c t.
Proof. induction s as [|d s IH]; cbn; [reflexivity | rewrite IH; lia]. Qed.

Lemma count_char_none (c : ascii) (s : string) :
  PyStr.forallb (fun d => negb (Ascii.eqb d c)) s = true -> count_char c s = 0.
Proof.
  induction s as [|d s IH]; cbn; [reflexivity |].
  intros H. apply andb_true_iff in H as [Hd Hs].
  apply negb_true_iff in Hd. now rewrite Hd, (IH Hs).
Qed.

(** The characters of the three classes: none is white space or an at sign. *)
Lemma local_char_plain (c : ascii) :
  local_char c = true ->
  negb (PyStr.isspace c) = true /\ negb (Ascii.eqb c "@") = true.
Proof.
  destruct c as [[] [] [] [] [] [] [] []]; vm_compute; intros H;
    try discriminate H; now split.
Qed.

Lemma domain_char_local (c : ascii) : domain_char c = true -> local_char c = true.
Proof.
  destruct c as [[] [] [] [] [] [] [] []]; vm_compute; intros H;
    try discriminate H; reflexivity.
Qed.

Lemma alpha_char_local (c : ascii) : alpha_char c = true -> local_char c = true.
Proof.
  destruct c as [[] [] [] [] [] [] [] []]; vm_compute; intros H;
    try discriminate H; reflexivity.
Qed.

(** The text [local@domain.tld] of an accepted address. *)
Lemma email_body_facts (loc dom tld : string) :
  PyStr.forallb local_char loc = true ->
  PyStr.forallb domain_char dom = true ->
  PyStr.forallb alpha_char tld = true ->
  loc <> "" -> dom <> "" -> 2 <= String.length tld ->
  let body := (loc ++ "@" ++ dom ++ "." ++ tld)%string in
  count_char "@" body = 1 /\ no_space body /\ 6 <= String.length body.
Proof.
  intros Hl Hd Ht Hln Hdn Htn body. subst body.
  apply (forallb_impl _ _ _ domain_char_local) in Hd.
  apply (forallb_impl _ _ _ alpha_char_local) in Ht.
  assert (Hat : forall s, PyStr.forallb local_char s = true ->
                          count_char "@" s = 0).
  { intros s Hs. apply count_char_none.
    apply (forallb_impl local_char); [| assumption].
    intros c Hc. now apply local_char_plain. }
  assert (Hsp : forall s, PyStr.forallb local_char s = true -> no_space s).
  { intros s Hs. unfold no_space.
    apply (forallb_impl local_char); [| assumption].
    intros c Hc. now apply local_char_plain. }
  split; [| split].
  - rewrite !count_char_append, (Hat loc Hl), (Hat dom Hd), (Hat tld Ht).
    reflexivity.
  - unfold no_space in *. rewrite !forallb_append.
    rewrite (Hsp loc Hl), (Hsp dom Hd), (Hsp tld Ht). reflexivity.
  - rewrite !append_length. cbn [String.length].
    destruct loc; [congruence |]. destruct dom; [congruence |].
    cbn [String.length]. lia.
Qed.

(** X14: an address that passes [_validate_email] is, up to one final
    newline, a text of at least six characters with exactly one at sign
    and no white space. *)
Theorem X14_accepted_email_form (e : string) :
  _validate_email e = true ->
  exists body,
    (e = body \/ e = (body ++ String Re.newline "")%string)
    /\ count_char "@" body = 1
    /\ no_space body
    /\ 6 <= String.length body.
Proof.
  intros H. apply validate_email_spec in H
    as (loc & dom & tld & He & Hln & Hl & Hdn & Hd & Htn & Ht).
  exists (loc ++ "@" ++ dom ++ "." ++ tld)%string.
  split; [| now apply email_body_facts].
  destruct He as [-> | ->]; [now left | right].
  now rewrite !append_assoc.
Qed.

Lemma X14_accepted_email_form_witness :
  exists body,
    ("a@b.co" = body \/ "a@b.co" = (body ++ String Re.newline "")%string)
    /\ count_char "@" body = 1.
Proof.
  destruct (X14_accepted_email_form "a@b.co" eq_refl) as (body & H1 & H2 & _).
  now exists body.
Defined.

Lemma append_last_inj (s t : string) (c : ascii) :
  (s ++ String c "")%string = (t ++ String c "")%string -> s = t.
Proof.
  revert t. induction s as [|a s IH]; intros [|b t]; cbn; intros H.
  - reflexivity.
  - injection H as _ H. destruct t; discriminate.
  - injection H as _ H. destruct s; discriminate.
  - injection H as -> H. now rewrite (IH t H).
Qed.

(** X15: the [$] of the pattern lets one final newline through, and only
    one: if a text matches the pattern itself, the address passes with or
    without a newline after it, and fails with two. *)
Theorem X15_trailing_newline (e : string) :
  Re.fullmatch email_pattern e = true ->
  _validate_email e = true
  /\ _validate_email (e ++ String Re.newline "") = true
  /\ _validate_email (e ++ String Re.newline (String Re.newline "")) = false.
Proof.
  intros H. apply fullmatch_spec in H. pose proof H as Hm.
  apply email_pattern_spec in H
    as (loc & dom & tld & -> & Hln & Hl & Hdn & Hd & Htn & Ht).
  assert (Hshape : forall suffix,
             suffix = "" \/ suffix = String Re.newline "" ->
             _validate_email ((loc ++ "@" ++ dom ++ "." ++ tld) ++ suffix) = true).
  { intros suffix Hs. apply validate_email_spec. exists loc, dom, tld.
    split; [| now repeat split].
    destruct Hs as [-> | ->]; [left | right].
    - now rewrite append_empty_r.
    - now rewrite !append_assoc. }
  split; [| split].
  - rewrite <- (append_empty_r (loc ++ "@" ++ dom ++ "." ++ tld)).
    apply Hshape. now left.
  - apply Hshape. now right.
  - destruct (_validate_email _) eqn:E; [| reflexivity]. exfalso.
    apply validate_email_spec in E
      as (loc' & dom' & tld' & He & Hln' & Hl' & Hdn' & Hd' & Htn' & Ht').
    destruct (email_body_facts loc' dom' tld' Hl' Hd' Ht' Hln' Hdn' Htn')
      as (_ & Hsp & _).
    set (body := (loc ++ "@" ++ dom ++ "." ++ tld)%string) in *.
    set (body' := (loc' ++ "@" ++ dom' ++ "." ++ tld')%string) in *.
    unfold no_space in Hsp.
    destruct He as [He | He].
    + rewrite <- He, forallb_append in Hsp.
      apply andb_true_iff in Hsp as [_ Hsp]. discriminate Hsp.
    + assert (He' : ((body ++ String Re.newline "") ++ String Re.newline "")%string
                    = (body' ++ String Re.newline "")%string).
      { rewrite append_assoc.
        change (String Re.newline "" ++ String Re.newline "")%string
          with (String Re.newline (String Re.newline "")).
        rewrite He. unfold body'. now rewrite !append_assoc. }
      apply append_last_inj in He'.
      rewrite <- He', forallb_append in Hsp.
      apply andb_true_iff in Hsp as [_ Hsp]. discriminate Hsp.
Qed.

Lemma X15_trailing_newline_witness :
  _validate_email ("a@b.co" ++ String Re.newline "") = true.
Proof.
  exact (proj1 (proj2 (X15_trailing_newline "a@b.co" eq_refl))).
Defined.

(** ** More on the derived tech stack and on replies read line by line *)

Section Comprehension.

Variable sep : ascii.

(** The body of both comprehensions: keep the trimmed text unless empty. *)
Let keep (x : string) : list string :=
  if PyStr.truthy (PyStr.strip x) then [PyStr.strip x] else [].

Lemma strip_empty_iff (x : string) : PyStr.strip x = "" <-> all_space x.
Proof.
  split.
  - intros H. destruct (strip_is_trim x) as (a & b & E & Ha & Hb & _).
    rewrite H in E. cbn in E. rewrite E. unfold all_space in *.
    now rewrite forallb_append, Ha, Hb.
  - intros H. unfold PyStr.strip. now rewrite lstrip_all_space.
Qed.

Lemma strip_trimmed (x : string) : trimmed x -> PyStr.strip x = x.
Proof.
  intros H. symmetry. apply trim_unique. exists "", "".
  repeat split; try apply H. cbn. now rewrite append_empty_r.
Qed.

Lemma strip_clean (x : string) :
  sep_free sep x -> PyStr.strip x <> "" -> clean_item sep (PyStr.strip x).
Proof.
  intros Hx Hne. destruct (strip_is_trim x) as (a & b & E & _ & _ & Ht).
  repeat split; try assumption; try apply Ht.
  unfold sep_free in *. rewrite E, !forallb_append in Hx.
  apply andb_true_iff in Hx as [_ Hx]. now apply andb_true_iff in Hx as [Hx _].
Qed.

Lemma keep_items (l : list string) :
  Forall (sep_free sep) l -> Forall (clean_item sep) (flat_map keep l).
Proof.
  induction 1 as [|x l Hx _ IH]; cbn [flat_map]; [constructor |].
  apply Forall_app. split; [| exact IH]. unfold keep.
  destruct (PyStr.truthy (PyStr.strip x)) eqn:E; [| constructor].
  constructor; [| constructor]. apply strip_clean; [assumption |].
  now apply truthy_true.
Qed.

Lemma split_app_sep (x r : string) :
  sep_free sep x ->
  PyStr.split sep (x ++ String sep r) = x :: PyStr.split sep r.
Proof.
  intros Hx. induction x as [|c x IH].
  - cbn. now rewrite Ascii.eqb_refl.
  - unfold sep_free in Hx. cbn in Hx. apply andb_true_iff in Hx as [Hc Hx].
    apply negb_true_iff in Hc.
    change (String c x ++ String sep r)%string
      with (String c (x ++ String sep r)).
    cbn [PyStr.split]. now rewrite Hc, (IH Hx).
Qed.

Lemma split_sep_free_text (x : string) :
  sep_free sep x -> PyStr.split sep x = [x].
Proof.
  intros Hx. pose proof (split_unique sep [x]) as H. cbn in H.
  apply H; [discriminate | now constructor].
Qed.

End Comprehension.

Lemma parse_single (x : string) :
  clean_item "," x -> parse_tech_stack x = [x].
Proof.
  intros (Hne & Ht & Hf). unfold parse_tech_stack.
  rewrite split_sep_free_text by assumption. cbn [flat_map].
  rewrite (strip_trimmed x Ht). apply truthy_true in Hne. now rewrite Hne.
Qed.

Lemma parse_cons (x r : string) :
  clean_item "," x ->
  parse_tech_stack (x ++ String "," r) = x :: parse_tech_stack r.
Proof.
  intros (Hne & Ht & Hf). unfold parse_tech_stack.
  rewrite split_app_sep by assumption. cbn [flat_map].
  rewrite (strip_trimmed x Ht). apply truthy_true in Hne. now rewrite Hne.
Qed.

Lemma parse_leading_space (r : string) :
  parse_tech_stack (String " " r) = parse_tech_stack r.
Proof.
  unfold parse_tech_stack. cbn [PyStr.split].
  change (Ascii.eqb " " ",") with false. cbv iota.
  pose proof (split_nonempty "," r) as Hne.
  destruct (PyStr.split "," r) as [|seg segs]; [congruence |].
  reflexivity.
Qed.

Lemma parse_join (l : list string) :
  Forall (clean_item ",") l -> parse_tech_stack (PyStr.join ", " l) = l.
Proof.
  induction 1 as [|x l Hx Hl IH]; [reflexivity |].
  destruct l as [|y l].
  - now apply parse_single.
  - rewrite join_cons by discriminate.
    change (x ++ ", " ++ PyStr.join ", " (y :: l))%string
      with (x ++ String "," (String " " (PyStr.join ", " (y :: l))))%string.
    rewrite parse_cons by assumption. now rewrite parse_leading_space, IH.
Qed.

Lemma parse_empty_iff (raw : string) :
  parse_tech_stack raw = [] <->
  PyStr.forallb (fun c => PyStr.isspace c || Ascii.eqb c ",") raw = true.
Proof.
  unfold parse_tech_stack.
  set (keep := fun tech => if PyStr.truthy (PyStr.strip tech)
                           then [PyStr.strip tech] else []).
  assert (Hkeep : forall x l, keep x ++ l = [] <-> all_space x /\ l = []).
  { intros x l. unfold keep. rewrite <- strip_empty_iff.
    destruct (PyStr.strip x); cbn; split; try tauto; try discriminate.
    intros [H _]. discriminate. }
  assert (H : match PyStr.split "," raw with
              | [] => False
              | seg :: segs =>
                  (all_space seg /\ flat_map keep segs = []) <->
                  PyStr.forallb (fun c => PyStr.isspace c || Ascii.eqb c ",") raw
                  = true
              end).
  { induction raw as [|c raw IH]; cbn [PyStr.split PyStr.forallb].
    - split; [reflexivity | now split].
    - destruct (PyStr.split "," raw) as [|seg segs]; [contradiction |].
      destruct (Ascii.eqb_spec c ",") as [-> | Hc].
      + cbn [flat_map]. rewrite Hkeep, IH. cbn. rewrite orb_true_r. cbn.
        split; [tauto | now split].
      + rewrite orb_false_r, andb_true_iff, <- IH.
        unfold all_space. cbn [PyStr.forallb]. rewrite andb_true_iff. tauto. }
  destruct (PyStr.split "," raw) as [|seg segs]; [contradiction |].
  cbn [flat_map]. now rewrite Hkeep.
Qed.

(** X16: every item of the derived tech stack is a non-empty text without
    commas and without white space at its ends. The stack is empty exactly
    when the raw text holds nothing but commas and white space. Writing
    the stack out with ", " and deriving again gives the same stack. *)
Theorem X16_tech_stack_items (raw : string) :
  Forall (clean_item ",") (parse_tech_stack raw)
  /\ (parse_tech_stack raw = [] <->
      PyStr.forallb (fun c => PyStr.isspace c || Ascii.eqb c ",") raw = true)
  /\ parse_tech_stack (PyStr.join ", " (parse_tech_stack raw))
     = parse_tech_stack raw.
Proof.
  assert (H : Forall (clean_item ",") (parse_tech_stack raw)).
  { unfold parse_tech_stack. apply keep_items, split_sep_free. }
  split; [exact H |]. split; [apply parse_empty_iff | now apply parse_join].
Qed.

(** X17: a list of technologies, each a non-empty text without commas and
    without white space at its ends, written as "a, b, c" is read back as
    the same list. *)
Theorem X17_tech_stack_round_trip (l : list string) :
  Forall (clean_item ",") l ->
  parse_tech_stack (PyStr.join ", " l) = l.
Proof. apply parse_join. Qed.

Lemma X17_tech_stack_round_trip_witness :
  parse_tech_stack (PyStr.join ", " ["Node.js"; "C++"])
  = ["Node.js"; "C++"].
Proof.
  apply X17_tech_stack_round_trip.
  assert (H : forall x, PyStr.strip x = x -> x <> "" -> sep_free "," x ->
                        clean_item "," x).
  { intros x Hs Hne Hf. repeat split; try assumption;
      destruct (strip_is_trim x) as (a & b & _ & _ & _ & Ht);
      rewrite Hs in Ht; apply Ht. }
  repeat constructor; apply H; try reflexivity; discriminate.
Defined.

(** ** More on the question source *)

(** X18: the fallback looks at the lowered name only. Two names that
    differ in case alone get the same fixed questions when a key of the
    table occurs in them, and miss the table together otherwise; a name
    that holds "python" gets the Python questions whatever else it holds. *)
Theorem X18_fallback_ignores_case (t1 t2 : string) :
  PyStr.lower t1 = PyStr.lower t2 ->
  ((exists key qs, first_matching_key key qs t1) ->
   _get_fallback_questions t1 = _get_fallback_questions t2)
  /\ (no_matching_key t1 -> no_matching_key t2)
  /\ (is_substring "python" (PyStr.lower t1) ->
      _get_fallback_questions t1 = python_questions /\
      _get_fallback_questions t2 = python_questions).
Proof.
  intros Hl. split; [| split].
  - intros (key & qs & H).
    assert (H2 : first_matching_key key qs t2).
    { unfold first_matching_key in *. now rewrite <- Hl. }
    now rewrite (fallback_first_key _ _ _ H), (fallback_first_key _ _ _ H2).
  - unfold no_matching_key. now rewrite Hl.
  - intros Hp.
    assert (H1 : first_matching_key "python" python_questions t1).
    { exists [], (skipn 1 fallback_questions). repeat split;
        [assumption | constructor]. }
    assert (H2 : first_matching_key "python" python_questions t2).
    { unfold first_matching_key in *. now rewrite <- Hl. }
    split; [exact (fallback_first_key _ _ _ H1)
           | exact (fallback_first_key _ _ _ H2)].
Qed.

Lemma X18_fallback_ignores_case_witness :
  _get_fallback_questions "PYTHON / JavaScript" = python_questions /\
  _get_fallback_questions "python / javascript" = python_questions.
Proof.
  apply (X18_fallback_ignores_case "PYTHON / JavaScript" "python / javascript"
           eq_refl).
  apply contains_spec. reflexivity.
Defined.

(** ** Replies read line by line *)

Lemma rstrip_keeps_nonspace (c : ascii) (x : string) :
  PyStr.isspace c = false -> PyStr.rstrip (String c x) <> "".
Proof.
  intros Hc. cbn. destruct (PyStr.rstrip x); [now rewrite Hc | discriminate].
Qed.

(** A text that starts with something other than white space has a first
    line that is kept. *)
Lemma nonblank_lines_nonempty (t : string) :
  t <> "" -> trimmed t -> nonblank_lines t <> [].
Proof.
  intros Hne [Hfirst _]. destruct t as [|c r]; [congruence |].
  pose proof (Hfirst c r eq_refl) as Hc.
  assert (Hnl : Ascii.eqb c Re.newline = false).
  { destruct (Ascii.eqb_spec c Re.newline) as [-> |]; [discriminate Hc | reflexivity]. }
  unfold nonblank_lines. cbn [PyStr.split]. rewrite Hnl.
  assert (Hkeep : forall seg, PyStr.truthy (PyStr.strip (String c seg)) = true).
  { intros seg. apply truthy_true. unfold PyStr.strip. cbn [PyStr.lstrip].
    rewrite Hc. now apply rstrip_keeps_nonspace. }
  destruct (PyStr.split Re.newline r) as [|seg segs]; cbn [flat_map];
    rewrite Hkeep; discriminate.
Qed.

Lemma firstn_nil_iff {A : Type} (l : list A) : firstn 5 l = [] <-> l = [].
Proof. destruct l; cbn; split; congruence. Qed.

Section Lines.

(** The body of the comprehension: keep the trimmed line unless empty. *)
Let keep (x : string) : list string :=
  if PyStr.truthy (PyStr.strip x) then [PyStr.strip x] else [].

Lemma strip_leading_space (c : ascii) (x : string) :
  PyStr.isspace c = true -> PyStr.strip (String c x) = PyStr.strip x.
Proof. intros H. unfold PyStr.strip. cbn [PyStr.lstrip]. now rewrite H. Qed.

Lemma strip_append_space (x b : string) :
  all_space b -> PyStr.strip (x ++ b) = PyStr.strip x.
Proof.
  intros Hb. symmetry. apply trim_unique.
  destruct (strip_is_trim x) as (a & b' & E & Ha & Hb' & Ht).
  exists a, (b' ++ b)%string. split; [| split; [| split]]; try assumption.
  - transitivity ((a ++ PyStr.strip x ++ b') ++ b)%string;
      [now rewrite <- E | now rewrite !append_assoc].
  - unfold all_space in *. now rewrite forallb_append, Hb', Hb.
Qed.

Lemma split_other_char (c : ascii) (x : string) :
  Ascii.eqb c Re.newline = false ->
  PyStr.split Re.newline (String c x)
  = prefix_first (String c "") (PyStr.split Re.newline x).
Proof.
  intros H. cbn [PyStr.split]. rewrite H.
  pose proof (split_nonempty Re.newline x) as Hne.
  destruct (PyStr.split Re.newline x); [congruence | reflexivity].
Qed.

Lemma prefix_first_twice (p q : string) (l : list string) :
  prefix_first p (prefix_first q l) = prefix_first (p ++ q) l.
Proof. destruct l; [reflexivity |]. cbn. now rewrite append_assoc. Qed.

Lemma prefix_first_empty (l : list string) : prefix_first "" l = l.
Proof. now destruct l. Qed.

(** White space after the last line adds no line. *)
Lemma blank_tail (b : string) :
  all_space b ->
  forall p, flat_map keep (prefix_first p (PyStr.split Re.newline b)) = keep p.
Proof.
  induction b as [|c b IH]; intros Hb p.
  - cbn. now rewrite append_empty_r, app_nil_r.
  - unfold all_space in Hb. cbn [PyStr.forallb] in Hb.
    apply andb_true_iff in Hb as [Hc Hb].
    destruct (Ascii.eqb c Re.newline) eqn:E.
    + cbn [PyStr.split]. rewrite E. cbn [prefix_first flat_map].
      rewrite append_empty_r.
      rewrite <- (prefix_first_empty (PyStr.split Re.newline b)).
      rewrite (IH Hb ""). cbn. now rewrite app_nil_r.
    + rewrite (split_other_char c b E), prefix_first_twice, (IH Hb).
      unfold keep. rewrite strip_append_space; [reflexivity |].
      unfold all_space. cbn. now rewrite Hc.
Qed.

Lemma trailing_space (t b : string) :
  all_space b ->
  forall p,
    flat_map keep (prefix_first p (PyStr.split Re.newline (t ++ b)))
    = flat_map keep (prefix_first p (PyStr.split Re.newline t)).
Proof.
  intros Hb. induction t as [|c t IH]; intros p.
  - change ("" ++ b)%string with b. rewrite (blank_tail b Hb).
    cbn. now rewrite append_empty_r, app_nil_r.
  - change (String c t ++ b)%string with (String c (t ++ b)).
    destruct (Ascii.eqb c Re.newline) eqn:E.
    + cbn [PyStr.split]. rewrite E. cbn [prefix_first flat_map]. f_equal.
      rewrite <- (prefix_first_empty (PyStr.split Re.newline (t ++ b))).
      rewrite <- (prefix_first_empty (PyStr.split Re.newline t)).
      apply IH.
    + rewrite !(split_other_char c _ E), !prefix_first_twice. apply IH.
Qed.

Lemma leading_space_char (c : ascii) (x : string) :
  PyStr.isspace c = true ->
  nonblank_lines (String c x) = nonblank_lines x.
Proof.
  intros Hc. unfold nonblank_lines.
  destruct (Ascii.eqb c Re.newline) eqn:E.
  - cbn [PyStr.split]. rewrite E. reflexivity.
  - rewrite (split_other_char c x E).
    pose proof (split_nonempty Re.newline x) as Hne.
    destruct (PyStr.split Re.newline x) as [|seg segs]; [congruence |].
    cbn [prefix_first flat_map].
    change (String c "" ++ seg)%string with (String c seg).
    now rewrite (strip_leading_space c seg Hc).
Qed.

Lemma leading_space (a y : string) :
  all_space a -> nonblank_lines (a ++ y) = nonblank_lines y.
Proof.
  induction a as [|c a IH]; intros Ha; [reflexivity |].
  unfold all_space in Ha. cbn [PyStr.forallb] in Ha.
  apply andb_true_iff in Ha as [Hc Ha].
  change (String c a ++ y)%string with (String c (a ++ y)).
  rewrite (leading_space_char c _ Hc). now apply IH.
Qed.

(** Trimming the whole reply first does not change its non-blank lines. *)
Lemma nonblank_lines_strip (text : string) :
  nonblank_lines (PyStr.strip text) = nonblank_lines text.
Proof.
  destruct (strip_is_trim text) as (a & b & E & Ha & Hb & _).
  transitivity (nonblank_lines (a ++ PyStr.strip text ++ b));
    [| now rewrite <- E].
  rewrite (leading_space a _ Ha). unfold nonblank_lines.
  rewrite <- (prefix_first_empty (PyStr.split Re.newline (PyStr.strip text ++ b))).
  rewrite <- (prefix_first_empty (PyStr.split Re.newline (PyStr.strip text))).
  symmetry. apply (trailing_space _ b Hb).
Qed.

(** The comprehension computes the one list the description allows. *)
Lemma first_lines_spec (text : string) (result : list string) :
  first_lines_of text result <-> result = firstn 5 (nonblank_lines text).
Proof.
  unfold first_lines_of, nonblank_lines. rewrite keep_nonempty_strip. split.
  - intros (segs & trims & Hne & Hjoin & Hfree & Htrim & ->).
    rewrite <- Hjoin, (split_unique _ _ Hne Hfree).
    now rewrite (trims_are_strips _ _ Htrim).
  - intros ->. exists (PyStr.split Re.newline text),
                      (map PyStr.strip (PyStr.split Re.newline text)).
    split; [apply split_nonempty |]. split; [apply join_split |].
    split; [apply split_sep_free |]. split; [apply strips_are_trims |].
    reflexivity.
Qed.

End Lines.

(** X19: with a credential, a reply that is not JSON is read line by line.
    The questions returned are the first five non-blank lines of the
    reply, in the order of the reply, each without the white space at its
    ends, and no other list fits that description. No warning is shown.
    Hence there are five at most, each is non-empty, trimmed and free of
    newlines, and there is none exactly when the reply is blank. *)
Theorem X19_reply_read_by_lines (env : environment) (content technology : string)
    (experience_level : Z) :
  api_key env <> "" ->
  json_loads env (PyStr.strip content) = JSONDecodeError ->
  exists lines,
    generate_questions_for_tech env (RemoteContent content) technology
      experience_level = (QList (map PStr lines), [])
    /\ first_lines_of content lines
    /\ (forall other, first_lines_of content other -> other = lines)
    /\ length lines <= 5
    /\ Forall (clean_item Re.newline) lines
    /\ (lines = [] <-> blank content).
Proof.
  intros Hkey Hjson. apply truthy_true in Hkey.
  exists (firstn 5 (nonblank_lines content)).
  split; [| split; [| split; [| split; [| split]]]].
  - unfold generate_questions_for_tech. rewrite Hkey, Hjson. cbn [negb].
    now rewrite firstn_map, nonblank_lines_strip.
  - now apply first_lines_spec.
  - intros other H. now apply first_lines_spec.
  - rewrite length_firstn. lia.
  - apply Forall_take. unfold nonblank_lines.
    apply keep_items, split_sep_free.
  - rewrite firstn_nil_iff, <- nonblank_lines_strip.
    unfold blank. rewrite <- strip_empty_iff. split.
    + intros Hnil. destruct (string_dec (PyStr.strip content) "") as [E | Hne];
        [exact E |].
      exfalso. apply (nonblank_lines_nonempty (PyStr.strip content));
        try assumption.
      now destruct (strip_is_trim content) as (a & b & _ & _ & _ & Ht).
    + intros ->. reflexivity.
Qed.

Lemma X19_reply_read_by_lines_witness :
  generate_questions_for_tech with_key (RemoteContent two_questions_reply)
    "Go" 1
  = (QList [PStr "What is Go?"; PStr "Why Go?"], []).
Proof.
  destruct (X19_reply_read_by_lines with_key two_questions_reply "Go" 1
              ltac:(discriminate) eq_refl)
    as (lines & H1 & _ & Huniq & _).
  rewrite H1, <- (Huniq ["What is Go?"; "Why Go?"]); [reflexivity |].
  apply first_lines_spec. reflexivity.
Defined.

(** X20: the question source shows its warning exactly when a credential
    is configured and a step of the remote path raised; it then shows one
    warning and returns the fallback. Without a credential it returns the
    fallback silently, whatever the service would have said. *)
Theorem X20_warning_iff_failure (env : environment) (reply : remote_result)
    (technology : string) (experience_level : Z) :
  let out := snd (generate_questions_for_tech env reply technology
                    experience_level) in
  (out = [] \/ exists e, out = [st_warning_openai e])
  /\ (out <> [] <-> api_key env <> "" /\ remote_step_fails env reply)
  /\ (api_key env = "" ->
      generate_questions_for_tech env reply technology experience_level
      = (QList (map PStr (_get_fallback_questions technology)), []))
  /\ (out <> [] ->
      fst (generate_questions_for_tech env reply technology experience_level)
      = QList (map PStr (_get_fallback_questions technology))).
Proof.
  intros out. subst out.
  unfold generate_questions_for_tech, remote_step_fails, fallback_after.
  destruct (api_key env) as [|c k] eqn:Hk; cbn [PyStr.truthy negb fst snd].
  { split; [now left |]. split; [| split; [reflexivity | congruence]].
    split; [congruence | intros [H _]; congruence]. }
  assert (Hne : String c k <> "") by discriminate.
  destruct reply as [e | content]; cbn [fst snd].
  { split; [right; eauto |]. split; [| split; [discriminate | reflexivity]].
    split; [now split | discriminate]. }
  destruct (json_loads env (PyStr.strip content)) as [v | | e]; cbn [fst snd].
  - destruct (slice5 v) as [q|]; cbn [fst snd].
    + split; [now left |]. split; [| split; [discriminate | congruence]].
      split; [congruence | intros [_ H]; discriminate].
    + split; [right; eauto |]. split; [| split; [discriminate | reflexivity]].
      split; [now split | discriminate].
  - split; [now left |]. split; [| split; [discriminate | congruence]].
    split; [congruence | intros [_ []]].
  - split; [right; eauto |]. split; [| split; [discriminate | reflexivity]].
    split; [now split | discriminate].
Qed.

(** ** When the service is called *)

Section ServiceCalls.

Variable env : environment.

Implicit Types (i : pass_input) (s : session_state) (out : list ui).

Lemma generate_calls_app out1 out2 :
  generate_calls (out1 ++ out2) = generate_calls out1 + generate_calls out2.
Proof.
  induction out1 as [|u out1 IH]; [reflexivity |].
  destruct u; cbn [app generate_calls]; try exact IH. now rewrite IH.
Qed.

Lemma quiet_calls out : quiet out -> generate_calls out = 0.
Proof.
  induction 1 as [|u out Hu _ IH]; [reflexivity |].
  destruct u; cbn [generate_calls]; try exact IH; contradiction.
Qed.

Lemma form_output_calls i s :
  generate_calls (form_output env i s)
  = match tech_questions s !! current_tech s with
    | Some _ => 0
    | None => 1
    end.
Proof.
  unfold form_output, generation_output. rewrite generate_calls_app.
  destruct (tech_questions s !! current_tech s); [reflexivity |].
  cbn [generate_calls]. rewrite quiet_calls; [reflexivity |].
  apply generate_warnings_quiet.
Qed.

Lemma current_tech_recorded i s : current_tech (recorded i s) = current_tech s.
Proof. unfold current_tech. now rewrite recorded_index, recorded_stack. Qed.

Lemma pass_generate_calls i s :
  generate_calls (snd (pass env i s))
  = match tech_questions s !! current_tech s with
    | None =>
        if negb (exit_requested i)
           && match current_stage s with
              | technical_assessment => true
              | _ => false
              end
           && (current_tech_index s <? length (tech_stack_list s))%nat
        then 1 else 0
    | Some _ => 0
    end.
Proof.
  pose proof (chat_output_quiet i) as Hchat. apply quiet_calls in Hchat.
  assert (Hzero : generate_calls (snd (pass env i s)) = 0 ->
                  negb (exit_requested i)
                  && match current_stage s with
                     | technical_assessment => true
                     | _ => false
                     end
                  && (current_tech_index s <? length (tech_stack_list s))%nat
                  = false ->
                  generate_calls (snd (pass env i s))
                  = match tech_questions s !! current_tech s with
                    | None =>
                        if negb (exit_requested i)
                           && match current_stage s with
                              | technical_assessment => true
                              | _ => false
                              end
                           && (current_tech_index s
                               <? length (tech_stack_list s))%nat
                        then 1 else 0
                    | Some _ => 0
                    end).
  { intros -> ->. now destruct (tech_questions s !! current_tech s). }
  destruct (exit_requested i) eqn:Hx.
  { apply Hzero; [| reflexivity]. now rewrite pass_exit. }
  destruct (current_stage s) eqn:Hg.
  - apply Hzero; [| reflexivity]. rewrite pass_greeting by assumption.
    cbn [snd]. rewrite generate_calls_app, Hchat.
    now destruct (lets_begin i).
  - apply Hzero; [| reflexivity]. rewrite pass_data_collection by assumption.
    pose proof (quiet_calls _ (validation_errors_quiet (form_values i))) as Hv.
    destruct (form_submitted i); [destruct (form_ok (form_values i)) |];
      cbn [snd]; rewrite !generate_calls_app, Hchat, ?Hv; reflexivity.
  - assert (Hcases : tech_stack_list s = [] \/ tech_stack_list s <> []).
    { destruct (tech_stack_list s); [now left | now right]. }
    destruct Hcases as [He | Hne].
    { apply Hzero.
      - rewrite pass_assessment_empty by assumption. cbn [snd].
        now rewrite generate_calls_app, Hchat.
      - rewrite He. cbn [length].
        change (current_tech_index s <? 0)%nat with false.
        now rewrite andb_false_r. }
    destruct (Nat.ltb_spec (current_tech_index s) (length (tech_stack_list s)))
      as [Hlt | Hge].
    + rewrite pass_assessment_form by assumption. cbn [snd negb andb].
      rewrite !generate_calls_app, Hchat, form_output_calls.
      rewrite current_tech_recorded, recorded_questions.
      assert (Hpost : forall post : list ui,
                 post = [st_rerun] \/
                 post = [st_error "Please answer all questions before submitting."] \/
                 post = [] -> generate_calls post = 0).
      { intros post [-> | [-> | ->]]; reflexivity. }
      rewrite Hpost.
      * destruct (tech_questions s !! current_tech s); reflexivity.
      * destruct (answers_submitted i); [destruct (forallb _ _) |]; tauto.
    + apply Hzero; [| now rewrite andb_false_r].
      rewrite pass_assessment_exhausted by assumption. cbn [snd].
      now rewrite generate_calls_app, Hchat.
  - apply Hzero; [| reflexivity]. rewrite pass_completion by assumption.
    cbn [snd]. rewrite !generate_calls_app, Hchat.
    now destruct (start_new_session i).
Qed.

End ServiceCalls.

(** X21: a pass calls the question source once at most, and it does so
    exactly when it shows the form of a technology that has no stored
    questions yet; what the call returns is stored in that same pass. *)
Theorem X21_question_source_called_when_needed (env : environment) (i : pass_input)
    (s : session_state) :
  generate_calls (snd (pass env i s)) <= 1
  /\ (generate_calls (snd (pass env i s)) = 1 <-> needs_questions i s)
  /\ (needs_questions i s ->
      tech_questions (fst (pass env i s)) !! current_tech s
      = Some (fst (generate_questions_for_tech env (completion_reply i)
                     (current_tech s) (experience_of (candidate_data s))))).
Proof.
  rewrite pass_generate_calls. unfold needs_questions.
  split; [| split].
  - destruct (tech_questions s !! current_tech s); [lia |].
    destruct (_ && _); lia.
  - destruct (tech_questions s !! current_tech s) as [q|] eqn:L.
    + split; [discriminate | intros (_ & _ & _ & H); discriminate].
    + destruct (exit_requested i); cbn [negb andb];
        [split; [discriminate | intros (H & _); discriminate] |].
      destruct (current_stage s); cbn [andb];
        try (split; [discriminate | intros (_ & H & _); discriminate]).
      destruct (Nat.ltb_spec (current_tech_index s) (length (tech_stack_list s))).
      * split; [now intros _ | reflexivity].
      * split; [discriminate | intros (_ & _ & H' & _); lia].
  - intros (Hx & Hg & Hlt & L).
    rewrite pass_assessment_form by assumption. cbn [fst].
    rewrite <- (current_tech_recorded i s) at 1.
    assert (E : forall b : bool,
               tech_questions (if b then record_answers env i (recorded i s)
                               else with_questions env i (recorded i s))
               = tech_questions (with_questions env i (recorded i s))).
    { now intros []. }
    rewrite E, with_questions_lookup, shown_questions_recorded.
    unfold shown_questions. now rewrite L.
Qed.

(** X22: a submitted intake form that fails validation changes nothing
    but the chat history: the stage stays data_collection and no profile is
    written. The general error is shown last; the e-mail error comes before
    it exactly when every required field is filled in, so that the e-mail
    is the only fault. *)
Theorem X22_rejected_intake (env : environment) (i : pass_input)
    (s : session_state) :
  current_stage s = data_collection ->
  exit_requested i = false ->
  form_submitted i = true ->
  fst (fst (_validate_form (form_values i) s)) = false ->
  fst (pass env i s) = recorded i s
  /\ current_stage (fst (pass env i s)) = data_collection
  /\ candidate_data (fst (pass env i s)) = candidate_data s
  /\ tech_stack_list (fst (pass env i s)) = tech_stack_list s
  /\ snd (pass env i s)
     = chat_output i ++ snd (_validate_form (form_values i) s)
       ++ [st_error "Please fill in all required fields correctly."]
  /\ (snd (_validate_form (form_values i) s)
      = [st_error "Please enter a valid email address."]
      \/ snd (_validate_form (form_values i) s) = [])
  /\ (snd (_validate_form (form_values i) s) <> [] <->
      full_name (form_values i) <> "" /\ email (form_values i) <> "" /\
      phone_number (form_values i) <> "" /\
      current_location (form_values i) <> "" /\
      tech_stack (form_values i) <> "" /\
      desired_positions (form_values i) <> []).
Proof.
  intros Hg Hx Hsub Hbad. rewrite validate_form_eq in *. cbn [fst snd] in *.
  rewrite (pass_data_collection env i s Hx Hg), Hsub, Hbad. cbn [fst snd].
  rewrite recorded_stage, recorded_candidate, recorded_stack.
  repeat (split; [reflexivity || assumption |]).
  set (f := form_values i) in *.
  unfold form_ok, validation_errors, _validate_form in *.
  cbn [forallb] in *. rewrite <- !truthy_true.
  destruct (PyStr.truthy (full_name f)), (PyStr.truthy (email f)),
    (PyStr.truthy (phone_number f)), (PyStr.truthy (current_location f)),
    (PyStr.truthy (tech_stack f)); cbn [andb negb snd fst] in *;
    try (split; [now right
                | split; [intros H; now contradiction H
                         | intros H; decompose [and] H; congruence]]).
  destruct (desired_positions f); cbn in *;
    [split; [now right
            | split; [intros H; now contradiction H
                     | intros H; decompose [and] H; congruence]] |].
  destruct (_validate_email (email f)); cbn in *; [discriminate |].
  split; [now left |]. split; [intros _; repeat split; congruence | discriminate].
Qed.

Lemma X22_rejected_intake_witness :
  snd (pass without_key
         (submit_form {| full_name := "Ada"; email := "ada"; phone_number := "1";
                         years_experience := 1; desired_positions := ["QA Engineer"];
                         current_location := "X"; tech_stack := "Go" |} 1)
         at_data_collection)
  = [st_error "Please enter a valid email address.";
     st_error "Please fill in all required fields correctly."].
Proof.
  destruct (X22_rejected_intake without_key
              (submit_form {| full_name := "Ada"; email := "ada";
                              phone_number := "1"; years_experience := 1;
                              desired_positions := ["QA Engineer"];
                              current_location := "X"; tech_stack := "Go" |} 1)
              at_data_collection eq_refl eq_refl eq_refl eq_refl)
    as (_ & _ & _ & _ & Hout & _).
  rewrite Hout. reflexivity.
Defined.
